(** * 1inch intent-swap example scripts: a shallow embedding

    The repository is a set of one-shot TypeScript scripts over the 1inch
    Fusion SDKs.  This development embeds the code the repository owns:
    the helpers of [evm/shared/types.ts] and [solana/utils/connection.ts],
    the two [createProvider] adapters, and the control flow of every
    script (checks, call order, polling loops, WebSocket trackers and
    entry points).  Calls into the SDKs, the RPC clients and the codecs
    are the environment: their replies are inputs of the model. *)

From Stdlib Require Import ZArith NArith List Lia Bool Ascii String.
From Equations Require Import Equations.
Import ListNotations.

Open Scope string_scope.

(* ===================================================================== *)
(** * JavaScript values used by the scripts *)
(* ===================================================================== *)

Module Js.

Definition inspect {A : Type} (x : A) : { y : A | x = y } := exist _ x eq_refl.

(** ** Strings *)

(** [s.startsWith(p)] *)
Fixpoint startsWith (p s : string) : bool :=
  match p, s with
  | EmptyString, _ => true
  | String a p', String b s' => if Ascii.eqb a b then startsWith p' s' else false
  | String _ _, EmptyString => false
  end.

(** [s.includes(sub)] *)
Fixpoint includes (sub s : string) : bool :=
  if startsWith sub s then true
  else match s with
       | EmptyString => false
       | String _ s' => includes sub s'
       end.

(** [s.slice(0, n)] *)
Fixpoint take (n : nat) (s : string) : string :=
  match n, s with
  | S n', String c s' => String c (take n' s')
  | _, _ => EmptyString
  end.

(** [s.slice(n)] *)
Fixpoint drop (n : nat) (s : string) : string :=
  match n, s with
  | S n', String _ s' => drop n' s'
  | _, _ => s
  end.

(** [c.repeat(n)] for a one-character string *)
Fixpoint repeat (c : ascii) (n : nat) : string :=
  match n with
  | O => EmptyString
  | S n' => String c (repeat c n')
  end.

(** [s.padStart(target, c)] for a one-character pad string: a string
    that is already [target] long or longer is returned unchanged. *)
Definition padStart (target : nat) (c : ascii) (s : string) : string :=
  repeat c (target - String.length s) ++ s.

(** [parts.join(sep)] *)
Fixpoint join (sep : string) (parts : list string) : string :=
  match parts with
  | [] => ""
  | [p] => p
  | p :: rest => p ++ sep ++ join sep rest
  end.

(** ** BigInt *)

Definition digitChar (d : N) : ascii := ascii_of_N (48 + d).

(** Decimal digits of a natural number, most significant first. *)
Equations digitsN (n : N) : string by wf (N.to_nat n) lt :=
  digitsN n with inspect (n <? 10)%N := {
    | exist _ true _ => String (digitChar n) ""
    | exist _ false H => digitsN (n / 10) ++ String (digitChar (n mod 10)) "" }.
Next Obligation.
  apply N.ltb_ge in H.
  assert (n / 10 < n)%N by (apply N.div_lt; lia).
  lia.
Qed.

(** [BigInt.prototype.toString()], also what a template literal prints. *)
Definition toString (z : Z) : string :=
  if (z <? 0)%Z then "-" ++ digitsN (Z.abs_N z) else digitsN (Z.abs_N z).

(** Reading a digit string back (used to state what a prefix of digits
    denotes). *)
Definition digitValue (c : ascii) : N := N_of_ascii c - 48.

Fixpoint valueAcc (acc : N) (s : string) : N :=
  match s with
  | EmptyString => acc
  | String c s' => valueAcc (acc * 10 + digitValue c) s'
  end.

Definition valueOf (s : string) : N := valueAcc 0 s.

Fixpoint allDigits (s : string) : bool :=
  match s with
  | EmptyString => true
  | String c s' => (48 <=? N_of_ascii c)%N && (N_of_ascii c <=? 57)%N && allDigits s'
  end.

(** ** Thrown values

    What a [catch] clause can observe of a thrown value: whether it is
    an [Error] instance, its message (or, for other values, how the
    console prints it), and the [response.data] payload that HTTP
    client errors carry. *)

Inductive Payload :=
| NoResponse                    (* no [response] property *)
| NoData                        (* [response] without truthy [data] *)
| Data (json : string).         (* truthy [response.data], as JSON.stringify prints it *)

Record Thrown := mkThrown {
  isError : bool;
  message : string;
  payload : Payload
}.

Definition Error (msg : string) : Thrown := mkThrown true msg NoResponse.

Inductive Result (A : Type) :=
| Ok (a : A)
| Throw (e : Thrown).
Arguments Ok {A} a.
Arguments Throw {A} e.

End Js.

(* ===================================================================== *)
(** * evm/shared/types.ts *)
(* ===================================================================== *)

Module Types.
Import Js.

Record Config := mkConfig {
  apiKey : string;
  privateKey : string;
  rpcUrl : string;
  networkId : string
}.

(** [process.env]: the four variables the EVM scripts read. *)
Record ProcessEnv := mkEnv {
  API_KEY : option string;
  EVM_PRIVATE_KEY : option string;
  EVM_NETWORK_ID : option string;
  EVM_RPC_URL : option string
}.

Inductive NetworkEnum :=
| ETHEREUM | COINBASE | BINANCE | POLYGON | ARBITRUM | OPTIMISM | AVALANCHE
| GNOSIS | FANTOM | ZKSYNC | LINEA | SONIC | UNICHAIN.

(** [NETWORK_MAP], listed in the order [Object.keys] enumerates it
    (integer-like keys in ascending numeric order). *)
Definition NETWORK_MAP : list (string * NetworkEnum) :=
  [ ("1", ETHEREUM); ("10", OPTIMISM); ("56", BINANCE); ("100", GNOSIS);
    ("130", UNICHAIN); ("137", POLYGON); ("146", SONIC); ("250", FANTOM);
    ("324", ZKSYNC); ("8453", COINBASE); ("42161", ARBITRUM);
    ("43114", AVALANCHE); ("59144", LINEA) ].

Fixpoint lookup {V : Type} (k : string) (m : list (string * V)) : option V :=
  match m with
  | [] => None
  | (k', v) :: m' => if String.eqb k k' then Some v else lookup k m'
  end.

Definition keys {V : Type} (m : list (string * V)) : list string := map fst m.

Module TOKENS.
Definition NATIVE := "0xEeeeeEeeeEeEeeEeEeEeeEEEeeeeEeeeeeeeEEeE".
Definition WETH := "0xC02aaA39b223FE8D0A0e5C4F27eAD9083C756Cc2".
Definition USDC := "0xA0b86991c6218b36c1d19D4a2e9Eb0cE3606eB48".
Definition _1INCH := "0x111111111117dC0aa78b770fA6A738034120C302".
End TOKENS.

Module CONTRACTS.
Definition AGGREGATION_ROUTER_V6 := "0x111111125421ca6dc452d289314280a0f8842a65".
Definition NATIVE_ORDERS_FACTORY := "0xa562172dd87480687debca1cd7ab6a309919e9d8".
Definition PERMIT2 := "0x000000000022D473030F116dDEE9F6B43aC78BA3".
End CONTRACTS.

Definition getDefaultRpcUrl (networkId : string) : string :=
  "https://api.1inch.com/web3/" ++ networkId.

(** [x || d] on an environment variable: unset and empty both fall
    through to the default. *)
Definition orDefault (x : option string) (d : string) : string :=
  match x with
  | Some (String c s) => String c s
  | _ => d
  end.

(** [!x] on an environment variable. *)
Definition missing (x : option string) : bool :=
  match x with
  | Some (String _ _) => false
  | _ => true
  end.

Definition loadConfig (env : ProcessEnv) : Result Config :=
  let networkId := orDefault (EVM_NETWORK_ID env) "1" in
  if missing (API_KEY env) then
    Throw (Error "Missing required environment variable: API_KEY")
  else
    let rpcUrl := orDefault (EVM_RPC_URL env) (getDefaultRpcUrl networkId) in
    if missing (EVM_PRIVATE_KEY env) then
      Throw (Error "Missing required environment variable: EVM_PRIVATE_KEY")
    else if negb (startsWith "0x" (orDefault (EVM_PRIVATE_KEY env) "")) then
      Throw (Error "EVM_PRIVATE_KEY must start with 0x")
    else
      Ok (mkConfig (orDefault (API_KEY env) "") (orDefault (EVM_PRIVATE_KEY env) "")
                   rpcUrl networkId).

(** [formatAmount(amount, decimals)]; [decimals] ranges over the
    non-negative integers (for any other number [BigInt(decimals)] or
    [**] throws a RangeError).  BigInt [/] and [%] truncate towards
    zero. *)
Definition formatAmount (amount : Z) (decimals : N) : string :=
  let divisor := (10 ^ Z.of_N decimals)%Z in
  let integerPart := Z.quot amount divisor in
  let fractionalPart := Z.rem amount divisor in
  let fractionalStr := padStart (N.to_nat decimals) "0"%char (toString fractionalPart) in
  toString integerPart ++ "." ++ take 6 fractionalStr.

Arguments formatAmount : simpl never.

Definition is1inchGateway (rpcUrl : string) : bool :=
  includes "api.1inch.com/web3" rpcUrl.

(** What [createFusionSDK] builds: the arguments of [new FusionSDK]. *)
Record FusionSDK := mkSDK {
  sdk_url : string;
  sdk_network : NetworkEnum;
  sdk_signer : string;
  sdk_authKey : string
}.

Definition createFusionSDK (config : Config) : Result FusionSDK :=
  match lookup (networkId config) NETWORK_MAP with
  | None =>
      Throw (Error ("Unsupported network ID: " ++ networkId config
                    ++ ". Supported: " ++ join ", " (keys NETWORK_MAP)))
  | Some network =>
      Ok (mkSDK "https://api.1inch.com/fusion" network (privateKey config) (apiKey config))
  end.

End Types.

(* ===================================================================== *)
(** * evm/providers/interface.ts, ethers.ts, viem.ts *)
(* ===================================================================== *)

Module Interface.

(** One entry of an ERC-20 ABI: name, input types, output types, and
    whether the function only reads state. *)
Record AbiFunction := mkAbi {
  abi_name : string;
  abi_inputs : list string;
  abi_outputs : list string;
  abi_view : bool
}.

Fixpoint findFunction (name : string) (abi : list AbiFunction) : option AbiFunction :=
  match abi with
  | [] => None
  | f :: abi' => if String.eqb name (abi_name f) then Some f else findFunction name abi'
  end.

(** What a provider operation asks of the chain.  The reply of the
    chain to the request is what the operation returns to its caller:
    both adapters hand the library's result through unchanged. *)
Inductive ChainRequest :=
| GetBalance (address : string)
| ReadContract (token : string) (fn : option AbiFunction) (args : list string)
| WriteContract (signer token : string) (fn : option AbiFunction)
                (args : list string) (amount : Z)
| WaitForReceipt (txHash : string).

(** The HTTP transport an RPC client is built on. *)
Record Transport := mkTransport {
  url : string;
  headers : list (string * string)
}.

(** [EVMProvider], without the [web3Like] adapter (it is handed to the
    SDK and is not one of the interface's operations). *)
Record EVMProvider := mkProvider {
  address : string;
  transport : Transport;
  getNativeBalance : string -> ChainRequest;
  getTokenBalance : string -> string -> ChainRequest;
  getTokenAllowance : string -> string -> string -> ChainRequest;
  approveToken : string -> string -> Z -> ChainRequest;
  waitForTransaction : string -> ChainRequest
}.

End Interface.

Module EthersProvider.
Import Js Types Interface.

(** [ERC20_ABI] of shared/types.ts (human-readable format). *)
Definition ERC20_ABI : list AbiFunction :=
  [ mkAbi "allowance" ["address"; "address"] ["uint256"] true;
    mkAbi "approve" ["address"; "uint256"] ["bool"] false;
    mkAbi "balanceOf" ["address"] ["uint256"] true;
    mkAbi "decimals" [] ["uint8"] true;
    mkAbi "symbol" [] ["string"] true ].

(** [derive] is the library's key derivation ([new Wallet(key).address]);
    it throws on a malformed key. *)
Definition createProvider (derive : string -> Result string) (config : Config)
  : Result EVMProvider :=
  let jsonRpcProvider :=
    if is1inchGateway (rpcUrl config) then
      mkTransport (rpcUrl config) [("Authorization", "Bearer " ++ apiKey config)]
    else
      mkTransport (rpcUrl config) [] in
  match derive (privateKey config) with
  | Throw e => Throw e
  | Ok wallet =>
      Ok {| address := wallet;
            transport := jsonRpcProvider;
            getNativeBalance := fun address => GetBalance address;
            getTokenBalance := fun tokenAddress ownerAddress =>
              ReadContract tokenAddress (findFunction "balanceOf" ERC20_ABI) [ownerAddress];
            getTokenAllowance := fun tokenAddress ownerAddress spenderAddress =>
              ReadContract tokenAddress (findFunction "allowance" ERC20_ABI)
                           [ownerAddress; spenderAddress];
            approveToken := fun tokenAddress spenderAddress amount =>
              WriteContract wallet tokenAddress (findFunction "approve" ERC20_ABI)
                            [spenderAddress] amount;
            waitForTransaction := fun txHash => WaitForReceipt txHash |}
  end.

End EthersProvider.

Module ViemProvider.
Import Js Types Interface.

(** [ERC20_ABI_VIEM] of shared/types.ts (JSON format). *)
Definition ERC20_ABI_VIEM : list AbiFunction :=
  [ {| abi_name := "allowance"; abi_view := true;
       abi_inputs := ["address"; "address"]; abi_outputs := ["uint256"] |};
    {| abi_name := "approve"; abi_view := false;
       abi_inputs := ["address"; "uint256"]; abi_outputs := ["bool"] |};
    {| abi_name := "balanceOf"; abi_view := true;
       abi_inputs := ["address"]; abi_outputs := ["uint256"] |};
    {| abi_name := "decimals"; abi_view := true;
       abi_inputs := []; abi_outputs := ["uint8"] |};
    {| abi_name := "symbol"; abi_view := true;
       abi_inputs := []; abi_outputs := ["string"] |} ].

Inductive Chain :=
| mainnet | base | bsc | polygon | arbitrum | optimism | avalanche
| gnosis | fantom | zkSync | linea | sonic.

(** [VIEM_CHAIN_MAP], in [Object.keys] order.  Unichain (130) is absent. *)
Definition VIEM_CHAIN_MAP : list (string * Chain) :=
  [ ("1", mainnet); ("10", optimism); ("56", bsc); ("100", gnosis);
    ("137", polygon); ("146", sonic); ("250", fantom); ("324", zkSync);
    ("8453", base); ("42161", arbitrum); ("43114", avalanche);
    ("59144", linea) ].

(** [derive] is the library's key derivation
    ([privateKeyToAccount(key).address]). *)
Definition createProvider (derive : string -> Result string) (config : Config)
  : Result EVMProvider :=
  match lookup (networkId config) VIEM_CHAIN_MAP with
  | None =>
      Throw (Error ("Unsupported network ID: " ++ networkId config
                    ++ ". Supported: " ++ join ", " (keys VIEM_CHAIN_MAP)))
  | Some chain =>
      match derive (privateKey config) with
      | Throw e => Throw e
      | Ok account =>
          let transportOptions :=
            if is1inchGateway (rpcUrl config)
            then [("Authorization", "Bearer " ++ apiKey config)]
            else [] in
          let publicClient := mkTransport (rpcUrl config) transportOptions in
          Ok {| address := account;
                transport := publicClient;
                getNativeBalance := fun address => GetBalance address;
                getTokenBalance := fun tokenAddress ownerAddress =>
                  ReadContract tokenAddress (findFunction "balanceOf" ERC20_ABI_VIEM)
                               [ownerAddress];
                getTokenAllowance := fun tokenAddress ownerAddress spenderAddress =>
                  ReadContract tokenAddress (findFunction "allowance" ERC20_ABI_VIEM)
                               [ownerAddress; spenderAddress];
                approveToken := fun tokenAddress spenderAddress amount =>
                  WriteContract account tokenAddress (findFunction "approve" ERC20_ABI_VIEM)
                                [spenderAddress] amount;
                waitForTransaction := fun txHash => WaitForReceipt txHash |}
      end
  end.

End ViemProvider.

(* ===================================================================== *)
(** * Script runs: calls, errors and process exit *)
(* ===================================================================== *)

Module Script.
Import Js Interface.
Local Open Scope list_scope.

Record QuoteParams := mkParams {
  fromTokenAddress : string;
  toTokenAddress : string;
  amount : string;
  walletAddress : string;
  source : option string;
  isPermit2 : bool
}.

(** Calls into [@1inch/fusion-sdk]. *)
Inductive SdkCall :=
| GetQuote (params : QuoteParams)
| CreateOrder (params : QuoteParams)
| SubmitOrder (order quoteId : string)
| SubmitNativeOrder (order maker quoteId : string)
| GetOrderStatus (orderHash : string).

(** Calls into [@solana/web3.js] and [@1inch/solana-fusion-sdk]. *)
Inductive SolanaCall :=
| GetBalanceOf (publicKey : string)
| SolCreateOrder (srcToken dstToken : string) (amount : Z) (maker : string)
| GetLatestBlockhash
| SendRawTransaction (order : string) (feePayer : string)
| ConfirmTransaction (signature : string)
| GetSignatureStatuses (signature : string)
| SolGetOrderStatus (orderHash : string).

(** The externally visible steps of a run, in program order.  Progress
    output on [console.log] is not recorded; what the entry points
    write on [console.error] is. *)
Inductive Action :=
| Rpc (r : ChainRequest)
| SendTransaction (to data : string) (value : Z)
| Fusion (c : SdkCall)
| Solana (c : SolanaCall)
| Sleep (ms : N)
| WsClose
| ConsoleError (label value : string).

(** An [async] function body: the calls made so far and how it ended. *)
Definition M (A : Type) : Type := list Action * Result A.

Definition ret {A} (a : A) : M A := ([], Ok a).
Definition throw {A} (e : Thrown) : M A := ([], Throw e).
Definition lift {A} (r : Result A) : M A := ([], r).

(** [await f(...)]: the call is made, the environment replies. *)
Definition call {A} (a : Action) (reply : Result A) : M A := ([a], reply).

Definition bind {A B} (m : M A) (k : A -> M B) : M B :=
  match m with
  | (t, Ok a) => let (t', r) := k a in (t ++ t', r)
  | (t, Throw e) => (t, Throw e)
  end.

(** Steps already taken, then the rest. *)
Definition after {A} (t : list Action) (m : M A) : M A :=
  (t ++ fst m, snd m).

(** [try { body } finally { cleanup }] for a cleanup that cannot throw. *)
Definition finally {A} (body : M A) (cleanup : list Action) : M A :=
  (fst body ++ cleanup, snd body).

(** How the process ends. *)
Inductive ExitStatus :=
| Exit (code : Z)             (* [process.exit(code)] *)
| Drained                     (* no [process.exit]: the event loop empties *)
| Uncaught (e : Thrown).      (* an exception outside every handler *)

(** The status the operating system sees: Node reports 0 when the
    event loop empties and 1 for an uncaught exception. *)
Definition statusCode (x : ExitStatus) : Z :=
  match x with
  | Exit code => code
  | Drained => 0
  | Uncaught _ => 1
  end.

Record Run := mkRun {
  trace : list Action;
  exit : ExitStatus
}.

(** The calls by which a script commits funds: an approval, an order
    submission, or a signed transaction sent to the network. *)
Definition movesFunds (a : Action) : bool :=
  match a with
  | Rpc (WriteContract _ _ _ _ _) => true
  | SendTransaction _ _ _ => true
  | Fusion (SubmitOrder _ _) => true
  | Fusion (SubmitNativeOrder _ _ _) => true
  | Solana (SendRawTransaction _ _) => true
  | _ => false
  end.

(** ** Entry points *)

(** [main().then(() => process.exit(0)).catch(e => { console.error(...);
    if (... "response" in e && e.response?.data) console.error(...);
    process.exit(1) })] *)
Definition entry (main : M unit) : Run :=
  match main with
  | (t, Ok _) => mkRun t (Exit 0)
  | (t, Throw e) =>
      mkRun (t ++ [ConsoleError "Error:" (message e)]
               ++ match payload e with
                  | Data json => [ConsoleError "API Response:" json]
                  | _ => []
                  end)
            (Exit 1)
  end.

(** The handler of the EVM WebSocket script, which prints the message
    only. *)
Definition entryMessageOnly (main : M unit) : Run :=
  match main with
  | (t, Ok _) => mkRun t (Exit 0)
  | (t, Throw e) => mkRun (t ++ [ConsoleError "Error:" (message e)]) (Exit 1)
  end.

(** [main().catch(console.error)] *)
Definition entryCatchLog (main : M unit) : Run :=
  match main with
  | (t, Ok _) => mkRun t Drained
  | (t, Throw e) => mkRun (t ++ [ConsoleError "" (message e)]) Drained
  end.

End Script.

Declare Scope script_scope.
Delimit Scope script_scope with script.
Notation "x <- m ;; k" := (Script.bind m (fun x => k))
  (at level 61, m at next level, right associativity) : script_scope.
Notation "m ;;; k" := (Script.bind m (fun _ => k))
  (at level 61, right associativity) : script_scope.

(* ===================================================================== *)
(** * WebSocket order trackers (evm/websocket script, solana/websocket script) *)
(* ===================================================================== *)

Module Tracker.
Import Js.

Inductive Promise :=
| Pending
| Resolved
| Rejected (e : Thrown).

(** The variables the callbacks close over: [orderHash],
    [orderCompleted], the timer of [setTimeout] and the promise. *)
Record State := mkState {
  orderHash : option string;
  orderCompleted : bool;
  timerArmed : bool;
  promise : Promise
}.

(** [new Promise(...)] has run: the timer is armed, no hash is known. *)
Definition init : State := mkState None false true Pending.

(** [orderHash = ...] in [main]. *)
Definition assign (h : string) (s : State) : State :=
  mkState (Some h) (orderCompleted s) (timerArmed s) (promise s).

(** [resolve()] and [reject(e)] settle a pending promise and do
    nothing to a settled one. *)
Definition resolve (s : State) : State :=
  match promise s with
  | Pending => mkState (orderHash s) (orderCompleted s) (timerArmed s) Resolved
  | _ => s
  end.

Definition reject (e : Thrown) (s : State) : State :=
  match promise s with
  | Pending => mkState (orderHash s) (orderCompleted s) (timerArmed s) (Rejected e)
  | _ => s
  end.

Definition clearTimeout (s : State) : State :=
  mkState (orderHash s) (orderCompleted s) false (promise s).

Definition complete (s : State) : State :=
  mkState (orderHash s) true (timerArmed s) (promise s).

(** [event.result.orderHash === orderHash] *)
Definition sameHash (h : string) (s : State) : bool :=
  match orderHash s with
  | Some h' => String.eqb h h'
  | None => false
  end.

Definition timeoutError : Thrown := Error "Order timeout after 300s".

(** The [setTimeout] callback; a cleared timer never fires. *)
Definition onTimeout (s : State) : State :=
  if timerArmed s then reject timeoutError (clearTimeout s) else s.

(** ** EVM: [ws.order.on...] callbacks *)
Module Evm.

Inductive Event :=
| OrderCreated (orderHash : string)
| OrderFilled (orderHash : string)
| OrderFilledPartially (orderHash : string)
| OrderInvalid (orderHash : string)
| OrderBalanceOrAllowanceChange (orderHash : string).

Definition onEvent (s : State) (ev : Event) : State :=
  match ev with
  | OrderCreated h => s
  | OrderFilled h =>
      if sameHash h s then resolve (complete (clearTimeout s)) else s
  | OrderFilledPartially h => s
  | OrderInvalid h =>
      if sameHash h s
      then reject (Error "Order was invalidated or cancelled") (complete (clearTimeout s))
      else s
  | OrderBalanceOrAllowanceChange h => s
  end.

End Evm.

(** ** Solana: [ws.order.on...] callbacks *)
Module Sol.

Inductive Event :=
| OrderCreated (orderHash : string)
| OrderFilled (orderHash : string)
| OrderCancelled (orderHash : string).

Definition onEvent (s : State) (ev : Event) : State :=
  match ev with
  | OrderCreated h => s
  | OrderFilled h =>
      if sameHash h s then resolve (complete (clearTimeout s)) else s
  | OrderCancelled h =>
      if sameHash h s
      then reject (Error "Order was cancelled") (complete (clearTimeout s))
      else s
  end.

End Sol.

(** What the event loop delivers to a tracker: an order event, or the
    expiry of the timer. *)
Inductive Tick (Event : Type) :=
| Message (ev : Event)
| TimerFired.
Arguments Message {Event} ev.
Arguments TimerFired {Event}.

Definition step {Event} (onEvent : State -> Event -> State)
           (s : State) (x : Tick Event) : State :=
  match x with
  | Message ev => onEvent s ev
  | TimerFired => onTimeout s
  end.

Definition run {Event} (onEvent : State -> Event -> State)
           (s : State) (xs : list (Tick Event)) : State :=
  fold_left (step onEvent) xs s.

(** [await orderCompletionPromise]: the messages that arrive while
    [main] waits, and then, if nothing has settled the promise, the
    timer. *)
Definition await {Event} (onEvent : State -> Event -> State)
           (s : State) (evs : list Event) : State :=
  run onEvent s (map Message evs ++ [TimerFired]).

End Tracker.

(* ===================================================================== *)
(** * The EVM scripts *)
(* ===================================================================== *)

Module Evm.
Import Js Types Interface Script.
Local Open Scope script_scope.
Local Open Scope Z_scope.

(** [OrderStatus] of [@1inch/fusion-sdk]. *)
Inductive OrderStatus :=
| Pending | Filled | FalsePredicate | NotEnoughBalanceOrAllowance | Expired
| PartiallyFilled | WrongPermit | Cancelled | InvalidSignature.

Record Preset := mkPreset {
  auctionStartAmount : Z;
  auctionEndAmount : Z
}.

Record Quote := mkQuote {
  recommendedPreset : string;
  presets : list (string * Preset)
}.

Record PreparedOrder := mkPrepared {
  order : string;
  quoteId : string
}.

Record OrderInfo := mkInfo {
  orderHash : string;
  submittedOrder : string
}.

Record EscrowCall := mkEscrow {
  escrowTo : string;
  escrowData : string;
  escrowValue : Z
}.

(** The environment of one run: the process environment, and what
    each external call of the script replies.  [statusAt k] is the
    reply to the [k]-th status query and [latency k] the milliseconds
    that query takes. *)
Record World := mkWorld {
  env : ProcessEnv;
  derive : string -> Result string;
  tokenBalance : Result Z;
  nativeBalance : Result Z;
  tokenAllowance : Result Z;
  approval : Result string;
  approvalReceipt : Result unit;
  quote : Result Quote;
  preparedOrder : Result PreparedOrder;
  orderInfo : Result OrderInfo;
  escrowCall : Result EscrowCall;
  escrowTx : Result string;
  escrowReceipt : Result unit;
  statusAt : nat -> Result OrderStatus;
  latency : nat -> N;
  wsBeforeSubmit : list Tracker.Evm.Event;
  wsAfterSubmit : list Tracker.Evm.Event
}.

Definition dquote : string := String (ascii_of_nat 34) EmptyString.

(** ** Step 6 of the three polling scripts

    [SWAP_CONFIG.orderTimeout] and [SWAP_CONFIG.pollInterval] have the
    same values in the three scripts, and the loop is the same text. *)

Definition orderTimeout : N := 300000.
Definition pollInterval : N := 3000.

Inductive LoopStep := Return | Continue.

Definition catch {A} (body : M A) (handler : Thrown -> M A) : M A :=
  match body with
  | (t, Throw e) => after t (handler e)
  | done => done
  end.

(** One pass through the body of the [while] loop. *)
Definition iteration (w : World) (hash : string) (k : nat) : M LoopStep :=
  catch
    (status <- call (Fusion (GetOrderStatus hash)) (statusAt w k) ;;
     match status with
     | Filled => ret Return
     | Expired => throw (Error "Order expired without being filled")
     | Cancelled => throw (Error "Order was cancelled")
     | _ => call (Sleep pollInterval) (Ok tt) ;;; ret Continue
     end)
    (fun error =>
       if isError error && includes "Order" (message error) then throw error
       else call (Sleep pollInterval) (Ok tt) ;;; ret Continue).

Definition timeoutError : Thrown :=
  Error ("Order timeout after " ++ toString (Z.of_N orderTimeout / 1000) ++ "s").

(** Milliseconds left before [Date.now() - startTime] reaches the
    timeout; every pass that continues sleeps a full interval. *)
Definition remaining (elapsed : N) : nat := N.to_nat (orderTimeout - elapsed).

Lemma remaining_decreases (elapsed spent : N) :
  (elapsed <? orderTimeout)%N = true ->
  (remaining (elapsed + spent + pollInterval) < remaining elapsed)%nat.
Proof.
  intros H. apply N.ltb_lt in H.
  unfold remaining, orderTimeout, pollInterval in *. lia.
Qed.

(** The loop, entered for the [k]-th query [elapsed] milliseconds
    after [startTime]. *)
Equations pollLoop (w : World) (hash : string) (k : nat) (elapsed : N) : M unit
  by wf (remaining elapsed) lt :=
  pollLoop w hash k elapsed with inspect (elapsed <? orderTimeout)%N := {
    | exist _ false _ => throw timeoutError
    | exist _ true H =>
        match iteration w hash k with
        | (t, Ok Return) => (t, Ok tt)
        | (t, Ok Continue) =>
            after t (pollLoop w hash (S k) (elapsed + latency w k + pollInterval))
        | (t, Throw e) => (t, Throw e)
        end }.
Next Obligation.
  exact (remaining_decreases elapsed (latency w k) H).
Qed.

(** ** swap-erc20.ts *)
Module SwapErc20.

Definition fromTokenAddress := TOKENS.USDC.
Definition fromTokenDecimals : N := 6.
Definition toTokenAddress := TOKENS._1INCH.
Definition amount := "1000000".
Definition amountBigInt : Z := 1000000.

Definition quoteParams (walletAddress : string) : QuoteParams :=
  mkParams fromTokenAddress toTokenAddress amount walletAddress (Some "sdk-tutorial") false.

(** Steps 1 to 5: everything up to the submitted order. *)
Definition submit (w : World) : M OrderInfo :=
  config <- lift (loadConfig (env w)) ;;
  provider <- lift (EthersProvider.createProvider (derive w) config) ;;
  sdk <- lift (createFusionSDK config) ;;
  balance <- call (Rpc (getTokenBalance provider fromTokenAddress (address provider)))
                  (tokenBalance w) ;;
  if balance <? amountBigInt then
    throw (Error ("Insufficient USDC balance. "
                  ++ "Have: " ++ formatAmount balance fromTokenDecimals ++ ", "
                  ++ "Need: " ++ formatAmount amountBigInt fromTokenDecimals))
  else
    allowance <- call (Rpc (getTokenAllowance provider fromTokenAddress (address provider)
                                              CONTRACTS.AGGREGATION_ROUTER_V6))
                      (tokenAllowance w) ;;
    (if allowance <? amountBigInt then
       txHash <- call (Rpc (approveToken provider fromTokenAddress
                                         CONTRACTS.AGGREGATION_ROUTER_V6 amountBigInt))
                      (approval w) ;;
       call (Rpc (waitForTransaction provider txHash)) (approvalReceipt w)
     else ret tt) ;;;
    quote <- call (Fusion (GetQuote (quoteParams (address provider)))) (quote w) ;;
    match lookup (recommendedPreset quote) (presets quote) with
    | None =>
        throw (Error ("Preset " ++ dquote ++ recommendedPreset quote ++ dquote
                      ++ " not found in quote response"))
    | Some _ =>
        preparedOrder <- call (Fusion (CreateOrder (quoteParams (address provider))))
                              (preparedOrder w) ;;
        call (Fusion (SubmitOrder (order preparedOrder) (quoteId preparedOrder)))
             (orderInfo w)
    end.

Definition main (w : World) : M unit :=
  orderInfo <- submit w ;;
  pollLoop w (orderHash orderInfo) 0 0.

Definition script (w : World) : Run := entry (main w).

End SwapErc20.

(** ** swap-with-permit2.ts *)
Module SwapPermit2.

Definition MAX_UINT256 : Z := 2 ^ 256 - 1.

Definition fromTokenAddress := TOKENS.USDC.
Definition fromTokenDecimals : N := 6.
Definition toTokenAddress := TOKENS.WETH.
Definition amount := "10000000".
Definition amountBigInt : Z := 10000000.

Definition quoteParams (walletAddress : string) : QuoteParams :=
  mkParams fromTokenAddress toTokenAddress amount walletAddress (Some "sdk-tutorial") true.

Definition submit (w : World) : M OrderInfo :=
  config <- lift (loadConfig (env w)) ;;
  provider <- lift (EthersProvider.createProvider (derive w) config) ;;
  sdk <- lift (createFusionSDK config) ;;
  balance <- call (Rpc (getTokenBalance provider fromTokenAddress (address provider)))
                  (tokenBalance w) ;;
  if balance <? amountBigInt then
    throw (Error ("Insufficient USDC balance. "
                  ++ "Have: " ++ formatAmount balance fromTokenDecimals ++ ", "
                  ++ "Need: " ++ formatAmount amountBigInt fromTokenDecimals))
  else
    permit2Allowance <- call (Rpc (getTokenAllowance provider fromTokenAddress
                                                     (address provider) CONTRACTS.PERMIT2))
                             (tokenAllowance w) ;;
    (if permit2Allowance <? amountBigInt then
       txHash <- call (Rpc (approveToken provider fromTokenAddress
                                         CONTRACTS.PERMIT2 MAX_UINT256))
                      (approval w) ;;
       call (Rpc (waitForTransaction provider txHash)) (approvalReceipt w)
     else ret tt) ;;;
    quote <- call (Fusion (GetQuote (quoteParams (address provider)))) (quote w) ;;
    match lookup (recommendedPreset quote) (presets quote) with
    | None =>
        throw (Error ("Preset " ++ dquote ++ recommendedPreset quote ++ dquote
                      ++ " not found in quote response"))
    | Some _ =>
        preparedOrder <- call (Fusion (CreateOrder (quoteParams (address provider))))
                              (preparedOrder w) ;;
        call (Fusion (SubmitOrder (order preparedOrder) (quoteId preparedOrder)))
             (orderInfo w)
    end.

Definition main (w : World) : M unit :=
  orderInfo <- submit w ;;
  pollLoop w (orderHash orderInfo) 0 0.

Definition script (w : World) : Run := entry (main w).

End SwapPermit2.

(** ** The native-token script (ETH to USDC) *)
Module SwapNative.

Definition fromTokenAddress := TOKENS.NATIVE.
Definition toTokenAddress := TOKENS.USDC.
Definition amount := "1000000000000000".
Definition amountBigInt : Z := 1000000000000000.
Definition gasBuffer : Z := 5000000000000000.

Definition quoteParams (walletAddress : string) : QuoteParams :=
  mkParams fromTokenAddress toTokenAddress amount walletAddress (Some "sdk-tutorial") false.

Definition submit (w : World) : M OrderInfo :=
  config <- lift (loadConfig (env w)) ;;
  provider <- lift (EthersProvider.createProvider (derive w) config) ;;
  sdk <- lift (createFusionSDK config) ;;
  balance <- call (Rpc (getNativeBalance provider (address provider))) (nativeBalance w) ;;
  let totalNeeded := amountBigInt + gasBuffer in
  if balance <? totalNeeded then
    throw (Error ("Insufficient ETH balance. Have: " ++ formatAmount balance 18 ++ " ETH, "
                  ++ "Need: " ++ formatAmount totalNeeded 18 ++ " ETH (including gas buffer)"))
  else
    quote <- call (Fusion (GetQuote (quoteParams (address provider)))) (quote w) ;;
    match lookup (recommendedPreset quote) (presets quote) with
    | None =>
        throw (Error ("Preset " ++ dquote ++ recommendedPreset quote ++ dquote
                      ++ " not found in quote response"))
    | Some _ =>
        preparedOrder <- call (Fusion (CreateOrder (quoteParams (address provider))))
                              (preparedOrder w) ;;
        orderInfo <- call (Fusion (SubmitNativeOrder (order preparedOrder) (address provider)
                                                     (quoteId preparedOrder)))
                          (orderInfo w) ;;
        wallet <- lift (derive w (privateKey config)) ;;
        escrow <- lift (escrowCall w) ;;
        txRes <- call (SendTransaction (escrowTo escrow) (escrowData escrow)
                                       (escrowValue escrow))
                      (escrowTx w) ;;
        call (Rpc (WaitForReceipt txRes)) (escrowReceipt w) ;;;
        ret orderInfo
    end.

Definition main (w : World) : M unit :=
  orderInfo <- submit w ;;
  pollLoop w (orderHash orderInfo) 0 0.

Definition script (w : World) : Run := entry (main w).

End SwapNative.

End Evm.

(* ===================================================================== *)
(** * The EVM WebSocket and quick-start scripts *)
(* ===================================================================== *)

Module EvmWebSocket.
Import Js Types Interface Script Evm.
Local Open Scope script_scope.
Local Open Scope Z_scope.

Definition fromTokenAddress := TOKENS.USDC.
Definition fromTokenDecimals : N := 6.
Definition toTokenAddress := TOKENS._1INCH.
Definition amount := "1000000".
Definition amountBigInt : Z := 1000000.

Definition quoteParams (walletAddress : string) : QuoteParams :=
  mkParams fromTokenAddress toTokenAddress amount walletAddress (Some "sdk-tutorial") false.

(** What [await orderCompletionPromise] yields.  A promise that has
    seen the timer is settled (lemma [await_settled] below), so the
    last case is never taken. *)
Definition awaited (s : Tracker.State) : Result unit :=
  match Tracker.promise s with
  | Tracker.Resolved => Ok tt
  | Tracker.Rejected e => Throw e
  | Tracker.Pending => Throw Tracker.timeoutError
  end.

(** Steps 1 to 4; the callbacks are registered and the timer is armed
    before the balance is read.  The 300 s timer is taken not to
    expire before the order is submitted. *)
Definition submit (w : World) : M (Tracker.State * OrderInfo) :=
  config <- lift (loadConfig (env w)) ;;
  provider <- lift (EthersProvider.createProvider (derive w) config) ;;
  sdk <- lift (createFusionSDK config) ;;
  let tracker :=
    Tracker.run Tracker.Evm.onEvent Tracker.init
                (map Tracker.Message (wsBeforeSubmit w)) in
  balance <- call (Rpc (getTokenBalance provider fromTokenAddress (address provider)))
                  (tokenBalance w) ;;
  if balance <? amountBigInt then
    call WsClose (Ok tt) ;;;
    throw (Error ("Insufficient USDC balance. "
                  ++ "Have: " ++ formatAmount balance fromTokenDecimals ++ ", "
                  ++ "Need: " ++ formatAmount amountBigInt fromTokenDecimals))
  else
    allowance <- call (Rpc (getTokenAllowance provider fromTokenAddress (address provider)
                                              CONTRACTS.AGGREGATION_ROUTER_V6))
                      (tokenAllowance w) ;;
    (if allowance <? amountBigInt then
       txHash <- call (Rpc (approveToken provider fromTokenAddress
                                         CONTRACTS.AGGREGATION_ROUTER_V6 amountBigInt))
                      (approval w) ;;
       call (Rpc (waitForTransaction provider txHash)) (approvalReceipt w)
     else ret tt) ;;;
    quote <- call (Fusion (GetQuote (quoteParams (address provider)))) (quote w) ;;
    match lookup (recommendedPreset quote) (presets quote) with
    | None =>
        call WsClose (Ok tt) ;;;
        throw (Error ("Preset " ++ dquote ++ recommendedPreset quote ++ dquote
                      ++ " not found"))
    | Some _ =>
        preparedOrder <- call (Fusion (CreateOrder (quoteParams (address provider))))
                              (preparedOrder w) ;;
        orderInfo <- call (Fusion (SubmitOrder (order preparedOrder) (quoteId preparedOrder)))
                          (orderInfo w) ;;
        ret (Tracker.assign (orderHash orderInfo) tracker, orderInfo)
    end.

(** Step 5: [try { await orderCompletionPromise } finally { ws.close() }] *)
Definition main (w : World) : M unit :=
  submitted <- submit w ;;
  finally
    (lift (awaited (Tracker.await Tracker.Evm.onEvent (fst submitted) (wsAfterSubmit w))))
    [WsClose].

Definition script (w : World) : Run := entryMessageOnly (main w).

End EvmWebSocket.

Module EvmQuickStart.
Import Js Types Interface Script Evm.
Local Open Scope script_scope.
Local Open Scope Z_scope.

Definition AGGREGATION_ROUTER_V6 := "0x111111125421ca6dc452d289314280a0f8842a65".

Definition ERC20_ABI : list AbiFunction :=
  [ mkAbi "allowance" ["address"; "address"] ["uint256"] true;
    mkAbi "approve" ["address"; "uint256"] ["bool"] false ].

Definition rpcUrl := "https://api.1inch.com/web3/1".

(** The provider of the script: the header is set unconditionally. *)
Definition provider (API_KEY : string) : Transport :=
  mkTransport rpcUrl [("Authorization", "Bearer " ++ API_KEY)].

Definition params (walletAddress : string) : QuoteParams :=
  mkParams "0xA0b86991c6218b36c1d19D4a2e9Eb0cE3606eB48"
           "0x111111111117dC0aa78b770fA6A738034120C302"
           "1000000" walletAddress None false.

Definition main (w : World) (wallet : string) : M unit :=
  let params := params wallet in
  allowance <- call (Rpc (ReadContract (fromTokenAddress params)
                                       (findFunction "allowance" ERC20_ABI)
                                       [wallet; AGGREGATION_ROUTER_V6]))
                    (tokenAllowance w) ;;
  (if allowance <? 1000000 then
     tx <- call (Rpc (WriteContract wallet (fromTokenAddress params)
                                    (findFunction "approve" ERC20_ABI)
                                    [AGGREGATION_ROUTER_V6] 1000000))
                (approval w) ;;
     call (Rpc (WaitForReceipt tx)) (approvalReceipt w)
   else ret tt) ;;;
  quote <- call (Fusion (GetQuote params)) (quote w) ;;
  prepared <- call (Fusion (CreateOrder params)) (preparedOrder w) ;;
  result <- call (Fusion (SubmitOrder (order prepared) (quoteId prepared))) (orderInfo w) ;;
  ret tt.

(** The module body runs first: a missing variable or a malformed key
    throws outside [main], where nothing catches it. *)
Definition script (w : World) : Run :=
  if missing (API_KEY (env w)) || missing (EVM_PRIVATE_KEY (env w)) then
    mkRun [] (Uncaught (Error "Missing API_KEY or EVM_PRIVATE_KEY in environment"))
  else
    match derive w (orDefault (EVM_PRIVATE_KEY (env w)) "") with
    | Throw e => mkRun [] (Uncaught e)
    | Ok wallet => entryCatchLog (main w wallet)
    end.

End EvmQuickStart.

(* ===================================================================== *)
(** * solana/utils/connection.ts *)
(* ===================================================================== *)

Module SolConnection.
Import Js.

Module TOKENS.
Definition USDC := "EPjFWdd5AufqSSqeM2qN1xzybapC8G4wEGGkZwyTDt1v".
Definition JUP := "JUPyiwrYJFskUPiHa7hkeR8VUtAeFoSYbKedZNsDvCN".
Definition BONK := "DezXAZ8z7PnrnRJjz3wXBoRgixCa6xjnB7YaB1pPB263".
Definition RAY := "4k3Dyjzvzp8eMZWUXbBCjEvwSkkk59S5iCNLY3QrkX6R".
End TOKENS.

Record Config := mkConfig {
  apiKey : string;
  privateKey : string;
  rpcUrl : string
}.

Record ProcessEnv := mkEnv {
  API_KEY : option string;
  SOLANA_PRIVATE_KEY : option string;
  SOLANA_RPC_URL : option string
}.

Definition loadConfig (env : ProcessEnv) : Result Config :=
  let rpcUrl := Types.orDefault (SOLANA_RPC_URL env) "https://api.1inch.com/web3/501" in
  if Types.missing (API_KEY env) then
    Throw (Error "Missing required environment variable: API_KEY")
  else if Types.missing (SOLANA_PRIVATE_KEY env) then
    Throw (Error "Missing required environment variable: SOLANA_PRIVATE_KEY")
  else
    Ok (mkConfig (Types.orDefault (API_KEY env) "")
                 (Types.orDefault (SOLANA_PRIVATE_KEY env) "") rpcUrl).

(** The codec and key libraries the module calls: [bs58.decode]
    (throws on a character outside the alphabet),
    [Buffer.from(s, "base64")] (never throws), [Keypair.fromSecretKey]
    and [Keypair.fromSeed] (a keypair is identified by its public key). *)
Record Codecs := mkCodecs {
  bs58_decode : string -> Result (list Byte.byte);
  base64_decode : string -> list Byte.byte;
  fromSecretKey : list Byte.byte -> Result string;
  fromSeed : list Byte.byte -> Result string
}.

Record Connection := mkConnection {
  endpoint : string;
  commitment : string;
  httpHeaders : list (string * string);
  wsEndpoint : option string
}.

(** [try { body } catch { handler }] on a synchronous computation. *)
Definition tryCatch {A} (body : Result A) (handler : Thrown -> Result A) : Result A :=
  match body with
  | Throw e => handler e
  | done => done
  end.

Definition invalidKeyFormat : Thrown :=
  Error ("Invalid SOLANA_PRIVATE_KEY format. Expected base58 or base64-encoded 64-byte secret key. "
         ++ "You can export this from your Solana wallet or generate with solana-keygen.").

(** The nested [try] blocks of [createWallet] that compute [secretKey]. *)
Definition decodeSecretKey (c : Codecs) (privateKey : string) : Result (list Byte.byte) :=
  tryCatch
    (match bs58_decode c privateKey with
     | Throw e => Throw e
     | Ok secretKey =>
         if negb (List.length secretKey =? 64)%nat
         then Throw (Error "Invalid key length from base58")
         else Ok secretKey
     end)
    (fun _ =>
       tryCatch
         (let secretKey := base64_decode c privateKey in
          if negb (List.length secretKey =? 64)%nat
          then Throw (Error "Invalid key length from base64")
          else Ok secretKey)
         (fun _ => Throw invalidKeyFormat)).

Definition createWallet (c : Codecs) (config : Config) : Result (Connection * string) :=
  let is1inchGateway := includes "api.1inch.com/web3" (rpcUrl config) in
  let wsEndpoint :=
    if is1inchGateway
    then Some ("wss://api.1inch.com/web3/501?apiKey=" ++ apiKey config)
    else None in
  let connection :=
    mkConnection (rpcUrl config) "confirmed"
                 (if is1inchGateway
                  then [("Authorization", "Bearer " ++ apiKey config)]
                  else [])
                 wsEndpoint in
  match decodeSecretKey c (privateKey config) with
  | Throw e => Throw e
  | Ok secretKey =>
      match fromSecretKey c secretKey with
      | Throw e => Throw e
      | Ok wallet => Ok (connection, wallet)
      end
  end.

Record Sdk := mkSdk {
  baseUrl : string;
  authKey : string;
  version : string
}.

Definition createSolanaSDK (c : Codecs) (config : Config)
  : Result (Sdk * Connection * string) :=
  match createWallet c config with
  | Throw e => Throw e
  | Ok (connection, wallet) =>
      Ok (mkSdk "https://api.1inch.com/fusion" (apiKey config) "v1.0", connection, wallet)
  end.

Definition formatTokenAmount (amount : Z) (decimals : N) : string :=
  let divisor := (10 ^ Z.of_N decimals)%Z in
  let integerPart := Z.quot amount divisor in
  let fractionalPart := Z.rem amount divisor in
  let fractionalStr := padStart (N.to_nat decimals) "0"%char (toString fractionalPart) in
  toString integerPart ++ "." ++ take 6 fractionalStr.

End SolConnection.

(* ===================================================================== *)
(** * The Solana scripts *)
(* ===================================================================== *)

Module Sol.
Import Js Script SolConnection.
Local Open Scope script_scope.
Local Open Scope Z_scope.

(** Environment of one run.  [formatSol] prints lamports through
    floating-point division and [toFixed(9)]; it only occurs inside
    messages.  [statusAt k] is what [isActive()] answers on the [k]-th
    status query, [confirmation] the [value.err] of the confirmation
    (printed as JSON) if there is one. *)
Record World := mkWorld {
  env : ProcessEnv;
  codecs : Codecs;
  formatSol : Z -> string;
  balance : Result Z;
  order : Result string;
  blockhash : Result string;
  signature : Result string;
  confirmation : Result (option string);
  statusAt : nat -> Result bool;
  latency : nat -> N;
  signatureStatusAt : nat -> Result (option string);
  wsBeforeSubmit : list Tracker.Sol.Event;
  wsAfterSubmit : list Tracker.Sol.Event
}.

(** [Address.NATIVE] and [new Address(TOKENS.JUP)] *)
Definition NATIVE := "NATIVE".

(** [BigInt(0.1 * LAMPORTS_PER_SOL)], [BigInt(0.01 * LAMPORTS_PER_SOL)]:
    both products are whole numbers. *)
Definition swapAmount : Z := 100000000.
Definition estimatedFees : Z := 10000000.

(** ** swap-sol-to-jup.ts *)
Module SwapSolToJup.

Definition orderTimeout : N := 300000.
Definition pollInterval : N := 2000.

Definition submit (w : World) : M string :=
  config <- lift (loadConfig (env w)) ;;
  created <- lift (createSolanaSDK (codecs w) config) ;;
  let wallet := snd created in
  balance <- call (Solana (GetBalanceOf wallet)) (balance w) ;;
  let totalNeeded := swapAmount + estimatedFees in
  if balance <? totalNeeded then
    throw (Error ("Insufficient SOL balance. Have: " ++ formatSol w balance ++ " SOL, "
                  ++ "Need: " ++ formatSol w totalNeeded ++ " SOL (including fees)"))
  else
    order <- call (Solana (SolCreateOrder NATIVE TOKENS.JUP swapAmount wallet)) (order w) ;;
    blockhash <- call (Solana GetLatestBlockhash) (blockhash w) ;;
    signature <- call (Solana (SendRawTransaction order wallet)) (signature w) ;;
    confirmation <- call (Solana (ConfirmTransaction signature)) (confirmation w) ;;
    match confirmation with
    | Some err => throw (Error ("Transaction failed: " ++ err))
    | None => ret order
    end.

Definition iteration (w : World) (hash : string) (k : nat) : M Evm.LoopStep :=
  Evm.catch
    (active <- call (Solana (SolGetOrderStatus hash)) (statusAt w k) ;;
     if negb active then ret Evm.Return
     else call (Sleep pollInterval) (Ok tt) ;;; ret Evm.Continue)
    (fun _ => call (Sleep pollInterval) (Ok tt) ;;; ret Evm.Continue).

Definition remaining (elapsed : N) : nat := N.to_nat (orderTimeout - elapsed).

Lemma remaining_decreases_sol (elapsed spent : N) :
  (elapsed <? orderTimeout)%N = true ->
  (remaining (elapsed + spent + pollInterval) < remaining elapsed)%nat.
Proof.
  intros H. apply N.ltb_lt in H.
  unfold remaining, orderTimeout, pollInterval in *. lia.
Qed.

(** Step 6.  When the time is up the script prints a warning and
    returns. *)
Equations pollLoop (w : World) (hash : string) (k : nat) (elapsed : N) : M unit
  by wf (remaining elapsed) lt :=
  pollLoop w hash k elapsed with inspect (elapsed <? orderTimeout)%N := {
    | exist _ false _ => ret tt
    | exist _ true H =>
        match iteration w hash k with
        | (t, Ok Evm.Return) => (t, Ok tt)
        | (t, Ok Evm.Continue) =>
            after t (pollLoop w hash (S k) (elapsed + latency w k + pollInterval))
        | (t, Throw e) => (t, Throw e)
        end }.
Next Obligation.
  exact (remaining_decreases_sol elapsed (latency w k) H).
Qed.

Definition main (w : World) : M unit :=
  orderHash <- submit w ;;
  pollLoop w orderHash 0 0.

Definition script (w : World) : Run := entry (main w).

End SwapSolToJup.

(** ** The Solana WebSocket script *)
Module WebSocket.

Definition awaited (s : Tracker.State) : Result unit :=
  match Tracker.promise s with
  | Tracker.Resolved => Ok tt
  | Tracker.Rejected e => Throw e
  | Tracker.Pending => Throw Tracker.timeoutError
  end.

Definition submit (w : World) : M Tracker.State :=
  config <- lift (loadConfig (env w)) ;;
  created <- lift (createSolanaSDK (codecs w) config) ;;
  let wallet := snd created in
  let tracker :=
    Tracker.run Tracker.Sol.onEvent Tracker.init
                (map Tracker.Message (wsBeforeSubmit w)) in
  balance <- call (Solana (GetBalanceOf wallet)) (balance w) ;;
  let totalNeeded := swapAmount + estimatedFees in
  if balance <? totalNeeded then
    call WsClose (Ok tt) ;;;
    throw (Error ("Insufficient SOL balance. Have: " ++ formatSol w balance ++ " SOL, "
                  ++ "Need: " ++ formatSol w totalNeeded ++ " SOL (including fees)"))
  else
    order <- call (Solana (SolCreateOrder NATIVE TOKENS.JUP swapAmount wallet)) (order w) ;;
    let tracker := Tracker.assign order tracker in
    blockhash <- call (Solana GetLatestBlockhash) (blockhash w) ;;
    signature <- call (Solana (SendRawTransaction order wallet)) (signature w) ;;
    confirmation <- call (Solana (ConfirmTransaction signature)) (confirmation w) ;;
    match confirmation with
    | Some err =>
        call WsClose (Ok tt) ;;;
        throw (Error ("Transaction failed: " ++ err))
    | None => ret tracker
    end.

Definition main (w : World) : M unit :=
  tracker <- submit w ;;
  finally
    (lift (awaited (Tracker.await Tracker.Sol.onEvent tracker (wsAfterSubmit w))))
    [WsClose].

Definition script (w : World) : Run := entry (main w).

End WebSocket.

(** ** quick-start.ts *)
Module QuickStart.

Definition rpcUrl := "https://api.1inch.com/web3/501".

Definition connection (API_KEY : string) : Connection :=
  mkConnection rpcUrl "confirmed" [("Authorization", "Bearer " ++ API_KEY)] None.

(** The key decoding of the script: base58, else base64; no length
    check at this point. *)
Definition secretKey (c : Codecs) (PRIVATE_KEY : string) : list Byte.byte :=
  match bs58_decode c PRIVATE_KEY with
  | Ok bytes => bytes
  | Throw _ => base64_decode c PRIVATE_KEY
  end.

Definition wallet (c : Codecs) (PRIVATE_KEY : string) : Result string :=
  let secretKey := secretKey c PRIVATE_KEY in
  if (List.length secretKey =? 32)%nat then fromSeed c secretKey
  else if (List.length secretKey =? 64)%nat then fromSecretKey c secretKey
  else Throw (Error ("Invalid private key length: "
                     ++ toString (Z.of_nat (List.length secretKey))
                     ++ " bytes (expected 32 or 64)")).

(** [for (let i = 0; i < 30; i++)]: [left] passes remain, the next
    one is pass [i]. *)
Fixpoint waitConfirmed (w : World) (signature : string) (left i : nat) : M unit :=
  match left with
  | O => ret tt
  | S left' =>
      status <- call (Solana (GetSignatureStatuses signature)) (signatureStatusAt w i) ;;
      match status with
      | Some "confirmed" => ret tt
      | _ => call (Sleep 2000) (Ok tt) ;;; waitConfirmed w signature left' (S i)
      end
  end.

Definition main (w : World) (wallet : string) : M unit :=
  order <- call (Solana (SolCreateOrder NATIVE "JUPyiwrYJFskUPiHa7hkeR8VUtAeFoSYbKedZNsDvCN"
                                        swapAmount wallet))
                (order w) ;;
  blockhash <- call (Solana GetLatestBlockhash) (blockhash w) ;;
  signature <- call (Solana (SendRawTransaction order wallet)) (signature w) ;;
  waitConfirmed w signature 30 0.

Definition script (w : World) : Run :=
  if Types.missing (API_KEY (env w)) || Types.missing (SOLANA_PRIVATE_KEY (env w)) then
    mkRun [] (Uncaught (Error "Missing API_KEY or SOLANA_PRIVATE_KEY in environment"))
  else
    match wallet (codecs w) (Types.orDefault (SOLANA_PRIVATE_KEY (env w)) "") with
    | Throw e => mkRun [] (Uncaught e)
    | Ok wallet => entryCatchLog (main w wallet)
    end.

End QuickStart.

End Sol.

(* ===================================================================== *)
(** * solana/utils/connection.ts: confirmTransactionPolling *)
(* ===================================================================== *)

Module SolConfirm.
Import Js Script.
Local Open Scope list_scope.

(** One entry of [getSignatureStatuses]: [err] as JSON.stringify prints
    it (absent when null), the confirmation status, the slot. *)
Record SignatureStatus := mkStatus {
  err : option string;
  confirmationStatus : option string;
  slot : Z
}.

Record Confirmation := mkConfirmation {
  confirmed : bool;
  confirmedSlot : Z
}.

(** The RPC node: the reply to the [k]-th status query ([None] for a
    null entry) and the milliseconds that query takes. *)
Record Node := mkNode {
  statusAt : nat -> Result (option SignatureStatus);
  latency : nat -> N
}.

Definition isConfirmed (s : option string) : bool :=
  match s with
  | Some "confirmed" => true
  | Some "finalized" => true
  | _ => false
  end.

(** The body of [if (status) { ... }]: how a status ends the loop, if
    it does. *)
Definition check (status : option SignatureStatus) : option (Result Confirmation) :=
  match status with
  | None => None
  | Some st =>
      match err st with
      | Some e => Some (Throw (Error ("Transaction failed: " ++ e)%string))
      | None =>
          if isConfirmed (confirmationStatus st)
          then Some (Ok (mkConfirmation true (slot st)))
          else None
      end
  end.

Definition timeoutError (timeoutMs : N) : Thrown :=
  Error ("Transaction confirmation timeout after " ++ toString (Z.of_N timeoutMs) ++ "ms")%string.

Definition remaining (timeoutMs elapsed : N) : nat := N.to_nat (timeoutMs - elapsed).

Lemma remaining_decreases_confirm (timeoutMs elapsed spent : N) (pollIntervalMs : positive) :
  (elapsed <? timeoutMs)%N = true ->
  (remaining timeoutMs (elapsed + spent + Npos pollIntervalMs) < remaining timeoutMs elapsed)%nat.
Proof. intros H. apply N.ltb_lt in H. unfold remaining. lia. Qed.

(** [confirmTransactionPolling(connection, signature, timeoutMs,
    pollIntervalMs)], entered for the [k]-th query [elapsed]
    milliseconds after [startTime].  The poll interval is a positive
    number of milliseconds. *)
Equations confirmLoop (node : Node) (signature : string) (timeoutMs : N)
          (pollIntervalMs : positive) (k : nat) (elapsed : N) : M Confirmation
  by wf (remaining timeoutMs elapsed) lt :=
  confirmLoop node signature timeoutMs pollIntervalMs k elapsed
    with inspect (elapsed <? timeoutMs)%N := {
    | exist _ false _ => throw (timeoutError timeoutMs)
    | exist _ true H =>
        match statusAt node k with
        | Throw e => ([Solana (GetSignatureStatuses signature)], Throw e)
        | Ok status =>
            match check status with
            | Some r => ([Solana (GetSignatureStatuses signature)], r)
            | None =>
                after [Solana (GetSignatureStatuses signature); Sleep (Npos pollIntervalMs)]
                      (confirmLoop node signature timeoutMs pollIntervalMs (S k)
                                   (elapsed + latency node k + Npos pollIntervalMs))
            end
        end }.
Next Obligation.
  exact (remaining_decreases_confirm timeoutMs elapsed (latency node k) pollIntervalMs H).
Qed.

Definition confirmTransactionPolling (node : Node) (signature : string)
           (timeoutMs : N) (pollIntervalMs : positive) : M Confirmation :=
  confirmLoop node signature timeoutMs pollIntervalMs 0 0.

(** The defaults of the two optional parameters. *)
Definition defaultTimeoutMs : N := 60000.
Definition defaultPollIntervalMs : positive := 2000.

End SolConfirm.

(* ===================================================================== *)
(** * solana/cancel-order/create-order-for-demo.ts *)
(* ===================================================================== *)

Module CreateOrderForDemo.
Import Js Script SolConnection.
Local Open Scope script_scope.
Local Open Scope Z_scope.

(** [ORDER_CONFIG.amount] and [BigInt(0.02 * LAMPORTS_PER_SOL)]. *)
Definition amount : Z := 100000000.
Definition estimatedFees : Z := 20000000.

Record OrderResult := mkResult {
  order : string;
  orderHash : string
}.

(** The order is identified with its hash, as in the swap scripts. *)
Definition createOrderForDemo (w : Sol.World) (wallet makerAddress : string) : M OrderResult :=
  balance <- call (Solana (GetBalanceOf wallet)) (Sol.balance w) ;;
  let totalNeeded := amount + estimatedFees in
  if balance <? totalNeeded then
    throw (Error ("Insufficient balance. Need at least " ++ Sol.formatSol w totalNeeded ++ " SOL"))
  else
    order <- call (Solana (SolCreateOrder Sol.NATIVE TOKENS.JUP amount makerAddress))
                  (Sol.order w) ;;
    let orderHash := order in
    blockhash <- call (Solana GetLatestBlockhash) (Sol.blockhash w) ;;
    createSig <- call (Solana (SendRawTransaction order wallet)) (Sol.signature w) ;;
    createConfirm <- call (Solana (ConfirmTransaction createSig)) (Sol.confirmation w) ;;
    match createConfirm with
    | Some err => throw (Error ("Create failed: " ++ err))
    | None => ret (mkResult order orderHash)
    end.

End CreateOrderForDemo.

(* ===================================================================== *)
(** * Reference codecs

    Plain base58 (Bitcoin alphabet) and base64 decoders and a stand-in
    key derivation, to run the Solana model on concrete keys. *)
(* ===================================================================== *)

Module RefCodec.
Import Js.

Definition alphabet58 := "123456789ABCDEFGHJKLMNPQRSTUVWXYZabcdefghijkmnopqrstuvwxyz".
Definition alphabet64 :=
  "ABCDEFGHIJKLMNOPQRSTUVWXYZabcdefghijklmnopqrstuvwxyz0123456789+/".

Fixpoint indexOf (c : ascii) (alphabet : string) : option N :=
  match alphabet with
  | EmptyString => None
  | String a rest =>
      if Ascii.eqb a c then Some 0%N
      else option_map N.succ (indexOf c rest)
  end.

Definition byteOf (n : N) : Byte.byte := byte_of_ascii (ascii_of_N n).

(** The [count] low-order bytes of [v], most significant first. *)
Fixpoint bytesOf (count : nat) (v : N) (acc : list Byte.byte) : list Byte.byte :=
  match count with
  | O => acc
  | S count' => bytesOf count' (v / 256) (byteOf (v mod 256) :: acc)
  end.

(** Number of bytes needed to write [v] (0 for 0). *)
Definition byteLength (v : N) : nat := N.to_nat ((N.size v + 7) / 8).

Fixpoint value58 (acc : N) (s : string) : option N :=
  match s with
  | EmptyString => Some acc
  | String c s' =>
      match indexOf c alphabet58 with
      | Some d => value58 (acc * 58 + d) s'
      | None => None
      end
  end.

Fixpoint leadingOnes (s : string) : nat :=
  match s with
  | String "1"%char s' => S (leadingOnes s')
  | _ => O
  end.

Definition bs58_decode (s : string) : Result (list Byte.byte) :=
  match value58 0 s with
  | None => Throw (Error "Non-base58 character")
  | Some v => Ok (List.repeat Byte.x00 (leadingOnes s) ++ bytesOf (byteLength v) v [])%list
  end.

(** Sextets up to the first padding character; characters outside the
    alphabet are skipped. *)
Fixpoint sextets (s : string) : list N :=
  match s with
  | EmptyString => []
  | String c s' =>
      if Ascii.eqb c "="%char then []
      else match indexOf c alphabet64 with
           | Some d => d :: sextets s'
           | None => sextets s'
           end
  end.

Definition base64_decode (s : string) : list Byte.byte :=
  let ds := sextets s in
  let bits := (6 * List.length ds)%nat in
  let count := (bits / 8)%nat in
  let v := fold_left (fun acc d => (acc * 64 + d)%N) ds 0%N in
  bytesOf count (N.shiftr v (N.of_nat (bits - 8 * count))) [].

(** Stand-in for the key library: the "public key" is the length of
    the secret, and only the right lengths are taken. *)
Definition fromSecretKey (sk : list Byte.byte) : Result string :=
  if (List.length sk =? 64)%nat then Ok "keypair(64)" else Throw (Error "bad secret key size").

Definition fromSeed (seed : list Byte.byte) : Result string :=
  if (List.length seed =? 32)%nat then Ok "keypair(32)" else Throw (Error "bad seed size").

Definition codecs : SolConnection.Codecs :=
  SolConnection.mkCodecs bs58_decode base64_decode fromSecretKey fromSeed.

End RefCodec.

(* ===================================================================== *)
(** * Properties *)
(* ===================================================================== *)

(** ** Strings *)

Section StringFacts.
Import Js.

Lemma startsWith_spec (p s : string) :
  startsWith p s = true <-> exists post, s = p ++ post.
Proof.
  revert s. induction p as [|a p IH]; intros s; simpl.
  - split; [intros _; exists s; reflexivity | reflexivity].
  - destruct s as [|b s].
    + split; [discriminate | intros [post H]; discriminate].
    + destruct (Ascii.eqb_spec a b) as [->|Hab].
      * rewrite IH. split; intros [post H]; exists post.
        -- now rewrite H.
        -- now injection H.
      * split; [discriminate|]. intros [post H]. injection H as H1 H2. congruence.
Qed.

Lemma includes_spec (sub s : string) :
  includes sub s = true <-> exists pre post, s = pre ++ sub ++ post.
Proof.
  induction s as [|c s IH]; simpl.
  - destruct (startsWith sub "") eqn:E.
    + split; [|reflexivity]. intros _. apply startsWith_spec in E as [post E].
      exists "", post. exact E.
    + split; [discriminate|]. intros (pre & post & H).
      destruct pre; simpl in H.
      * assert (startsWith sub "" = true) by (apply startsWith_spec; eauto). congruence.
      * discriminate.
  - destruct (startsWith sub (String c s)) eqn:E.
    + split; [|reflexivity]. intros _. apply startsWith_spec in E as [post E].
      exists "", post. exact E.
    + rewrite IH. split.
      * intros (pre & post & H). exists (String c pre), post. simpl. now rewrite H.
      * intros (pre & post & H). destruct pre as [|c' pre]; simpl in H.
        -- assert (startsWith sub (String c s) = true) by (apply startsWith_spec; eauto).
           congruence.
        -- injection H as _ H. eauto.
Qed.

Lemma includes_false (sub s : string) :
  includes sub s = false <-> ~ exists pre post, s = pre ++ sub ++ post.
Proof.
  rewrite <- includes_spec. destruct (includes sub s); split; intros; congruence.
Qed.

End StringFacts.

(** ** The two providers *)

Section Providers.
Import Js Types Interface.

(** A URL is a gateway URL when the text [api.1inch.com/web3] occurs
    somewhere in it. *)
Definition containsGateway (url : string) : Prop :=
  exists pre post, url = pre ++ "api.1inch.com/web3" ++ post.

Definition bearer (key : string) : string * string :=
  ("Authorization", "Bearer " ++ key).

Lemma is1inchGateway_spec (url : string) :
  is1inchGateway url = true <-> containsGateway url.
Proof. apply includes_spec. Qed.

Lemma ethers_headers derive config p :
  EthersProvider.createProvider derive config = Ok p ->
  headers (transport p) =
    if is1inchGateway (rpcUrl config) then [bearer (apiKey config)] else [].
Proof.
  unfold EthersProvider.createProvider. intros H.
  destruct (derive (privateKey config)); [|discriminate].
  injection H as <-. simpl. now destruct (is1inchGateway (rpcUrl config)).
Qed.

Lemma viem_headers derive config p :
  ViemProvider.createProvider derive config = Ok p ->
  headers (transport p) =
    if is1inchGateway (rpcUrl config) then [bearer (apiKey config)] else [].
Proof.
  unfold ViemProvider.createProvider. intros H.
  destruct (lookup (networkId config) ViemProvider.VIEM_CHAIN_MAP); [|discriminate].
  destruct (derive (privateKey config)); [|discriminate].
  injection H as <-. reflexivity.
Qed.

Lemma solana_headers codecs config conn wallet :
  SolConnection.createWallet codecs config = Ok (conn, wallet) ->
  SolConnection.httpHeaders conn =
    if is1inchGateway (SolConnection.rpcUrl config)
    then [bearer (SolConnection.apiKey config)] else [].
Proof.
  unfold SolConnection.createWallet. intros H.
  destruct (SolConnection.decodeSecretKey _ _); [|discriminate].
  destruct (SolConnection.fromSecretKey _ _); [|discriminate].
  injection H as <- _. reflexivity.
Qed.

Lemma gateway_cases (url : string) (A : Type) (x y hs : A) :
  hs = (if is1inchGateway url then x else y) ->
  (containsGateway url -> hs = x) /\ (~ containsGateway url -> hs = y).
Proof.
  intros ->. destruct (is1inchGateway url) eqn:E.
  - apply is1inchGateway_spec in E. split; [reflexivity | contradiction].
  - split; [|reflexivity]. intros H. apply is1inchGateway_spec in H. congruence.
Qed.

(** C10.  Each client constructor puts [Authorization: Bearer <key>]
    on its RPC transport when the configured URL contains
    [api.1inch.com/web3] anywhere, and leaves the transport without
    headers for every other URL: the ethers provider, the viem
    provider and the Solana connection alike. *)
Theorem authorization_header_iff_gateway :
  (forall derive config p,
      EthersProvider.createProvider derive config = Ok p ->
      (containsGateway (rpcUrl config) ->
       headers (transport p) = [bearer (apiKey config)]) /\
      (~ containsGateway (rpcUrl config) -> headers (transport p) = []))
  /\
  (forall derive config p,
      ViemProvider.createProvider derive config = Ok p ->
      (containsGateway (rpcUrl config) ->
       headers (transport p) = [bearer (apiKey config)]) /\
      (~ containsGateway (rpcUrl config) -> headers (transport p) = []))
  /\
  (forall codecs config conn wallet,
      SolConnection.createWallet codecs config = Ok (conn, wallet) ->
      (containsGateway (SolConnection.rpcUrl config) ->
       SolConnection.httpHeaders conn = [bearer (SolConnection.apiKey config)]) /\
      (~ containsGateway (SolConnection.rpcUrl config) ->
       SolConnection.httpHeaders conn = [])).
Proof.
  split; [|split].
  - intros derive config p H. apply gateway_cases.
    exact (ethers_headers derive config p H).
  - intros derive config p H. apply gateway_cases.
    exact (viem_headers derive config p H).
  - intros codecs config conn wallet H. apply gateway_cases.
    exact (solana_headers codecs config conn wallet H).
Qed.

End Providers.

Section ProviderExamples.
Import Js Types Interface.

Definition sampleDerive : string -> Result string := fun _ => Ok "0xWallet".

Definition gatewayConfig : Config :=
  mkConfig "key" "0xabc" "https://api.1inch.com/web3/1" "1".

Definition sampleCodecs : SolConnection.Codecs :=
  SolConnection.mkCodecs (fun _ => Throw (Error "Non-base58 character"))
                         (fun _ => List.repeat Byte.x01 64)
                         (fun _ => Ok "wallet") (fun _ => Ok "wallet").

Definition solanaGatewayConfig : SolConnection.Config :=
  SolConnection.mkConfig "key" "secret" "https://api.1inch.com/web3/501".

Lemma authorization_header_iff_gateway_witness :
  (exists p, EthersProvider.createProvider sampleDerive gatewayConfig = Ok p
             /\ headers (transport p) = [bearer "key"])
  /\ (exists p, ViemProvider.createProvider sampleDerive gatewayConfig = Ok p
                /\ headers (transport p) = [bearer "key"])
  /\ (exists conn wallet,
         SolConnection.createWallet sampleCodecs solanaGatewayConfig = Ok (conn, wallet)
         /\ SolConnection.httpHeaders conn = [bearer "key"]).
Proof.
  destruct authorization_header_iff_gateway as (He & Hv & Hs).
  split; [|split].
  - eexists. split; [reflexivity|].
    apply (He sampleDerive gatewayConfig _ eq_refl).
    exists "https://", "/1". reflexivity.
  - eexists. split; [reflexivity|].
    apply (Hv sampleDerive gatewayConfig _ eq_refl).
    exists "https://", "/1". reflexivity.
  - eexists. eexists. split; [reflexivity|].
    apply (Hs sampleCodecs solanaGatewayConfig _ _ eq_refl).
    exists "https://", "/501". reflexivity.
Defined.

End ProviderExamples.

Section ProviderRefinement.
Import Js Types Interface.




Lemma abi_tables_agree (name : string) :
  findFunction name EthersProvider.ERC20_ABI = findFunction name ViemProvider.ERC20_ABI_VIEM.
Proof. reflexivity. Qed.





End ProviderRefinement.

(** ** The Solana wallet *)

Section SolanaWallet.
Import Js SolConnection.

Lemma decodeSecretKey_cases (c : Codecs) (key : string) :
  decodeSecretKey c key =
    match bs58_decode c key with
    | Ok sk =>
        if (List.length sk =? 64)%nat then Ok sk
        else if (List.length (base64_decode c key) =? 64)%nat
             then Ok (base64_decode c key) else Throw invalidKeyFormat
    | Throw _ =>
        if (List.length (base64_decode c key) =? 64)%nat
        then Ok (base64_decode c key) else Throw invalidKeyFormat
    end.
Proof.
  unfold decodeSecretKey, tryCatch.
  destruct (bs58_decode c key) as [sk|e].
  - destruct (List.length sk =? 64)%nat; simpl; [reflexivity|].
    now destruct (List.length (base64_decode c key) =? 64)%nat.
  - now destruct (List.length (base64_decode c key) =? 64)%nat.
Qed.

Lemma decodeSecretKey_length (c : Codecs) (key : string) (sk : list Byte.byte) :
  decodeSecretKey c key = Ok sk -> List.length sk = 64%nat.
Proof.
  rewrite decodeSecretKey_cases.
  destruct (bs58_decode c key) as [sk'|e].
  - destruct (Nat.eqb_spec (List.length sk') 64).
    + intros H; injection H as <-; assumption.
    + destruct (Nat.eqb_spec (List.length (base64_decode c key)) 64); [|discriminate].
      intros H; injection H as <-; assumption.
  - destruct (Nat.eqb_spec (List.length (base64_decode c key)) 64); [|discriminate].
    intros H; injection H as <-; assumption.
Qed.



End SolanaWallet.

Section SolanaWalletExamples.
Import Js SolConnection.






End SolanaWalletExamples.

(** ** Decimal printing and [formatAmount] *)

Section Digits.
Import Js.
Local Open Scope N_scope.

Lemma digitsN_unfold (n : N) :
  digitsN n = if n <? 10 then String (digitChar n) ""
              else (digitsN (n / 10) ++ String (digitChar (n mod 10)) "")%string.
Proof.
  funelim (digitsN n).
  - rewrite e. reflexivity.
  - rewrite H. reflexivity.
Qed.

Lemma length_append (s t : string) :
  String.length (s ++ t) = (String.length s + String.length t)%nat.
Proof. induction s; simpl; congruence. Qed.

Lemma digitsN_length (d : nat) (n : N) :
  n < 10 ^ N.of_nat (S d) -> (1 <= String.length (digitsN n) <= S d)%nat.
Proof.
  revert n. induction d as [|d IH]; intros n Hn; rewrite digitsN_unfold.
  - change (10 ^ N.of_nat 1) with 10 in Hn.
    apply N.ltb_lt in Hn. rewrite Hn. simpl. lia.
  - destruct (N.ltb_spec n 10); [simpl; lia|].
    rewrite length_append. simpl.
    assert (n / 10 < 10 ^ N.of_nat (S d)).
    { apply N.Div0.div_lt_upper_bound.
      rewrite <- N.pow_succ_r'. now rewrite <- Nnat.Nat2N.inj_succ. }
    specialize (IH _ H0). lia.
Qed.

Lemma digitValue_digitChar (d : N) : d < 10 -> digitValue (digitChar d) = d.
Proof.
  intros H. unfold digitValue, digitChar.
  rewrite N_ascii_embedding by lia. lia.
Qed.

Lemma isDigit_digitChar (d : N) :
  d < 10 -> (48 <=? N_of_ascii (digitChar d)) && (N_of_ascii (digitChar d) <=? 57) = true.
Proof.
  intros H. unfold digitChar. rewrite N_ascii_embedding by lia.
  apply andb_true_intro. split; apply N.leb_le; lia.
Qed.

Lemma allDigits_append (s t : string) :
  allDigits (s ++ t) = allDigits s && allDigits t.
Proof.
  induction s as [|c s IH]; simpl; [reflexivity|].
  rewrite IH. now rewrite andb_assoc.
Qed.

Lemma allDigits_digitsN (n : N) : allDigits (digitsN n) = true.
Proof.
  funelim (digitsN n).
  - pose proof (proj1 (N.ltb_lt _ _) e) as Hlt.
    simpl. rewrite isDigit_digitChar by assumption. reflexivity.
  - rewrite allDigits_append, H0. simpl.
    rewrite isDigit_digitChar; [reflexivity|]. apply N.mod_lt. lia.
Qed.

Lemma valueAcc_append (acc : N) (s t : string) :
  valueAcc acc (s ++ t) = valueAcc (valueAcc acc s) t.
Proof. revert acc. induction s as [|c s IH]; intros acc; simpl; [reflexivity | apply IH]. Qed.

Lemma valueAcc_shift (acc : N) (s : string) :
  valueAcc acc s = acc * 10 ^ N.of_nat (String.length s) + valueOf s.
Proof.
  unfold valueOf. revert acc. induction s as [|c s IH]; intros acc.
  - simpl. lia.
  - cbn [valueAcc String.length]. rewrite IH, (IH (0 * 10 + digitValue c)).
    rewrite Nnat.Nat2N.inj_succ, N.pow_succ_r'. lia.
Qed.

Lemma valueOf_append (s t : string) :
  valueOf (s ++ t) = valueOf s * 10 ^ N.of_nat (String.length t) + valueOf t.
Proof.
  unfold valueOf at 1. rewrite valueAcc_append.
  fold (valueOf s). apply valueAcc_shift.
Qed.

Lemma valueOf_digitsN (n : N) : valueOf (digitsN n) = n.
Proof.
  funelim (digitsN n).
  - pose proof (proj1 (N.ltb_lt _ _) e) as Hlt.
    unfold valueOf. simpl. now rewrite digitValue_digitChar.
  - rewrite valueOf_append, H0. unfold valueOf at 1. simpl.
    rewrite digitValue_digitChar by (apply N.mod_lt; lia).
    rewrite (N.div_mod n 10) at 3 by lia. lia.
Qed.

Lemma valueOf_bound (s : string) :
  allDigits s = true -> valueOf s < 10 ^ N.of_nat (String.length s).
Proof.
  induction s as [|c s IH]; intros Hs.
  - unfold valueOf. simpl. lia.
  - simpl in Hs. apply andb_prop in Hs as [Hc Hs]. apply andb_prop in Hc as [Hlo Hhi].
    apply N.leb_le in Hlo, Hhi. specialize (IH Hs).
    unfold valueOf. cbn [valueAcc String.length]. rewrite valueAcc_shift.
    assert (0 * 10 + digitValue c <= 9) by (unfold digitValue; lia).
    rewrite Nnat.Nat2N.inj_succ, N.pow_succ_r'. nia.
Qed.

Lemma allDigits_repeat_zero (m : nat) : allDigits (repeat "0"%char m) = true.
Proof. induction m; simpl; [reflexivity | assumption]. Qed.

Lemma valueOf_repeat_zero (m : nat) : valueOf (repeat "0"%char m) = 0.
Proof.
  unfold valueOf. induction m; simpl; [reflexivity | assumption].
Qed.

Lemma length_repeat (c : ascii) (m : nat) : String.length (repeat c m) = m.
Proof. induction m; simpl; congruence. Qed.

Lemma length_padStart (target : nat) (c : ascii) (s : string) :
  String.length (padStart target c s) = Nat.max target (String.length s).
Proof. unfold padStart. rewrite length_append, length_repeat. lia. Qed.

Lemma valueOf_padStart (target : nat) (s : string) :
  valueOf (padStart target "0"%char s) = valueOf s.
Proof. unfold padStart. rewrite valueOf_append, valueOf_repeat_zero. lia. Qed.

Lemma allDigits_padStart (target : nat) (s : string) :
  allDigits s = true -> allDigits (padStart target "0"%char s) = true.
Proof.
  intros H. unfold padStart. now rewrite allDigits_append, allDigits_repeat_zero, H.
Qed.

Lemma take_drop (k : nat) (s : string) : (take k s ++ drop k s)%string = s.
Proof.
  revert s. induction k as [|k IH]; intros [|c s]; simpl; try reflexivity.
  now rewrite IH.
Qed.

Lemma length_take (k : nat) (s : string) :
  String.length (take k s) = Nat.min k (String.length s).
Proof.
  revert s. induction k as [|k IH]; intros [|c s]; simpl; try reflexivity.
  now rewrite IH.
Qed.

Lemma length_drop (k : nat) (s : string) :
  String.length (drop k s) = (String.length s - k)%nat.
Proof.
  revert s. induction k as [|k IH]; intros [|c s]; simpl; try reflexivity.
  apply IH.
Qed.

Lemma take_min (k : nat) (s : string) : take k s = take (Nat.min k (String.length s)) s.
Proof.
  revert s. induction k as [|k IH]; intros [|c s]; simpl; try reflexivity.
  now rewrite <- IH.
Qed.

Lemma allDigits_drop (k : nat) (s : string) :
  allDigits s = true -> allDigits (drop k s) = true.
Proof.
  revert s. induction k as [|k IH]; intros [|c s] H; simpl; try assumption.
  apply IH. simpl in H. now apply andb_prop in H as [_ H].
Qed.

(** The first [k] digits of a digit string denote its value with the
    remaining places cut off: no rounding. *)
Lemma valueOf_take (k : nat) (s : string) :
  allDigits s = true ->
  valueOf (take k s) = valueOf s / 10 ^ N.of_nat (String.length s - k).
Proof.
  intros Hs.
  rewrite <- (take_drop k s) at 2. rewrite valueOf_append, length_drop.
  assert (Hb := valueOf_bound (drop k s) (allDigits_drop k s Hs)).
  rewrite length_drop in Hb.
  apply N.div_unique with (valueOf (drop k s)); [assumption | lia].
Qed.

End Digits.

Section FormatAmount.
Import Js Types.
Local Open Scope Z_scope.

(** The claim of C8 read literally: quotient, dot, and the first
    [min(6, decimals)] characters of the padded remainder. *)
Definition formatAmount_as_claimed (amount : Z) (decimals : N) : string :=
  toString (amount / 10 ^ Z.of_N decimals) ++ "."
  ++ take (Nat.min 6 (N.to_nat decimals))
          (padStart (N.to_nat decimals) "0"%char (toString (amount mod 10 ^ Z.of_N decimals))).

(** With [decimals = 0] the remainder [0] still prints as one digit,
    which [padStart(0, "0")] leaves alone: the result ends in [.0],
    not in a bare dot. *)
Lemma formatAmount_zero_decimals_keeps_a_digit :
  formatAmount 5 0 = "5.0"
  /\ formatAmount_as_claimed 5 0 = "5."
  /\ ~ (exists s, formatAmount 5 0 = s ++ ".").
Proof.
  split; [reflexivity|]. split; [reflexivity|].
  intros [s H]. change (formatAmount 5 0) with "5.0" in H.
  destruct s as [|a [|b [|c s]]]; simpl in H; try discriminate.
  injection H as _ _ _ H. destruct s; discriminate.
Qed.

Lemma toString_nonneg (z : Z) : 0 <= z -> toString z = digitsN (Z.to_N z).
Proof.
  intros H. unfold toString.
  destruct (Z.ltb_spec z 0); [lia|]. f_equal. lia.
Qed.

Lemma formatAmount_nonneg (amount : Z) (decimals : N) :
  0 <= amount ->
  formatAmount amount decimals =
    toString (amount / 10 ^ Z.of_N decimals) ++ "."
    ++ take 6 (padStart (N.to_nat decimals) "0"%char
                        (toString (amount mod 10 ^ Z.of_N decimals))).
Proof.
  intros H. unfold formatAmount.
  assert (0 < 10 ^ Z.of_N decimals) by (apply Z.pow_pos_nonneg; lia).
  rewrite Z.quot_div_nonneg, Z.rem_mod_nonneg by lia. reflexivity.
Qed.

Lemma remainder_digits (amount : Z) (decimals : N) :
  (1 <= decimals)%N ->
  let r := amount mod 10 ^ Z.of_N decimals in
  toString r = digitsN (Z.to_N r)
  /\ (String.length (toString r) <= N.to_nat decimals)%nat.
Proof.
  intros Hd r.
  assert (0 < 10 ^ Z.of_N decimals) by (apply Z.pow_pos_nonneg; lia).
  assert (0 <= r < 10 ^ Z.of_N decimals) by (apply Z.mod_pos_bound; lia).
  rewrite toString_nonneg by lia. split; [reflexivity|].
  destruct (N.to_nat decimals) as [|d] eqn:E; [lia|].
  apply (digitsN_length d).
  assert (N.of_nat (S d) = decimals) as -> by lia.
  apply N2Z.inj_lt. rewrite N2Z.inj_pow, Z2N.id by lia. simpl Z.of_N. lia.
Qed.

(** C8, amended.  For a non-negative amount and [decimals >= 1],
    [formatAmount] (and the identical [formatTokenAmount]) prints the
    quotient by [10^decimals], a dot, and the first [min(6, decimals)]
    digits of the remainder padded with zeros to [decimals] digits;
    those digits denote the remainder with the lower places cut off,
    so nothing is rounded.  For [decimals = 0] the result is the
    amount followed by [.0]. *)
Theorem formatAmount_truncates (amount : Z) (decimals : N) :
  0 <= amount ->
  let q := amount / 10 ^ Z.of_N decimals in
  let r := amount mod 10 ^ Z.of_N decimals in
  let frac := padStart (N.to_nat decimals) "0"%char (toString r) in
  let shown := take (Nat.min 6 (N.to_nat decimals)) frac in
  SolConnection.formatTokenAmount amount decimals = formatAmount amount decimals
  /\ (decimals = 0%N -> formatAmount amount decimals = toString amount ++ ".0")
  /\ ((1 <= decimals)%N ->
      formatAmount amount decimals = toString q ++ "." ++ shown
      /\ String.length frac = N.to_nat decimals
      /\ String.length shown = Nat.min 6 (N.to_nat decimals)
      /\ Z.of_N (valueOf shown)
         = r / 10 ^ (Z.of_N decimals - Z.of_nat (Nat.min 6 (N.to_nat decimals)))).
Proof.
  intros Ha q r frac shown.
  split; [reflexivity|]. split.
  - intros ->. rewrite formatAmount_nonneg by assumption.
    change (10 ^ Z.of_N 0) with 1. rewrite Z.div_1_r, Z.mod_1_r. reflexivity.
  - intros Hd.
    destruct (remainder_digits amount decimals Hd) as [Hr Hlen]. fold r in Hr, Hlen.
    assert (Hfrac : String.length frac = N.to_nat decimals).
    { unfold frac. rewrite length_padStart. lia. }
    assert (0 < 10 ^ Z.of_N decimals) by (apply Z.pow_pos_nonneg; lia).
    assert (0 <= r < 10 ^ Z.of_N decimals) by (apply Z.mod_pos_bound; lia).
    repeat apply conj.
    + rewrite formatAmount_nonneg by assumption. fold q r frac.
      rewrite (take_min 6 frac), Hfrac. reflexivity.
    + exact Hfrac.
    + unfold shown. rewrite length_take, Hfrac. lia.
    + unfold shown. rewrite valueOf_take.
      * rewrite Hfrac. unfold frac. rewrite valueOf_padStart, Hr, valueOf_digitsN.
        rewrite N2Z.inj_div, N2Z.inj_pow, Z2N.id by lia.
        do 2 f_equal. lia.
      * unfold frac. apply allDigits_padStart. rewrite Hr. apply allDigits_digitsN.
Qed.

Lemma formatAmount_truncates_witness :
  formatAmount 1999999999 9 = "1.999999"
  /\ Z.of_N (valueOf "999999") = 999999999 / 10 ^ 3.
Proof.
  destruct (formatAmount_truncates 1999999999 9) as (_ & _ & H); [lia|].
  destruct H as (Hf & _ & _ & Hv); [lia|].
  split; [rewrite Hf; reflexivity | exact Hv].
Defined.

End FormatAmount.

(** ** The WebSocket trackers *)

Section TrackerFacts.
Import Js Tracker.

(** What an order event means to a tracker. *)
Inductive Kind :=
| Fill (h : string)
| Cancel (h : string)
| Other.

Definition evmKind (ev : Evm.Event) : Kind :=
  match ev with
  | Evm.OrderFilled h => Fill h
  | Evm.OrderInvalid h => Cancel h
  | _ => Other
  end.

Definition solKind (ev : Sol.Event) : Kind :=
  match ev with
  | Sol.OrderFilled h => Fill h
  | Sol.OrderCancelled h => Cancel h
  | _ => Other
  end.

Variable Event : Type.
Variable onEvent : State -> Event -> State.
Variable kind : Event -> Kind.
Variable cancelError : Thrown.

(** Does this tick settle a pending promise that tracks hash [h]? *)
Definition settles (h : string) (x : Tick Event) : bool :=
  match x with
  | TimerFired => true
  | Message ev =>
      match kind ev with
      | Fill h' | Cancel h' => String.eqb h' h
      | Other => false
      end
  end.

(** ... and to what. *)
Definition settlement (x : Tick Event) : Promise :=
  match x with
  | TimerFired => Rejected timeoutError
  | Message ev =>
      match kind ev with
      | Fill _ => Resolved
      | Cancel _ => Rejected cancelError
      | Other => Pending
      end
  end.

(** A promise that is still pending has its timer running. *)
Definition armedWhilePending (s : State) : Prop :=
  promise s = Pending -> timerArmed s = true.

Definition trackerSpec : Prop :=
  (* a settled promise stays as it is *)
  (forall s x, promise s <> Pending -> promise (step onEvent s x) = promise s)
  (* before a hash is recorded no message does anything *)
  /\ (forall s ev, orderHash s = None -> onEvent s ev = s)
  (* resolved exactly by a fill of the recorded hash *)
  /\ (forall s ev, promise s = Pending ->
        (promise (onEvent s ev) = Resolved <->
         exists h, kind ev = Fill h /\ orderHash s = Some h))
  (* rejected by a message exactly when it cancels the recorded hash *)
  /\ (forall s ev, promise s = Pending ->
        ((exists e, promise (onEvent s ev) = Rejected e) <->
         exists h, kind ev = Cancel h /\ orderHash s = Some h))
  (* rejected by the timer *)
  /\ (forall s, promise s = Pending -> timerArmed s = true ->
        promise (onTimeout s) = Rejected timeoutError)
  (* a whole run: the first settling tick decides *)
  /\ (forall s h xs,
        promise s = Pending -> timerArmed s = true -> orderHash s = Some h ->
        promise (run onEvent s xs) =
          match find (settles h) xs with
          | Some x => settlement x
          | None => Pending
          end).

Hypothesis onEvent_kind : forall s ev,
    onEvent s ev =
      match kind ev with
      | Fill h => if sameHash h s then resolve (complete (clearTimeout s)) else s
      | Cancel h => if sameHash h s then reject cancelError (complete (clearTimeout s)) else s
      | Other => s
      end.

Lemma sameHash_spec (h : string) (s : State) :
  sameHash h s = true <-> orderHash s = Some h.
Proof.
  unfold sameHash. destruct (orderHash s) as [h'|].
  - rewrite String.eqb_eq. split; congruence.
  - split; discriminate.
Qed.

Lemma settled_stays (s : State) (x : Tick Event) :
  promise s <> Pending -> promise (step onEvent s x) = promise s.
Proof.
  intros Hs. destruct x as [ev|]; simpl.
  - rewrite onEvent_kind.
    destruct (kind ev) as [h|h|]; [| |reflexivity];
      (destruct (sameHash h s); [|reflexivity]);
      unfold resolve, reject; simpl; destruct (promise s) eqn:E; simpl; congruence.
  - unfold onTimeout. destruct (timerArmed s); [|reflexivity].
    unfold reject; simpl. destruct (promise s) eqn:E; simpl; congruence.
Qed.

Lemma settled_run (s : State) (xs : list (Tick Event)) :
  promise s <> Pending -> promise (run onEvent s xs) = promise s.
Proof.
  unfold run. revert s. induction xs as [|x xs IH]; intros s Hs; simpl; [reflexivity|].
  rewrite IH; [apply settled_stays; assumption|].
  rewrite settled_stays; assumption.
Qed.

Lemma step_settling (s : State) (h : string) (x : Tick Event) :
  promise s = Pending -> timerArmed s = true -> orderHash s = Some h ->
  settles h x = true -> promise (step onEvent s x) = settlement x.
Proof.
  intros Hp Ht Hh Hx. destruct x as [ev|]; simpl in *.
  - rewrite onEvent_kind.
    destruct (kind ev) as [h'|h'|]; [| |discriminate];
      apply String.eqb_eq in Hx; subst h';
      (rewrite (proj2 (sameHash_spec h s) Hh));
      unfold resolve, reject; simpl; now rewrite Hp.
  - unfold onTimeout. rewrite Ht. unfold reject; simpl. now rewrite Hp.
Qed.

Lemma step_not_settling (s : State) (h : string) (x : Tick Event) :
  orderHash s = Some h -> settles h x = false -> step onEvent s x = s.
Proof.
  intros Hh Hx. destruct x as [ev|]; simpl in *; [|discriminate].
  rewrite onEvent_kind.
  destruct (kind ev) as [h'|h'|]; [| |reflexivity];
    (assert (sameHash h' s = false) as ->; [|reflexivity]);
    unfold sameHash; now rewrite Hh.
Qed.

Lemma run_first_settling (s : State) (h : string) (xs : list (Tick Event)) :
  promise s = Pending -> timerArmed s = true -> orderHash s = Some h ->
  promise (run onEvent s xs) =
    match find (settles h) xs with
    | Some x => settlement x
    | None => Pending
    end.
Proof.
  intros Hp Ht Hh. induction xs as [|x xs IH]; simpl; [assumption|].
  destruct (settles h x) eqn:Hx.
  - change (run onEvent s (x :: xs)) with (run onEvent (step onEvent s x) xs).
    assert (Hs := step_settling s h x Hp Ht Hh Hx).
    rewrite settled_run; [assumption|].
    rewrite Hs. destruct x as [ev|]; simpl in *; [|discriminate].
    destruct (kind ev); discriminate.
  - change (run onEvent s (x :: xs)) with (run onEvent (step onEvent s x) xs).
    now rewrite (step_not_settling s h x Hh Hx).
Qed.

Lemma tracker_spec : trackerSpec.
Proof.
  unfold trackerSpec. repeat apply conj.
  - exact settled_stays.
  - intros s ev Hh. rewrite onEvent_kind.
    assert (forall h, sameHash h s = false) as Hn by (intros; unfold sameHash; now rewrite Hh).
    destruct (kind ev); rewrite ?Hn; reflexivity.
  - intros s ev Hp. rewrite onEvent_kind. split.
    + destruct (kind ev) as [h|h|]; [| |congruence].
      * destruct (sameHash h s) eqn:E; [|congruence].
        apply sameHash_spec in E. eauto.
      * destruct (sameHash h s); [|congruence].
        unfold reject; simpl. rewrite Hp. discriminate.
    + intros (h & -> & Hh). rewrite (proj2 (sameHash_spec h s) Hh).
      unfold resolve; simpl. now rewrite Hp.
  - intros s ev Hp. rewrite onEvent_kind. split.
    + intros [e He]. destruct (kind ev) as [h|h|]; [| |congruence].
      * destruct (sameHash h s); [|congruence].
        unfold resolve in He; simpl in He. rewrite Hp in He. discriminate.
      * destruct (sameHash h s) eqn:E; [|congruence].
        apply sameHash_spec in E. eauto.
    + intros (h & -> & Hh). rewrite (proj2 (sameHash_spec h s) Hh).
      unfold reject; simpl. rewrite Hp. simpl. eauto.
  - intros s Hp Ht. unfold onTimeout. rewrite Ht. unfold reject; simpl. now rewrite Hp.
  - exact run_first_settling.
Qed.

(** The invariant that makes the timer a last resort. *)
Lemma armed_step (s : State) (x : Tick Event) :
  armedWhilePending s -> armedWhilePending (step onEvent s x).
Proof.
  unfold armedWhilePending. intros Inv. destruct x as [ev|]; simpl.
  - rewrite onEvent_kind.
    destruct (kind ev) as [h|h|]; [| |assumption];
      (destruct (sameHash h s); [|assumption]);
      unfold resolve, reject; simpl; destruct (promise s) eqn:E; simpl;
      try discriminate; congruence.
  - unfold onTimeout. destruct (timerArmed s) eqn:E.
    + unfold reject; simpl. destruct (promise s) eqn:E2; simpl; intros H; congruence.
    + intros H. specialize (Inv H). congruence.
Qed.

Lemma armed_run (s : State) (xs : list (Tick Event)) :
  armedWhilePending s -> armedWhilePending (run onEvent s xs).
Proof.
  unfold run. revert s. induction xs as [|x xs IH]; intros s Inv; simpl; [assumption|].
  apply IH, armed_step, Inv.
Qed.

Lemma await_settled (s : State) (evs : list Event) :
  armedWhilePending s -> promise (await onEvent s evs) <> Pending.
Proof.
  intros Inv. unfold await, run. rewrite fold_left_app. simpl.
  set (s' := fold_left (step onEvent) (map Message evs) s).
  assert (Inv' : armedWhilePending s') by (apply armed_run, Inv).
  unfold armedWhilePending in Inv'.
  unfold onTimeout, reject.
  destruct (timerArmed s') eqn:Ht; simpl;
    destruct (promise s') eqn:E; simpl; rewrite ?E; try discriminate.
  specialize (Inv' eq_refl). discriminate Inv'.
Qed.

End TrackerFacts.

Section TrackerTheorem.
Import Js Tracker.

Lemma evm_onEvent_kind (s : State) (ev : Evm.Event) :
  Evm.onEvent s ev =
    match evmKind ev with
    | Fill h => if sameHash h s then resolve (complete (clearTimeout s)) else s
    | Cancel h =>
        if sameHash h s
        then reject (Error "Order was invalidated or cancelled") (complete (clearTimeout s))
        else s
    | Other => s
    end.
Proof. destruct ev; reflexivity. Qed.

Lemma sol_onEvent_kind (s : State) (ev : Sol.Event) :
  Sol.onEvent s ev =
    match solKind ev with
    | Fill h => if sameHash h s then resolve (complete (clearTimeout s)) else s
    | Cancel h =>
        if sameHash h s
        then reject (Error "Order was cancelled") (complete (clearTimeout s))
        else s
    | Other => s
    end.
Proof. destruct ev; reflexivity. Qed.

End TrackerTheorem.

(** ** Script runs *)

Section ScriptFacts.
Import Js Script.
Local Open Scope list_scope.


Lemma bind_throw {A B} (m : M A) (k : A -> M B) (t : list Action) (e : Thrown) :
  m = (t, Throw e) -> bind m k = (t, Throw e).
Proof. now intros ->. Qed.

Lemma bind_result_ok {A B} (m : M A) (k : A -> M B) (b : B) :
  snd (bind m k) = Ok b <-> exists t a, m = (t, Ok a) /\ snd (k a) = Ok b.
Proof.
  destruct m as [t [a|e]]; simpl.
  - destruct (k a) as [t' r] eqn:E; simpl. split.
    + intros ->. exists t, a. rewrite E. auto.
    + intros (t0 & a0 & H & Hk). injection H as <- <-. now rewrite E in Hk.
  - split; [discriminate|]. intros (t0 & a0 & H & _). discriminate.
Qed.

Lemma after_nil {A} (m : M A) : after [] m = m.
Proof. now destruct m. Qed.

Lemma after_after {A} (t t' : list Action) (m : M A) :
  after t (after t' m) = after (t ++ t') m.
Proof. unfold after. simpl. now rewrite app_assoc. Qed.

Lemma snd_after {A} (t : list Action) (m : M A) : snd (after t m) = snd m.
Proof. reflexivity. Qed.

Lemma exit_entry (main : M unit) :
  exit (entry main) = match snd main with Ok _ => Exit 0 | Throw _ => Exit 1 end.
Proof. now destruct main as [t [[]|e]]. Qed.

Lemma exit_entryMessageOnly (main : M unit) :
  exit (entryMessageOnly main) = match snd main with Ok _ => Exit 0 | Throw _ => Exit 1 end.
Proof. now destruct main as [t [[]|e]]. Qed.

End ScriptFacts.

(** ** The polling loops *)

Section EvmPolling.
Import Js Script Evm.
Local Open Scope list_scope.
Local Open Scope N_scope.

Definition expiredError : Thrown := Error "Order expired without being filled".
Definition cancelledError : Thrown := Error "Order was cancelled".

(** The test of the [catch] clause. *)
Definition rethrown (e : Thrown) : bool :=
  isError e && includes "Order" (message e).

(** How one status reply ends the loop, if it does. *)
Definition verdict (reply : Result OrderStatus) : option (Result unit) :=
  match reply with
  | Ok Filled => Some (Ok tt)
  | Ok Expired => Some (Throw expiredError)
  | Ok Cancelled => Some (Throw cancelledError)
  | Ok _ => None
  | Throw e => if rethrown e then Some (Throw e) else None
  end.

(** [Date.now() - startTime] at the head of the loop, [n] passes after
    a pass [k] that was entered at [elapsed]. *)
Fixpoint clock (w : World) (k : nat) (elapsed : N) (n : nat) : N :=
  match n with
  | O => elapsed
  | S n' => clock w (S k) (elapsed + latency w k + pollInterval) n'
  end.

(** [n] passes that query, then sleep. *)
Fixpoint pollTrace (hash : string) (n : nat) : list Action :=
  match n with
  | O => []
  | S n' => Fusion (GetOrderStatus hash) :: Sleep pollInterval :: pollTrace hash n'
  end.

(** The first [n] passes all continue, and start in time. *)
Definition keepsPolling (w : World) (k : nat) (elapsed : N) (n : nat) : Prop :=
  forall j, (j < n)%nat ->
            verdict (statusAt w (k + j)) = None /\ clock w k elapsed j < orderTimeout.

Lemma iteration_spec (w : World) (hash : string) (k : nat) :
  iteration w hash k =
    match verdict (statusAt w k) with
    | Some (Ok _) => ([Fusion (GetOrderStatus hash)], Ok Return)
    | Some (Throw e) => ([Fusion (GetOrderStatus hash)], Throw e)
    | None => ([Fusion (GetOrderStatus hash); Sleep pollInterval], Ok Continue)
    end.
Proof.
  unfold iteration, verdict.
  destruct (statusAt w k) as [[]|e]; try reflexivity.
  unfold catch, call, bind, after, throw. simpl.
  fold (rethrown e). now destruct (rethrown e).
Qed.

Lemma pollLoop_unfold (w : World) (hash : string) (k : nat) (elapsed : N) :
  pollLoop w hash k elapsed =
    if elapsed <? orderTimeout then
      match verdict (statusAt w k) with
      | Some r => ([Fusion (GetOrderStatus hash)], r)
      | None =>
          after [Fusion (GetOrderStatus hash); Sleep pollInterval]
                (pollLoop w hash (S k) (elapsed + latency w k + pollInterval))
      end
    else throw timeoutError.
Proof.
  funelim (pollLoop w hash k elapsed);
    match goal with E : (_ <? _) = _ |- _ => rewrite E end;
    try reflexivity.
  rewrite iteration_spec.
  destruct (verdict (statusAt w k)) as [[[]|e]|]; reflexivity.
Qed.

Lemma keepsPolling_tail (w : World) (k : nat) (elapsed : N) (n : nat) :
  keepsPolling w k elapsed (S n) ->
  keepsPolling w (S k) (elapsed + latency w k + pollInterval) n.
Proof.
  intros H j Hj. specialize (H (S j) ltac:(lia)).
  now rewrite Nat.add_succ_r in H.
Qed.

Lemma pollLoop_continues (n : nat) :
  forall w hash k elapsed,
    keepsPolling w k elapsed n ->
    pollLoop w hash k elapsed =
      after (pollTrace hash n) (pollLoop w hash (k + n) (clock w k elapsed n)).
Proof.
  induction n as [|n IH]; intros w hash k elapsed H.
  - simpl. now rewrite Nat.add_0_r, after_nil.
  - destruct (H 0%nat ltac:(lia)) as [Hv Hc]. rewrite Nat.add_0_r in Hv. simpl in Hc.
    rewrite pollLoop_unfold, Hv. apply N.ltb_lt in Hc. rewrite Hc.
    rewrite (IH w hash (S k) _ (keepsPolling_tail _ _ _ _ H)).
    rewrite after_after. simpl. now rewrite Nat.add_succ_r.
Qed.

Lemma pollLoop_settles (w : World) (hash : string) (n : nat) (r : Result unit) :
  keepsPolling w 0 0 n ->
  clock w 0 0 n < orderTimeout ->
  verdict (statusAt w n) = Some r ->
  pollLoop w hash 0 0 = (pollTrace hash n ++ [Fusion (GetOrderStatus hash)], r).
Proof.
  intros Hk Hc Hv. rewrite (pollLoop_continues n w hash 0 0 Hk). simpl.
  rewrite pollLoop_unfold, Hv. apply N.ltb_lt in Hc. now rewrite Hc.
Qed.

Lemma pollLoop_times_out (w : World) (hash : string) (n : nat) :
  keepsPolling w 0 0 n ->
  orderTimeout <= clock w 0 0 n ->
  pollLoop w hash 0 0 = (pollTrace hash n, Throw timeoutError).
Proof.
  intros Hk Hc. rewrite (pollLoop_continues n w hash 0 0 Hk). simpl.
  rewrite pollLoop_unfold. apply N.ltb_ge in Hc. rewrite Hc.
  unfold after, throw. simpl. now rewrite app_nil_r.
Qed.

(** The loop returns normally only on a [Filled] reply that arrives in
    time, after passes that all continued. *)
Definition filledInTime (w : World) : Prop :=
  exists n, keepsPolling w 0 0 n
            /\ clock w 0 0 n < orderTimeout
            /\ statusAt w n = Ok Filled.

Lemma pollLoop_ok_from (w : World) (hash : string) (k : nat) (elapsed : N) :
  snd (pollLoop w hash k elapsed) = Ok tt ->
  exists n, keepsPolling w k elapsed n
            /\ clock w k elapsed n < orderTimeout
            /\ statusAt w (k + n) = Ok Filled.
Proof.
  funelim (pollLoop w hash k elapsed); [|discriminate].
  - clear Heqcall. pose proof (proj1 (N.ltb_lt _ _) H) as Hlt.
    rewrite iteration_spec.
    destruct (verdict (statusAt w k)) as [[[]|e]|] eqn:Hv; simpl.
    + intros _. exists 0%nat. split; [|split].
      * intros j Hj. lia.
      * exact Hlt.
      * rewrite Nat.add_0_r. unfold verdict in Hv.
        destruct (statusAt w k) as [[]|e]; try discriminate; [reflexivity|].
        destruct (rethrown e); discriminate.
    + discriminate.
    + intros Hok. destruct (H0 [] (Ok Continue) Continue Hok) as (n & Hk & Hc & Hf).
      exists (S n). split; [|split].
      * intros [|j] Hj.
        -- rewrite Nat.add_0_r. split; assumption.
        -- rewrite Nat.add_succ_r. apply Hk. lia.
      * exact Hc.
      * now rewrite Nat.add_succ_r.
Qed.

Lemma pollLoop_ok_iff (w : World) (hash : string) :
  snd (pollLoop w hash 0 0) = Ok tt <-> filledInTime w.
Proof.
  split.
  - intros H. exact (pollLoop_ok_from w hash 0 0 H).
  - intros (n & Hk & Hc & Hf).
    rewrite (pollLoop_settles w hash n (Ok tt) Hk Hc); [reflexivity|].
    now rewrite Hf.
Qed.

End EvmPolling.

Section SolanaPolling.
Import Js Script Sol Sol.SwapSolToJup.
Local Open Scope list_scope.
Local Open Scope N_scope.

(** The only reply that ends the Solana loop: the order is no longer
    active. *)
Definition inactive (reply : Result bool) : bool :=
  match reply with
  | Ok false => true
  | _ => false
  end.

Fixpoint solClock (w : World) (k : nat) (elapsed : N) (n : nat) : N :=
  match n with
  | O => elapsed
  | S n' => solClock w (S k) (elapsed + latency w k + pollInterval) n'
  end.

Fixpoint solPollTrace (hash : string) (n : nat) : list Action :=
  match n with
  | O => []
  | S n' => Solana (SolGetOrderStatus hash) :: Sleep pollInterval :: solPollTrace hash n'
  end.

Definition solKeepsPolling (w : World) (k : nat) (elapsed : N) (n : nat) : Prop :=
  forall j, (j < n)%nat ->
            inactive (statusAt w (k + j)) = false /\ solClock w k elapsed j < orderTimeout.

Lemma sol_iteration_spec (w : World) (hash : string) (k : nat) :
  iteration w hash k =
    if inactive (statusAt w k)
    then ([Solana (SolGetOrderStatus hash)], Ok Evm.Return)
    else ([Solana (SolGetOrderStatus hash); Sleep pollInterval], Ok Evm.Continue).
Proof.
  unfold iteration, inactive. destruct (statusAt w k) as [[]|e]; reflexivity.
Qed.

Lemma sol_pollLoop_unfold (w : World) (hash : string) (k : nat) (elapsed : N) :
  pollLoop w hash k elapsed =
    if elapsed <? orderTimeout then
      if inactive (statusAt w k)
      then ([Solana (SolGetOrderStatus hash)], Ok tt)
      else after [Solana (SolGetOrderStatus hash); Sleep pollInterval]
                 (pollLoop w hash (S k) (elapsed + latency w k + pollInterval))
    else ret tt.
Proof.
  funelim (pollLoop w hash k elapsed);
    match goal with E : (_ <? _) = _ |- _ => rewrite E end;
    try reflexivity.
  rewrite sol_iteration_spec.
  destruct (inactive (statusAt w k)); reflexivity.
Qed.

(** Nothing the status API does makes the loop throw. *)
Lemma sol_pollLoop_returns (w : World) (hash : string) (k : nat) (elapsed : N) :
  snd (pollLoop w hash k elapsed) = Ok tt.
Proof.
  funelim (pollLoop w hash k elapsed); [|reflexivity].
  rewrite sol_iteration_spec.
  destruct (inactive (statusAt w k)); [reflexivity|].
  simpl. exact (H0 [] (Ok Evm.Continue) Evm.Continue).
Qed.

Lemma sol_pollLoop_continues (n : nat) :
  forall w hash k elapsed,
    solKeepsPolling w k elapsed n ->
    pollLoop w hash k elapsed =
      after (solPollTrace hash n) (pollLoop w hash (k + n) (solClock w k elapsed n)).
Proof.
  induction n as [|n IH]; intros w hash k elapsed H.
  - simpl. now rewrite Nat.add_0_r, after_nil.
  - destruct (H 0%nat ltac:(lia)) as [Hv Hc]. rewrite Nat.add_0_r in Hv. simpl in Hc.
    rewrite sol_pollLoop_unfold, Hv. apply N.ltb_lt in Hc. rewrite Hc.
    rewrite (IH w hash (S k)).
    + rewrite after_after. simpl. now rewrite Nat.add_succ_r.
    + intros j Hj. specialize (H (S j) ltac:(lia)). now rewrite Nat.add_succ_r in H.
Qed.

End SolanaPolling.

Section PollingTheorem.
Import Js Script.
Local Open Scope list_scope.
Local Open Scope N_scope.

Definition mentionsOrder (e : Thrown) : Prop :=
  exists pre post, message e = (pre ++ "Order" ++ post)%string.

Lemma rethrown_spec (e : Thrown) :
  rethrown e = true <-> isError e = true /\ mentionsOrder e.
Proof.
  unfold rethrown, mentionsOrder. rewrite andb_true_iff, includes_spec. reflexivity.
Qed.

Definition sampleEnv : Types.ProcessEnv :=
  Types.mkEnv (Some "key") (Some "0xabc") None None.

(** A world in which every call before the status queries succeeds. *)
Definition sampleWorld (balance allowance : Z)
           (statusAt : nat -> Result Evm.OrderStatus) : Evm.World :=
  Evm.mkWorld sampleEnv (fun _ => Ok "0xWallet")
              (Ok balance) (Ok balance) (Ok allowance) (Ok "0xapproval") (Ok tt)
              (Ok (Evm.mkQuote "fast" [("fast", Evm.mkPreset 2 1)]))
              (Ok (Evm.mkPrepared "order" "quote-1"))
              (Ok (Evm.mkInfo "0xhash" "order"))
              (Ok (Evm.mkEscrow "0xfactory" "0xdata" 1000000000000000))
              (Ok "0xescrow") (Ok tt)
              statusAt (fun _ => 100) [] [].

Definition orderNotFoundThenFilled (k : nat) : Result Evm.OrderStatus :=
  match k with
  | O => Throw (Error "Order not found")
  | _ => Ok Evm.Filled
  end.

Definition flakyThenFilled (k : nat) : Result Evm.OrderStatus :=
  match k with
  | O => Throw (Error "socket hang up")
  | 1%nat => Ok Evm.Pending
  | _ => Ok Evm.Filled
  end.

(** A status query that fails with a message containing "Order" is
    not retried: the EVM loop rethrows it although the next query
    would have reported the fill. *)
Lemma order_error_is_rethrown_not_retried :
  Evm.pollLoop (sampleWorld 2000000 2000000 orderNotFoundThenFilled) "0xhash" 0 0
  = ([Fusion (GetOrderStatus "0xhash")], Throw (Error "Order not found"))
  /\ orderNotFoundThenFilled 1 = Ok Evm.Filled.
Proof. split; reflexivity. Qed.

(** C5, amended.  Each polling loop queries the order status, sleeps
    the poll interval after every reply that does not end it, and
    stops at the first terminal reply or when the timeout has elapsed
    at the head of a pass.  In the EVM loops the terminal replies are
    Filled (return), Expired and Cancelled (throw), and a failed query
    is caught and retried unless the thrown value is an Error whose
    message contains "Order", which is rethrown; the timeout throws.
    In the Solana loop the terminal reply is "not active", every
    failed query is caught and retried, and the timeout returns. *)
Theorem polling_loop_retries_and_stops :
  (forall w hash n,
      keepsPolling w 0 0 n ->
      (forall r, clock w 0 0 n < Evm.orderTimeout ->
                 verdict (Evm.statusAt w n) = Some r ->
                 Evm.pollLoop w hash 0 0
                 = (pollTrace hash n ++ [Fusion (GetOrderStatus hash)], r))
      /\ (Evm.orderTimeout <= clock w 0 0 n ->
          Evm.pollLoop w hash 0 0 = (pollTrace hash n, Throw Evm.timeoutError)))
  /\ (forall st, verdict (Ok st) =
                 match st with
                 | Evm.Filled => Some (Ok tt)
                 | Evm.Expired => Some (Throw (Error "Order expired without being filled"))
                 | Evm.Cancelled => Some (Throw (Error "Order was cancelled"))
                 | _ => None
                 end)
  /\ (forall e, isError e = true -> mentionsOrder e -> verdict (Throw e) = Some (Throw e))
  /\ (forall e, ~ (isError e = true /\ mentionsOrder e) -> verdict (Throw e) = None)
  /\ (forall w hash n,
         solKeepsPolling w 0 0 n ->
         (solClock w 0 0 n < Sol.SwapSolToJup.orderTimeout ->
          Sol.statusAt w n = Ok false ->
          Sol.SwapSolToJup.pollLoop w hash 0 0
          = (solPollTrace hash n ++ [Solana (SolGetOrderStatus hash)], Ok tt))
         /\ (Sol.SwapSolToJup.orderTimeout <= solClock w 0 0 n ->
             Sol.SwapSolToJup.pollLoop w hash 0 0 = (solPollTrace hash n, Ok tt)))
  /\ (forall e, inactive (Throw e) = false).
Proof.
  repeat apply conj.
  - intros w hash n Hk. split.
    + intros r Hc Hv. exact (pollLoop_settles w hash n r Hk Hc Hv).
    + intros Hc. exact (pollLoop_times_out w hash n Hk Hc).
  - intros []; reflexivity.
  - intros e He Hm. simpl. now rewrite (proj2 (rethrown_spec e) (conj He Hm)).
  - intros e Hn. simpl. destruct (rethrown e) eqn:E; [|reflexivity].
    apply rethrown_spec in E. contradiction.
  - intros w hash n Hk. rewrite (sol_pollLoop_continues n w hash 0 0 Hk). simpl.
    rewrite sol_pollLoop_unfold. split.
    + intros Hc Hs. apply N.ltb_lt in Hc. rewrite Hc, Hs. reflexivity.
    + intros Hc. apply N.ltb_ge in Hc. rewrite Hc.
      unfold after, ret. simpl. now rewrite app_nil_r.
  - reflexivity.
Qed.

Lemma polling_loop_retries_and_stops_witness :
  Evm.pollLoop (sampleWorld 2000000 2000000 flakyThenFilled) "0xhash" 0 0
  = ([ Fusion (GetOrderStatus "0xhash"); Sleep 3000;
       Fusion (GetOrderStatus "0xhash"); Sleep 3000;
       Fusion (GetOrderStatus "0xhash") ], Ok tt).
Proof.
  destruct polling_loop_retries_and_stops as (H & _).
  destruct (H (sampleWorld 2000000 2000000 flakyThenFilled) "0xhash" 2%nat) as [Hs _].
  - intros [|[|j]] Hj; [split; reflexivity | split; reflexivity | lia].
  - apply (Hs (Ok tt)); reflexivity.
Defined.

End PollingTheorem.

(** ** Exit status of the scripts *)

(** Case analysis on the next reply the script waits for. *)
Ltac step_script :=
  match goal with
  | |- context [match ?x with _ => _ end] =>
      lazymatch x with
      | context [match _ with _ => _ end] => fail
      | _ => let E := fresh "E" in destruct x eqn:E; simpl
      end
  end.

Section ExitStatus.
Import Js Script.
Local Open Scope list_scope.

(** The run exits with status 0 exactly when [P] holds, and with
    status 1 otherwise. *)
Definition exitsZeroIff (r : Run) (P : Prop) : Prop :=
  (exit r = Exit 0 <-> P) /\ (~ P -> exit r = Exit 1).

(** Among the messages that arrive after the order is submitted, and
    before the timer, the first that settles the promise is a fill. *)
Definition filledFirst {Event} (kind : Event -> Kind) (h : string) (evs : list Event) : Prop :=
  exists ev h',
    find (settles Event kind h) (map Tracker.Message evs ++ [Tracker.TimerFired])
    = Some (Tracker.Message ev)
    /\ kind ev = Fill h'.

Lemma exitsZeroIff_intro (main : M unit) (P : Prop) :
  (snd main = Ok tt <-> P) -> exitsZeroIff (entry main) P.
Proof.
  intros H. unfold exitsZeroIff. rewrite exit_entry.
  destruct (snd main) as [[]|e].
  - split; [split; [intros _; now apply H | reflexivity]|].
    intros Hn. exfalso. apply Hn. now apply H.
  - split; [split; [discriminate|] | reflexivity].
    intros HP. apply H in HP. discriminate.
Qed.

Lemma exitsZeroIff_messageOnly (main : M unit) (P : Prop) :
  (snd main = Ok tt <-> P) -> exitsZeroIff (entryMessageOnly main) P.
Proof.
  intros H. unfold exitsZeroIff. rewrite exit_entryMessageOnly.
  destruct (snd main) as [[]|e].
  - split; [split; [intros _; now apply H | reflexivity]|].
    intros Hn. exfalso. apply Hn. now apply H.
  - split; [split; [discriminate|] | reflexivity].
    intros HP. apply H in HP. discriminate.
Qed.

Lemma polling_script_exit (w : Evm.World) (submit : M Evm.OrderInfo) :
  exitsZeroIff
    (entry (bind submit (fun info => Evm.pollLoop w (Evm.orderHash info) 0 0)))
    ((exists t info, submit = (t, Ok info)) /\ filledInTime w).
Proof.
  apply exitsZeroIff_intro. rewrite bind_result_ok. split.
  - intros (t & info & Hs & Hl). apply pollLoop_ok_iff in Hl. eauto.
  - intros [(t & info & Hs) Hf]. exists t, info. split; [assumption|].
    now apply pollLoop_ok_iff.
Qed.

Section Awaiting.
Variable Event : Type.
Variable onEvent : Tracker.State -> Event -> Tracker.State.
Variable kind : Event -> Kind.
Variable cancelError : Thrown.
Hypothesis spec : trackerSpec Event onEvent kind cancelError.

Lemma run_before_hash (evs : list Event) :
  Tracker.run onEvent Tracker.init (map Tracker.Message evs) = Tracker.init.
Proof.
  destruct spec as (_ & Hnone & _).
  unfold Tracker.run. induction evs as [|ev evs IH]; simpl; [reflexivity|].
  rewrite Hnone by reflexivity. exact IH.
Qed.

Lemma resolved_iff_filledFirst (h : string) (evs : list Event) :
  Tracker.promise (Tracker.await onEvent (Tracker.assign h Tracker.init) evs)
  = Tracker.Resolved
  <-> filledFirst kind h evs.
Proof.
  destruct spec as (_ & _ & _ & _ & _ & Hrun).
  unfold Tracker.await. rewrite (Hrun _ h) by reflexivity.
  unfold filledFirst.
  destruct (find (settles Event kind h) (map Tracker.Message evs ++ [Tracker.TimerFired]))
    as [[ev|]|]; simpl.
  - destruct (kind ev) as [h'|h'|] eqn:K.
    + split; [intros _; exists ev, h'; auto | reflexivity].
    + split; [discriminate|]. intros (ev' & h'' & H & K'). injection H as <-. congruence.
    + split; [discriminate|]. intros (ev' & h'' & H & K'). injection H as <-. congruence.
  - split; [discriminate|]. intros (ev' & h'' & H & _). discriminate.
  - split; [discriminate|]. intros (ev' & h'' & H & _). discriminate.
Qed.

End Awaiting.

End ExitStatus.

Section CompletionPromise.
Import Js Script.
Local Open Scope list_scope.

(** The order is filled at once: the order-filled message for its
    hash is delivered while [submitOrder] has not yet returned, and
    nothing comes after. *)
Definition filledBeforeHashIsStored : Evm.World :=
  Evm.mkWorld sampleEnv (fun _ => Ok "0xWallet")
              (Ok 2000000%Z) (Ok 2000000%Z) (Ok 2000000%Z) (Ok "0xapproval") (Ok tt)
              (Ok (Evm.mkQuote "fast" [("fast", Evm.mkPreset 2 1)]))
              (Ok (Evm.mkPrepared "order" "quote-1"))
              (Ok (Evm.mkInfo "0xhash" "order"))
              (Ok (Evm.mkEscrow "0xfactory" "0xdata" 1000000000000000))
              (Ok "0xescrow") (Ok tt)
              (fun _ => Ok Evm.Filled) (fun _ => 100%N)
              [Tracker.Evm.OrderFilled "0xhash"] [].

(** An order-filled event for the submitted order's hash arrives, and
    the promise does not resolve: [orderHash] is still [null] when the
    callback compares, the event is dropped, and the run ends with the
    timeout error and status 1. *)
Lemma fill_before_hash_is_stored_does_not_resolve :
  Evm.orderInfo filledBeforeHashIsStored = Ok (Evm.mkInfo "0xhash" "order")
  /\ Evm.wsBeforeSubmit filledBeforeHashIsStored = [Tracker.Evm.OrderFilled "0xhash"]
  /\ Tracker.Evm.onEvent Tracker.init (Tracker.Evm.OrderFilled "0xhash") = Tracker.init
  /\ snd (EvmWebSocket.main filledBeforeHashIsStored) = Throw Tracker.timeoutError
  /\ exit (EvmWebSocket.script filledBeforeHashIsStored) = Exit 1.
Proof. repeat split. Qed.

(** C7, amended.  In both WebSocket trackers the completion promise
    is settled once, and only by an order-filled event for the stored
    order hash (it resolves), by an order-invalid event (EVM) or
    order-cancelled event (Solana) for that hash (it rejects), or by
    the timer (it rejects with the timeout error).  The hash compared
    against is the variable [orderHash]: while it is still [null] no
    event does anything, and the scripts store it only once
    [submitOrder] (EVM) or [createOrder] (Solana) has returned, so the
    promise that [main] awaits has seen none of the events delivered
    before, not even a fill of the order being submitted.  Events for
    another hash and created, partial-fill and balance-change events
    leave it pending; over a whole run the first settling tick
    decides. *)
Theorem completion_promise_settled_by_terminal_event_or_timer :
  trackerSpec Tracker.Evm.Event Tracker.Evm.onEvent evmKind
              (Error "Order was invalidated or cancelled")
  /\ trackerSpec Tracker.Sol.Event Tracker.Sol.onEvent solKind (Error "Order was cancelled")
  /\ (forall w t s info,
         EvmWebSocket.submit w = (t, Ok (s, info)) ->
         Evm.orderInfo w = Ok info
         /\ s = Tracker.assign (Evm.orderHash info) Tracker.init)
  /\ (forall w t s,
         Sol.WebSocket.submit w = (t, Ok s) ->
         exists order, Sol.order w = Ok order /\ s = Tracker.assign order Tracker.init).
Proof.
  split; [|split; [|split]].
  - apply tracker_spec. exact evm_onEvent_kind.
  - apply tracker_spec. exact sol_onEvent_kind.
  - intros w t s info.
    unfold EvmWebSocket.submit, EthersProvider.createProvider, bind, lift, call, ret, throw.
    rewrite (run_before_hash _ _ _ _ (tracker_spec _ _ _ _ evm_onEvent_kind)
                             (Evm.wsBeforeSubmit w)).
    repeat step_script; intros H; try discriminate H.
    all: injection H as _ <- <-; split; reflexivity.
  - intros w t s.
    unfold Sol.WebSocket.submit, bind, lift, call, ret, throw.
    rewrite (run_before_hash _ _ _ _ (tracker_spec _ _ _ _ sol_onEvent_kind)
                             (Sol.wsBeforeSubmit w)).
    repeat step_script; intros H; try discriminate H.
    all: injection H as _ <-; eexists; split; reflexivity.
Qed.

Lemma completion_promise_settled_by_terminal_event_or_timer_witness :
  Tracker.promise
    (Tracker.run Tracker.Evm.onEvent (Tracker.assign "0xorder" Tracker.init)
                 [ Tracker.Message (Tracker.Evm.OrderFilled "0xother");
                   Tracker.Message (Tracker.Evm.OrderFilledPartially "0xorder");
                   Tracker.Message (Tracker.Evm.OrderFilled "0xorder");
                   Tracker.TimerFired ]) = Tracker.Resolved
  /\ Tracker.promise
       (Tracker.run Tracker.Sol.onEvent (Tracker.assign "order" Tracker.init)
                    [ Tracker.Message (Tracker.Sol.OrderCreated "order");
                      Tracker.Message (Tracker.Sol.OrderCancelled "order");
                      Tracker.Message (Tracker.Sol.OrderFilled "order") ])
     = Tracker.Rejected (Error "Order was cancelled")
  /\ (exists t info,
         EvmWebSocket.submit filledBeforeHashIsStored
         = (t, Ok (Tracker.assign "0xhash" Tracker.init, info))).
Proof.
  destruct completion_promise_settled_by_terminal_event_or_timer as (He & Hs & Hsub & _).
  destruct He as (_ & _ & _ & _ & _ & He).
  destruct Hs as (_ & _ & _ & _ & _ & Hs).
  split; [|split].
  - rewrite (He _ "0xorder") by reflexivity. reflexivity.
  - rewrite (Hs _ "order") by reflexivity. reflexivity.
  - destruct (EvmWebSocket.submit filledBeforeHashIsStored) as [t [[s info]|e]] eqn:E;
      [|discriminate E].
    destruct (Hsub _ _ _ _ E) as [Hi ->].
    injection Hi as <-. exists t. eexists. reflexivity.
Defined.

End CompletionPromise.

Section ExitStatusTheorem.
Import Js Script.
Local Open Scope list_scope.
Local Open Scope Z_scope.

Lemma evm_ws_submit_state w t s info :
  EvmWebSocket.submit w = (t, Ok (s, info)) ->
  s = Tracker.assign (Evm.orderHash info) Tracker.init.
Proof.
  rewrite <- (run_before_hash _ _ _ _ (tracker_spec _ _ _ _ evm_onEvent_kind)
                              (Evm.wsBeforeSubmit w)).
  unfold EvmWebSocket.submit, bind, lift, call, ret, throw.
  repeat step_script; intros H; try discriminate H.
  all: injection H as _ <- <-; reflexivity.
Qed.

Lemma sol_ws_submit_state w t s :
  Sol.WebSocket.submit w = (t, Ok s) ->
  exists h, Sol.order w = Ok h /\ s = Tracker.assign h Tracker.init.
Proof.
  rewrite <- (run_before_hash _ _ _ _ (tracker_spec _ _ _ _ sol_onEvent_kind)
                              (Sol.wsBeforeSubmit w)).
  unfold Sol.WebSocket.submit, bind, lift, call, ret, throw.
  repeat step_script; intros H; try discriminate H.
  injection H as _ <-. eauto.
Qed.

Lemma evm_awaited_ok (s : Tracker.State) :
  EvmWebSocket.awaited s = Ok tt <-> Tracker.promise s = Tracker.Resolved.
Proof.
  unfold EvmWebSocket.awaited. destruct (Tracker.promise s); split; congruence.
Qed.

Lemma sol_awaited_ok (s : Tracker.State) :
  Sol.WebSocket.awaited s = Ok tt <-> Tracker.promise s = Tracker.Resolved.
Proof.
  unfold Sol.WebSocket.awaited. destruct (Tracker.promise s); split; congruence.
Qed.

Lemma evm_ws_exit (w : Evm.World) :
  exitsZeroIff (EvmWebSocket.script w)
    (exists t s info,
        EvmWebSocket.submit w = (t, Ok (s, info))
        /\ filledFirst evmKind (Evm.orderHash info) (Evm.wsAfterSubmit w)).
Proof.
  apply exitsZeroIff_messageOnly. unfold EvmWebSocket.main.
  rewrite bind_result_ok. split.
  - intros (t & [s info] & Hs & Ha). exists t, s, info. split; [assumption|].
    simpl in Ha. apply evm_awaited_ok in Ha.
    rewrite (evm_ws_submit_state w t s info Hs) in Ha.
    now apply (resolved_iff_filledFirst _ _ _ _ (tracker_spec _ _ _ _ evm_onEvent_kind)) in Ha.
  - intros (t & s & info & Hs & Hf). exists t, (s, info). split; [assumption|].
    simpl. apply evm_awaited_ok.
    rewrite (evm_ws_submit_state w t s info Hs).
    now apply (resolved_iff_filledFirst _ _ _ _ (tracker_spec _ _ _ _ evm_onEvent_kind)).
Qed.

Lemma sol_ws_exit (w : Sol.World) :
  exitsZeroIff (Sol.WebSocket.script w)
    (exists t s h,
        Sol.WebSocket.submit w = (t, Ok s) /\ Sol.order w = Ok h
        /\ filledFirst solKind h (Sol.wsAfterSubmit w)).
Proof.
  apply exitsZeroIff_intro. unfold Sol.WebSocket.main.
  rewrite bind_result_ok. split.
  - intros (t & s & Hs & Ha). destruct (sol_ws_submit_state w t s Hs) as (h & Ho & ->).
    exists t, (Tracker.assign h Tracker.init), h. repeat split; try assumption.
    simpl in Ha. apply sol_awaited_ok in Ha.
    now apply (resolved_iff_filledFirst _ _ _ _ (tracker_spec _ _ _ _ sol_onEvent_kind)) in Ha.
  - intros (t & s & h & Hs & Ho & Hf). exists t, s. split; [assumption|].
    destruct (sol_ws_submit_state w t s Hs) as (h' & Ho' & ->).
    assert (h' = h) as -> by congruence.
    simpl. apply sol_awaited_ok.
    now apply (resolved_iff_filledFirst _ _ _ _ (tracker_spec _ _ _ _ sol_onEvent_kind)).
Qed.

Lemma sol_polling_exit (w : Sol.World) :
  exitsZeroIff (Sol.SwapSolToJup.script w)
               (exists t h, Sol.SwapSolToJup.submit w = (t, Ok h)).
Proof.
  apply exitsZeroIff_intro. unfold Sol.SwapSolToJup.main.
  rewrite bind_result_ok. split.
  - intros (t & h & Hs & _). eauto.
  - intros (t & h & Hs). exists t, h. split; [assumption|]. apply sol_pollLoop_returns.
Qed.

Lemma entryCatchLog_never_exits (main : M unit) :
  exit (entryCatchLog main) = Drained.
Proof. now destruct main as [t [[]|e]]. Qed.

(** A Solana world in which the escrow is created and the order then
    stays active for as long as the script asks. *)
Definition activeForever : Sol.World :=
  Sol.mkWorld (SolConnection.mkEnv (Some "key") (Some "secret") None)
              sampleCodecs (fun _ => "?") (Ok 1000000000) (Ok "order-hash")
              (Ok "blockhash") (Ok "signature") (Ok None)
              (fun _ => Ok true) (fun _ => 0%N) (fun _ => Ok None) [] [].

(** The Solana polling script runs into its timeout, with the order
    never reported as anything but active, and exits with status 0. *)
Lemma solana_timeout_exits_zero :
  exit (Sol.SwapSolToJup.script activeForever) = Exit 0
  /\ statusCode (exit (Sol.SwapSolToJup.script activeForever)) = 0
  /\ List.length (filter (fun a => match a with
                                   | Solana (SolGetOrderStatus _) => true
                                   | _ => false
                                   end)
                         (trace (Sol.SwapSolToJup.script activeForever))) = 150%nat.
Proof. vm_compute. repeat split. Qed.

(** C1, amended.  The three EVM polling scripts and the two WebSocket
    scripts exit with status 0 exactly when the script got as far as
    submitting the order and the SDK then reported the fill (a Filled
    status in time, or an order-filled event for the order's hash
    before any other settling event and before the timer), and with
    status 1 in every other outcome.  The Solana polling script exits
    with status 0 whenever it got as far as creating the escrow,
    whatever the status queries answer, and with status 1 otherwise.
    The two quick-start scripts never call [process.exit]. *)
Theorem exit_status_of_each_script :
  (forall w, exitsZeroIff (Evm.SwapErc20.script w)
               ((exists t info, Evm.SwapErc20.submit w = (t, Ok info)) /\ filledInTime w))
  /\ (forall w, exitsZeroIff (Evm.SwapPermit2.script w)
                  ((exists t info, Evm.SwapPermit2.submit w = (t, Ok info))
                   /\ filledInTime w))
  /\ (forall w, exitsZeroIff (Evm.SwapNative.script w)
                  ((exists t info, Evm.SwapNative.submit w = (t, Ok info))
                   /\ filledInTime w))
  /\ (forall w, exitsZeroIff (EvmWebSocket.script w)
                  (exists t s info,
                      EvmWebSocket.submit w = (t, Ok (s, info))
                      /\ filledFirst evmKind (Evm.orderHash info) (Evm.wsAfterSubmit w)))
  /\ (forall w, exitsZeroIff (Sol.WebSocket.script w)
                  (exists t s h,
                      Sol.WebSocket.submit w = (t, Ok s) /\ Sol.order w = Ok h
                      /\ filledFirst solKind h (Sol.wsAfterSubmit w)))
  /\ (forall w, exitsZeroIff (Sol.SwapSolToJup.script w)
                  (exists t h, Sol.SwapSolToJup.submit w = (t, Ok h)))
  /\ (forall w code, exit (EvmQuickStart.script w) <> Exit code)
  /\ (forall w code, exit (Sol.QuickStart.script w) <> Exit code).
Proof.
  repeat apply conj.
  - intros w. exact (polling_script_exit w (Evm.SwapErc20.submit w)).
  - intros w. exact (polling_script_exit w (Evm.SwapPermit2.submit w)).
  - intros w. exact (polling_script_exit w (Evm.SwapNative.submit w)).
  - exact evm_ws_exit.
  - exact sol_ws_exit.
  - exact sol_polling_exit.
  - intros w code. unfold EvmQuickStart.script.
    repeat step_script; try discriminate.
    rewrite entryCatchLog_never_exits. discriminate.
  - intros w code. unfold Sol.QuickStart.script.
    repeat step_script; try discriminate.
    rewrite entryCatchLog_never_exits. discriminate.
Qed.

Lemma exit_status_of_each_script_witness :
  exit (Evm.SwapErc20.script (sampleWorld 2000000 2000000 flakyThenFilled)) = Exit 0.
Proof.
  destruct exit_status_of_each_script as (H & _).
  destruct (H (sampleWorld 2000000 2000000 flakyThenFilled)) as [[_ Hz] _].
  apply Hz. split.
  - eexists. eexists. reflexivity.
  - exists 2%nat. split; [|split; reflexivity].
    intros [|[|j]] Hj; [split; reflexivity | split; reflexivity | lia].
Defined.

End ExitStatusTheorem.

(** ** Balance and allowance checks *)

Section BalanceCheck.
Import Js Types Interface Script.
Local Open Scope list_scope.
Local Open Scope Z_scope.







End BalanceCheck.

Section AllowanceCheck.
Import Js Types Interface Script.
Local Open Scope list_scope.
Local Open Scope Z_scope.

(** Step 1 of an EVM script succeeds, and the wallet is [wallet]. *)
Definition setupOk (w : Evm.World) (wallet : string) : Prop :=
  exists config sdk,
    loadConfig (Evm.env w) = Ok config
    /\ Evm.derive w (privateKey config) = Ok wallet
    /\ createFusionSDK config = Ok sdk.

Definition readBalance (token wallet : string) : Action :=
  Rpc (ReadContract token (findFunction "balanceOf" EthersProvider.ERC20_ABI) [wallet]).

Definition readAllowance (token wallet spender : string) : Action :=
  Rpc (ReadContract token (findFunction "allowance" EthersProvider.ERC20_ABI)
                    [wallet; spender]).

Definition sendApproval (token wallet spender : string) (amount : Z) : Action :=
  Rpc (WriteContract wallet token (findFunction "approve" EthersProvider.ERC20_ABI)
                     [spender] amount).

(** A funded wallet that has approved nothing; the order fills at once. *)
Definition noAllowance : Evm.World :=
  sampleWorld 2000000 0 (fun _ => Ok Evm.Filled).

(** With an allowance of 0 the ERC-20 script throws nothing: it sends
    the approval, goes on, and ends normally. *)
Lemma low_allowance_is_approved_not_thrown :
  Evm.tokenAllowance noAllowance = Ok 0
  /\ Evm.SwapErc20.main noAllowance
     = ([ readBalance TOKENS.USDC "0xWallet";
          readAllowance TOKENS.USDC "0xWallet" CONTRACTS.AGGREGATION_ROUTER_V6;
          sendApproval TOKENS.USDC "0xWallet" CONTRACTS.AGGREGATION_ROUTER_V6 1000000;
          Rpc (WaitForReceipt "0xapproval");
          Fusion (GetQuote (Evm.SwapErc20.quoteParams "0xWallet"));
          Fusion (CreateOrder (Evm.SwapErc20.quoteParams "0xWallet"));
          Fusion (SubmitOrder "order" "quote-1");
          Fusion (GetOrderStatus "0xhash") ], Ok tt)
  /\ exit (Evm.SwapErc20.script noAllowance) = Exit 0.
Proof. repeat split. Qed.

Lemma bind_trace_prefix {A B} (m : M A) (k : A -> M B) :
  exists rest, fst (bind m k) = fst m ++ rest.
Proof.
  destruct m as [t [a|e]]; simpl.
  - destruct (k a) as [t' r]. now exists t'.
  - exists []. now rewrite app_nil_r.
Qed.

Lemma trace_prefix_bind {A B} (m : M A) (k : A -> M B) (prefix : list Action) :
  (exists rest, fst m = prefix ++ rest) ->
  exists rest, fst (bind m k) = prefix ++ rest.
Proof.
  intros [rest H]. destruct (bind_trace_prefix m k) as [rest' H'].
  exists (rest ++ rest'). now rewrite H', H, app_assoc.
Qed.

(** The errors of the two explicit checks. *)
Definition insufficientBalance (have need : Z) : Thrown :=
  Error ("Insufficient USDC balance. "
         ++ "Have: " ++ formatAmount have 6 ++ ", " ++ "Need: " ++ formatAmount need 6).

Definition insufficientEth (have need : Z) : Thrown :=
  Error ("Insufficient ETH balance. Have: " ++ formatAmount have 18 ++ " ETH, "
         ++ "Need: " ++ formatAmount need 18 ++ " ETH (including gas buffer)").

Definition presetNotFound (q : Evm.Quote) (tail : string) : Thrown :=
  Error ("Preset " ++ Evm.dquote ++ Evm.recommendedPreset q ++ Evm.dquote ++ tail).

(** The quote names a recommended preset that is not among its presets. *)
Definition presetMissing (q : Evm.Quote) : Prop :=
  lookup (Evm.recommendedPreset q) (Evm.presets q) = None.

(** The calls of a token script from the balance read to the quote,
    for an allowance [a]: the approval and the wait for it are made
    only when [a] is below [amount]. *)
Definition upToQuote (wallet spender tx : string) (amount approved a : Z)
           (params : QuoteParams) : list Action :=
  [ readBalance TOKENS.USDC wallet; readAllowance TOKENS.USDC wallet spender ]
  ++ (if a <? amount
      then [ sendApproval TOKENS.USDC wallet spender approved; Rpc (WaitForReceipt tx) ]
      else [])
  ++ [ Fusion (GetQuote params) ].

(** C3, amended.  In a run of an EVM token swap script (ERC-20,
    Permit2, WebSocket) in which the balance suffices and the
    allowance returned by getTokenAllowance is below the swap amount,
    no error is thrown for that: the script calls approveToken (the
    swap amount for the router; the maximal uint256 for Permit2 in the
    Permit2 script), waits for that transaction, and goes on to
    request the quote.  The explicit checks that do throw descriptive
    errors are the balance check, right after the balance read
    ("Insufficient USDC balance. Have: ..., Need: ...", and
    "Insufficient ETH balance. ..." in the native-token script), and
    the preset check, right after the quote, when the recommended
    preset is not among the quote's presets ("Preset ... not found in
    quote response", and "Preset ... not found" in the WebSocket
    script, which closes its socket before either throw). *)
Theorem low_allowance_leads_to_approval (w : Evm.World) (wallet tx : string) (b a : Z) :
  setupOk w wallet ->
  Evm.tokenBalance w = Ok b ->
  Evm.tokenAllowance w = Ok a ->
  Evm.approval w = Ok tx ->
  Evm.approvalReceipt w = Ok tt ->
  (1000000 <= b -> a < 1000000 ->
   exists rest,
     fst (Evm.SwapErc20.main w)
     = [ readBalance TOKENS.USDC wallet;
         readAllowance TOKENS.USDC wallet CONTRACTS.AGGREGATION_ROUTER_V6;
         sendApproval TOKENS.USDC wallet CONTRACTS.AGGREGATION_ROUTER_V6 1000000;
         Rpc (WaitForReceipt tx);
         Fusion (GetQuote (Evm.SwapErc20.quoteParams wallet)) ] ++ rest)
  /\ (10000000 <= b -> a < 10000000 ->
      exists rest,
        fst (Evm.SwapPermit2.main w)
        = [ readBalance TOKENS.USDC wallet;
            readAllowance TOKENS.USDC wallet CONTRACTS.PERMIT2;
            sendApproval TOKENS.USDC wallet CONTRACTS.PERMIT2 (2 ^ 256 - 1);
            Rpc (WaitForReceipt tx);
            Fusion (GetQuote (Evm.SwapPermit2.quoteParams wallet)) ] ++ rest)
  /\ (1000000 <= b -> a < 1000000 ->
      exists rest,
        fst (EvmWebSocket.main w)
        = [ readBalance TOKENS.USDC wallet;
            readAllowance TOKENS.USDC wallet CONTRACTS.AGGREGATION_ROUTER_V6;
            sendApproval TOKENS.USDC wallet CONTRACTS.AGGREGATION_ROUTER_V6 1000000;
            Rpc (WaitForReceipt tx);
            Fusion (GetQuote (EvmWebSocket.quoteParams wallet)) ] ++ rest)
  /\ (b < 1000000 ->
      Evm.SwapErc20.main w
      = ([ readBalance TOKENS.USDC wallet ], Throw (insufficientBalance b 1000000)))
  /\ (b < 10000000 ->
      Evm.SwapPermit2.main w
      = ([ readBalance TOKENS.USDC wallet ], Throw (insufficientBalance b 10000000)))
  /\ (b < 1000000 ->
      EvmWebSocket.main w
      = ([ readBalance TOKENS.USDC wallet; WsClose ],
         Throw (insufficientBalance b 1000000)))
  /\ (forall q,
         Evm.quote w = Ok q -> presetMissing q ->
         (1000000 <= b ->
          Evm.SwapErc20.main w
          = (upToQuote wallet CONTRACTS.AGGREGATION_ROUTER_V6 tx 1000000 1000000 a
                       (Evm.SwapErc20.quoteParams wallet),
             Throw (presetNotFound q " not found in quote response")))
         /\ (10000000 <= b ->
             Evm.SwapPermit2.main w
             = (upToQuote wallet CONTRACTS.PERMIT2 tx 10000000 (2 ^ 256 - 1) a
                          (Evm.SwapPermit2.quoteParams wallet),
                Throw (presetNotFound q " not found in quote response")))
         /\ (1000000 <= b ->
             EvmWebSocket.main w
             = (upToQuote wallet CONTRACTS.AGGREGATION_ROUTER_V6 tx 1000000 1000000 a
                          (EvmWebSocket.quoteParams wallet) ++ [ WsClose ],
                Throw (presetNotFound q " not found"))))
  /\ (forall bn,
         Evm.nativeBalance w = Ok bn ->
         (bn < 6000000000000000 ->
          Evm.SwapNative.main w
          = ([ Rpc (GetBalance wallet) ], Throw (insufficientEth bn 6000000000000000)))
         /\ (forall q,
                6000000000000000 <= bn -> Evm.quote w = Ok q -> presetMissing q ->
                Evm.SwapNative.main w
                = ([ Rpc (GetBalance wallet);
                     Fusion (GetQuote (Evm.SwapNative.quoteParams wallet)) ],
                   Throw (presetNotFound q " not found in quote response")))).
Proof.
  intros (config & sdk & Hc & Hd & Hs) Hb Ha Htx Hr.
  split; [|split; [|split; [|split; [|split; [|split; [|split]]]]]].
  - intros Hge Hlt. apply Z.ltb_ge in Hge. apply Z.ltb_lt in Hlt.
    unfold Evm.SwapErc20.main. apply trace_prefix_bind.
    unfold Evm.SwapErc20.submit, EthersProvider.createProvider,
      Evm.SwapErc20.amountBigInt, bind, lift, call.
    rewrite Hc, Hd, Hs, Hb, Hge, Ha, Hlt, Htx, Hr.
    repeat step_script; eexists; reflexivity.
  - intros Hge Hlt. apply Z.ltb_ge in Hge. apply Z.ltb_lt in Hlt.
    unfold Evm.SwapPermit2.main. apply trace_prefix_bind.
    unfold Evm.SwapPermit2.submit, EthersProvider.createProvider,
      Evm.SwapPermit2.amountBigInt, Evm.SwapPermit2.MAX_UINT256, bind, lift, call.
    rewrite Hc, Hd, Hs, Hb, Hge, Ha, Hlt, Htx, Hr.
    repeat step_script; eexists; reflexivity.
  - intros Hge Hlt. apply Z.ltb_ge in Hge. apply Z.ltb_lt in Hlt.
    unfold EvmWebSocket.main. apply trace_prefix_bind.
    unfold EvmWebSocket.submit, EthersProvider.createProvider,
      EvmWebSocket.amountBigInt, bind, lift, call.
    rewrite Hc, Hd, Hs, Hb, Hge, Ha, Hlt, Htx, Hr.
    repeat step_script; eexists; reflexivity.
  - intros Hlt. apply Z.ltb_lt in Hlt. unfold Evm.SwapErc20.main.
    apply bind_throw.
    unfold Evm.SwapErc20.submit, EthersProvider.createProvider,
      Evm.SwapErc20.amountBigInt, bind, lift, call.
    rewrite Hc, Hd, Hs, Hb, Hlt. reflexivity.
  - intros Hlt. apply Z.ltb_lt in Hlt. unfold Evm.SwapPermit2.main.
    apply bind_throw.
    unfold Evm.SwapPermit2.submit, EthersProvider.createProvider,
      Evm.SwapPermit2.amountBigInt, bind, lift, call.
    rewrite Hc, Hd, Hs, Hb, Hlt. reflexivity.
  - intros Hlt. apply Z.ltb_lt in Hlt. unfold EvmWebSocket.main.
    apply bind_throw.
    unfold EvmWebSocket.submit, EthersProvider.createProvider,
      EvmWebSocket.amountBigInt, bind, lift, call.
    rewrite Hc, Hd, Hs, Hb, Hlt. reflexivity.
  - intros q Hq Hp. unfold presetMissing in Hp. unfold upToQuote.
    split; [|split]; intros Hge; apply Z.ltb_ge in Hge.
    + unfold Evm.SwapErc20.main. apply bind_throw.
      unfold Evm.SwapErc20.submit, EthersProvider.createProvider,
        Evm.SwapErc20.amountBigInt, bind, lift, call, ret, throw.
      rewrite Hc, Hd, Hs, Hb, Hge, Ha, Htx, Hr, Hq, Hp.
      destruct (a <? 1000000); reflexivity.
    + unfold Evm.SwapPermit2.main. apply bind_throw.
      unfold Evm.SwapPermit2.submit, EthersProvider.createProvider,
        Evm.SwapPermit2.amountBigInt, Evm.SwapPermit2.MAX_UINT256,
        bind, lift, call, ret, throw.
      rewrite Hc, Hd, Hs, Hb, Hge, Ha, Htx, Hr, Hq, Hp.
      destruct (a <? 10000000); reflexivity.
    + unfold EvmWebSocket.main. apply bind_throw.
      unfold EvmWebSocket.submit, EthersProvider.createProvider,
        EvmWebSocket.amountBigInt, bind, lift, call, ret, throw.
      rewrite Hc, Hd, Hs, Hb, Hge, Ha, Htx, Hr, Hq, Hp.
      destruct (a <? 1000000); reflexivity.
  - intros bn Hbn. split.
    + intros Hlt. apply Z.ltb_lt in Hlt. unfold Evm.SwapNative.main.
      apply bind_throw.
      unfold Evm.SwapNative.submit, EthersProvider.createProvider,
        Evm.SwapNative.amountBigInt, Evm.SwapNative.gasBuffer, bind, lift, call.
      rewrite Hc, Hd, Hs, Hbn. cbn [Z.add Pos.add Pos.succ Pos.add_carry].
      rewrite Hlt. reflexivity.
    + intros q Hge Hq Hp. apply Z.ltb_ge in Hge. unfold presetMissing in Hp.
      unfold Evm.SwapNative.main. apply bind_throw.
      unfold Evm.SwapNative.submit, EthersProvider.createProvider,
        Evm.SwapNative.amountBigInt, Evm.SwapNative.gasBuffer, bind, lift, call, throw.
      rewrite Hc, Hd, Hs, Hbn. cbn [Z.add Pos.add Pos.succ Pos.add_carry].
      rewrite Hge, Hq, Hp. reflexivity.
Qed.

(** A quote that recommends a preset it does not carry. *)
Definition quoteWithoutPreset : Evm.Quote :=
  Evm.mkQuote "fast" [("slow", Evm.mkPreset 2 1)].

Definition presetlessWorld : Evm.World :=
  Evm.mkWorld sampleEnv (fun _ => Ok "0xWallet")
              (Ok 20000000) (Ok 20000000) (Ok 5) (Ok "0xapproval") (Ok tt)
              (Ok quoteWithoutPreset)
              (Ok (Evm.mkPrepared "order" "quote-1"))
              (Ok (Evm.mkInfo "0xhash" "order"))
              (Ok (Evm.mkEscrow "0xfactory" "0xdata" 1000000000000000))
              (Ok "0xescrow") (Ok tt)
              (fun _ => Ok Evm.Filled) (fun _ => 100%N) [] [].

Lemma low_allowance_leads_to_approval_witness :
  (exists rest,
      fst (Evm.SwapPermit2.main (sampleWorld 20000000 5 (fun _ => Ok Evm.Filled)))
      = [ readBalance TOKENS.USDC "0xWallet";
          readAllowance TOKENS.USDC "0xWallet" CONTRACTS.PERMIT2;
          sendApproval TOKENS.USDC "0xWallet" CONTRACTS.PERMIT2 (2 ^ 256 - 1);
          Rpc (WaitForReceipt "0xapproval");
          Fusion (GetQuote (Evm.SwapPermit2.quoteParams "0xWallet")) ] ++ rest)
  /\ Evm.SwapPermit2.main presetlessWorld
     = ([ readBalance TOKENS.USDC "0xWallet";
          readAllowance TOKENS.USDC "0xWallet" CONTRACTS.PERMIT2;
          sendApproval TOKENS.USDC "0xWallet" CONTRACTS.PERMIT2 (2 ^ 256 - 1);
          Rpc (WaitForReceipt "0xapproval");
          Fusion (GetQuote (Evm.SwapPermit2.quoteParams "0xWallet")) ],
        Throw (Error ("Preset " ++ Evm.dquote ++ "fast" ++ Evm.dquote
                      ++ " not found in quote response"))).
Proof.
  split.
  - destruct (low_allowance_leads_to_approval
                (sampleWorld 20000000 5 (fun _ => Ok Evm.Filled))
                "0xWallet" "0xapproval" 20000000 5) as (_ & H & _);
      try reflexivity.
    + do 2 eexists. repeat split; reflexivity.
    + apply H; lia.
  - assert (Hsetup : setupOk presetlessWorld "0xWallet")
      by (do 2 eexists; repeat split; reflexivity).
    destruct (low_allowance_leads_to_approval
                presetlessWorld "0xWallet" "0xapproval" 20000000 5
                Hsetup eq_refl eq_refl eq_refl eq_refl)
      as (_ & _ & _ & _ & _ & _ & H & _).
    destruct (H quoteWithoutPreset eq_refl eq_refl) as (_ & Hp & _).
    rewrite Hp by lia. reflexivity.
Defined.

End AllowanceCheck.

(** ** The top-level handlers *)

Section TopLevelHandler.
Import Js Types Interface Script.
Local Open Scope list_scope.
Local Open Scope Z_scope.








End TopLevelHandler.

(* ===================================================================== *)
(** * Further properties of the code *)
(* ===================================================================== *)

(** ** Configuration loading *)

Section Configuration.
Import Js Types Interface Script.
Local Open Scope list_scope.

(** An environment variable that is set to a non-empty string. *)
Definition isSet (x : option string) (v : string) : Prop :=
  x = Some v /\ v <> "".

Lemma missing_false (x : option string) :
  missing x = false <-> exists v, isSet x v.
Proof.
  unfold isSet. destruct x as [[|c s]|]; simpl; split; try discriminate.
  - intros (v & H & Hv). injection H as <-. now destruct Hv.
  - intros _. exists (String c s). split; [reflexivity | discriminate].
  - reflexivity.
  - intros (v & H & _). discriminate.
Qed.

Lemma orDefault_set (x : option string) (v d : string) :
  isSet x v -> orDefault x d = v.
Proof. intros [-> Hv]. destruct v; [now destruct Hv | reflexivity]. Qed.

Lemma orDefault_missing (x : option string) (d : string) :
  missing x = true -> orDefault x d = d.
Proof. destruct x as [[|c s]|]; simpl; try reflexivity. discriminate. Qed.

(** [loadConfig] of the EVM scripts returns a configuration exactly
    when API_KEY is set and non-empty and EVM_PRIVATE_KEY starts with
    [0x]; the network defaults to "1" and the RPC URL to the gateway URL
    of the network, also for variables set to the empty string; the
    network ID itself is not checked.  A missing API_KEY is reported
    before anything about the private key. *)
Theorem loadConfig_accepts_and_defaults (env : ProcessEnv) :
  (forall c,
      loadConfig env = Ok c <->
      exists k pk rest,
        isSet (API_KEY env) k
        /\ EVM_PRIVATE_KEY env = Some pk /\ pk = "0x" ++ rest
        /\ c = mkConfig k pk
                 (orDefault (EVM_RPC_URL env)
                            (getDefaultRpcUrl (orDefault (EVM_NETWORK_ID env) "1")))
                 (orDefault (EVM_NETWORK_ID env) "1"))%string
  /\ (missing (API_KEY env) = true ->
      loadConfig env = Throw (Error "Missing required environment variable: API_KEY"))
  /\ (missing (API_KEY env) = false -> missing (EVM_PRIVATE_KEY env) = true ->
      loadConfig env = Throw (Error "Missing required environment variable: EVM_PRIVATE_KEY"))
  /\ (missing (API_KEY env) = false ->
      forall pk, isSet (EVM_PRIVATE_KEY env) pk -> startsWith "0x" pk = false ->
      loadConfig env = Throw (Error "EVM_PRIVATE_KEY must start with 0x")).
Proof.
  repeat apply conj.
  - intros c. unfold loadConfig. split.
    + destruct (missing (API_KEY env)) eqn:Ha; [discriminate|].
      destruct (missing (EVM_PRIVATE_KEY env)) eqn:Hp; [discriminate|].
      apply missing_false in Ha as [k Hk]. apply missing_false in Hp as [pk Hpk].
      rewrite (orDefault_set _ _ _ Hpk), (orDefault_set _ _ _ Hk).
      destruct (startsWith "0x" pk) eqn:Hs; [|discriminate]. simpl.
      intros H. injection H as <-.
      apply startsWith_spec in Hs as [rest Hs].
      exists k, pk, rest. repeat split; try assumption; apply Hk || apply Hpk.
    + intros (k & pk & rest & Hk & Hpk & Hrest & ->).
      assert (Hpk' : isSet (EVM_PRIVATE_KEY env) pk).
      { split; [assumption|]. rewrite Hrest. discriminate. }
      rewrite (proj2 (missing_false _) (ex_intro _ k Hk)).
      rewrite (proj2 (missing_false _) (ex_intro _ pk Hpk')).
      rewrite (orDefault_set _ _ _ Hpk'), (orDefault_set _ _ _ Hk).
      assert (startsWith "0x" pk = true) as -> by (apply startsWith_spec; eauto).
      reflexivity.
  - intros Ha. unfold loadConfig. now rewrite Ha.
  - intros Ha Hp. unfold loadConfig. now rewrite Ha, Hp.
  - intros Ha pk Hpk Hs. unfold loadConfig.
    rewrite Ha, (proj2 (missing_false _) (ex_intro _ pk Hpk)).
    rewrite (orDefault_set _ _ _ Hpk), Hs. reflexivity.
Qed.

Lemma loadConfig_accepts_and_defaults_witness :
  loadConfig (mkEnv (Some "key") (Some "0xabc") (Some "") None)
  = Ok (mkConfig "key" "0xabc" "https://api.1inch.com/web3/1" "1")
  /\ loadConfig (mkEnv (Some "") None None None)
     = Throw (Error "Missing required environment variable: API_KEY").
Proof.
  destruct (loadConfig_accepts_and_defaults
              (mkEnv (Some "key") (Some "0xabc") (Some "") None)) as (H & _).
  destruct (loadConfig_accepts_and_defaults (mkEnv (Some "") None None None))
    as (_ & H' & _).
  split.
  - apply H. exists "key", "0xabc", "abc".
    repeat split; discriminate.
  - apply H'. reflexivity.
Defined.






End Configuration.

Section DefaultGateway.
Import Js Types Interface Script.
Local Open Scope list_scope.

Lemma default_url_is_gateway (networkId : string) :
  is1inchGateway (getDefaultRpcUrl networkId) = true.
Proof.
  apply is1inchGateway_spec. exists "https://", ("/" ++ networkId)%string. reflexivity.
Qed.

(** When EVM_RPC_URL is unset or empty, the configuration that
    [loadConfig] returns points at the gateway, so the provider built
    from it (ethers or viem) sends [Authorization: Bearer API_KEY] with
    every RPC request; the same holds for the Solana connection when
    SOLANA_RPC_URL is unset or empty. *)
Theorem default_rpc_url_gets_the_api_key :
  (forall env config derive p,
      loadConfig env = Ok config ->
      missing (EVM_RPC_URL env) = true ->
      (EthersProvider.createProvider derive config = Ok p
       \/ ViemProvider.createProvider derive config = Ok p) ->
      API_KEY env = Some (apiKey config)
      /\ transport p = mkTransport (getDefaultRpcUrl (networkId config))
                                   [bearer (apiKey config)])
  /\ (forall env config codecs conn wallet,
         SolConnection.loadConfig env = Ok config ->
         missing (SolConnection.SOLANA_RPC_URL env) = true ->
         SolConnection.createWallet codecs config = Ok (conn, wallet) ->
         SolConnection.API_KEY env = Some (SolConnection.apiKey config)
         /\ SolConnection.endpoint conn = "https://api.1inch.com/web3/501"
         /\ SolConnection.httpHeaders conn = [bearer (SolConnection.apiKey config)]).
Proof.
  split.
  - intros env config derive p Hc Hm Hp.
    destruct (loadConfig_accepts_and_defaults env) as (Hiff & _).
    apply Hiff in Hc as (k & pk & rest & Hk & Hpk & Hrest & ->).
    rewrite (orDefault_missing _ _ Hm) in *. simpl apiKey. simpl networkId.
    split; [apply Hk|].
    destruct Hp as [Hp|Hp].
    + unfold EthersProvider.createProvider in Hp.
      cbn [rpcUrl apiKey privateKey networkId] in Hp.
      rewrite default_url_is_gateway in Hp.
      destruct (derive pk); [|discriminate]. injection Hp as <-. reflexivity.
    + unfold ViemProvider.createProvider in Hp.
      cbn [rpcUrl apiKey privateKey networkId] in Hp.
      rewrite default_url_is_gateway in Hp.
      destruct (lookup _ ViemProvider.VIEM_CHAIN_MAP); [|discriminate].
      destruct (derive pk); [|discriminate]. injection Hp as <-. reflexivity.
  - intros env config codecs conn wallet Hc Hm Hw.
    unfold SolConnection.loadConfig in Hc.
    destruct (missing (SolConnection.API_KEY env)) eqn:Ha; [discriminate|].
    destruct (missing (SolConnection.SOLANA_PRIVATE_KEY env)); [discriminate|].
    injection Hc as <-. rewrite (orDefault_missing _ _ Hm) in Hw.
    apply missing_false in Ha as [k Hk]. rewrite (orDefault_set _ _ _ Hk) in *.
    simpl. split; [apply Hk|].
    unfold SolConnection.createWallet in Hw. simpl in Hw.
    destruct (SolConnection.decodeSecretKey _ _); [|discriminate].
    destruct (SolConnection.fromSecretKey _ _); [|discriminate].
    injection Hw as <- _. split; reflexivity.
Qed.

Lemma default_rpc_url_gets_the_api_key_witness :
  exists p,
    ViemProvider.createProvider sampleDerive
      (mkConfig "key" "0xabc" "https://api.1inch.com/web3/137" "137") = Ok p
    /\ transport p = mkTransport "https://api.1inch.com/web3/137" [bearer "key"].
Proof.
  eexists. split; [reflexivity|].
  destruct default_rpc_url_gets_the_api_key as [H _].
  refine (proj2 (H (mkEnv (Some "key") (Some "0xabc") (Some "137") None)
                   _ sampleDerive _ eq_refl eq_refl (or_intror eq_refl))).
Defined.

Lemma lookup_Some_In {V : Type} (k : string) (m : list (string * V)) (v : V) :
  lookup k m = Some v -> In k (keys m).
Proof.
  induction m as [|[k' v'] m IH]; simpl; [discriminate|].
  destruct (String.eqb_spec k k') as [->|_]; [now left|]. intros H. right. now apply IH.
Qed.

(** Every network the viem provider accepts is a network the SDK
    factory accepts, and Unichain ("130") is the only network the SDK
    factory accepts that the viem provider refuses. *)
Theorem viem_networks_are_sdk_networks (derive : string -> Result string) (config : Config) :
  ((exists p, ViemProvider.createProvider derive config = Ok p) ->
   exists sdk, createFusionSDK config = Ok sdk)
  /\ ((exists sdk, createFusionSDK config = Ok sdk) ->
      lookup (networkId config) ViemProvider.VIEM_CHAIN_MAP = None ->
      networkId config = "130").
Proof.
  unfold ViemProvider.createProvider, createFusionSDK. split.
  - intros [p Hp].
    destruct (lookup (networkId config) ViemProvider.VIEM_CHAIN_MAP) eqn:E; [|discriminate].
    clear Hp. apply lookup_Some_In in E. simpl in E.
    repeat (destruct E as [<-|E]; [eexists; reflexivity|]). contradiction.
  - intros [sdk Hs] Hv.
    destruct (lookup (networkId config) NETWORK_MAP) eqn:E; [|discriminate].
    clear Hs. apply lookup_Some_In in E. simpl in E.
    repeat (destruct E as [E'|E];
            [rewrite <- E' in *;
             first [reflexivity | vm_compute in Hv; discriminate Hv]|]).
    contradiction.
Qed.

Lemma viem_networks_are_sdk_networks_witness :
  exists sdk, createFusionSDK (mkConfig "key" "0xabc" "https://rpc.example" "8453") = Ok sdk.
Proof.
  apply (proj1 (viem_networks_are_sdk_networks
                  sampleDerive (mkConfig "key" "0xabc" "https://rpc.example" "8453"))).
  eexists. reflexivity.
Defined.

End DefaultGateway.

(** ** Bounds on the polling loops *)

Section PollingBounds.
Import Js Script.
Local Open Scope list_scope.
Local Open Scope N_scope.

Definition isStatusQuery (a : Action) : bool :=
  match a with
  | Fusion (GetOrderStatus _) => true
  | Solana (SolGetOrderStatus _) => true
  | _ => false
  end.

Definition statusQueries (t : list Action) : nat :=
  List.length (filter isStatusQuery t).

(** Every step is a status query for [hash] or a sleep of [interval]. *)
Definition onlyPolls (query : Action) (interval : N) (t : list Action) : Prop :=
  Forall (fun a => a = query \/ a = Sleep interval) t.

Lemma evm_pollLoop_bounded (n : nat) :
  forall w hash k elapsed,
    Evm.orderTimeout <= elapsed + N.of_nat n * Evm.pollInterval ->
    (statusQueries (fst (Evm.pollLoop w hash k elapsed)) <= n)%nat
    /\ onlyPolls (Fusion (GetOrderStatus hash)) Evm.pollInterval
                 (fst (Evm.pollLoop w hash k elapsed)).
Proof.
  induction n as [|n IH]; intros w hash k elapsed Hn; rewrite pollLoop_unfold.
  - assert ((elapsed <? Evm.orderTimeout) = false) as ->
        by (apply N.ltb_ge; unfold Evm.orderTimeout, Evm.pollInterval in *; lia).
    split; [unfold statusQueries; simpl; lia | constructor].
  - destruct (elapsed <? Evm.orderTimeout); [|split; [unfold statusQueries; simpl; lia | constructor]].
    destruct (verdict (Evm.statusAt w k)) as [r|].
    + split; [unfold statusQueries; simpl; lia|]. repeat constructor.
    + destruct (IH w hash (S k) (elapsed + Evm.latency w k + Evm.pollInterval))
        as [Hq Hp]; [unfold Evm.orderTimeout, Evm.pollInterval in *; lia|].
      unfold after. cbn [fst]. split.
      * unfold statusQueries in *. simpl. lia.
      * constructor; [now left|]. constructor; [now right|]. exact Hp.
Qed.

Lemma sol_pollLoop_bounded (n : nat) :
  forall w hash k elapsed,
    Sol.SwapSolToJup.orderTimeout <= elapsed + N.of_nat n * Sol.SwapSolToJup.pollInterval ->
    (statusQueries (fst (Sol.SwapSolToJup.pollLoop w hash k elapsed)) <= n)%nat
    /\ onlyPolls (Solana (SolGetOrderStatus hash)) Sol.SwapSolToJup.pollInterval
                 (fst (Sol.SwapSolToJup.pollLoop w hash k elapsed)).
Proof.
  induction n as [|n IH]; intros w hash k elapsed Hn; rewrite sol_pollLoop_unfold.
  - assert ((elapsed <? Sol.SwapSolToJup.orderTimeout) = false) as ->
        by (apply N.ltb_ge;
            unfold Sol.SwapSolToJup.orderTimeout, Sol.SwapSolToJup.pollInterval in *; lia).
    split; [unfold statusQueries; simpl; lia | constructor].
  - destruct (elapsed <? Sol.SwapSolToJup.orderTimeout);
      [|split; [unfold statusQueries; simpl; lia | constructor]].
    destruct (inactive (Sol.statusAt w k)).
    + split; [unfold statusQueries; simpl; lia|]. repeat constructor.
    + destruct (IH w hash (S k)
                   (elapsed + Sol.latency w k + Sol.SwapSolToJup.pollInterval))
        as [Hq Hp];
        [unfold Sol.SwapSolToJup.orderTimeout, Sol.SwapSolToJup.pollInterval in *; lia|].
      unfold after. cbn [fst]. split.
      * unfold statusQueries in *. simpl. lia.
      * constructor; [now left|]. constructor; [now right|]. exact Hp.
Qed.

(** Whatever the status API answers and however long its answers
    take, a polling loop asks at most timeout / interval times (100
    queries in the EVM scripts, 150 in the Solana script), and between
    two queries it does nothing but sleep one poll interval. *)
Theorem polling_loops_are_bounded :
  (forall w hash,
      (statusQueries (fst (Evm.pollLoop w hash 0 0)) <= 100)%nat
      /\ onlyPolls (Fusion (GetOrderStatus hash)) 3000 (fst (Evm.pollLoop w hash 0 0)))
  /\ (forall w hash,
         (statusQueries (fst (Sol.SwapSolToJup.pollLoop w hash 0 0)) <= 150)%nat
         /\ onlyPolls (Solana (SolGetOrderStatus hash)) 2000
                      (fst (Sol.SwapSolToJup.pollLoop w hash 0 0))).
Proof.
  split; intros w hash.
  - apply (evm_pollLoop_bounded 100). vm_compute. discriminate.
  - apply (sol_pollLoop_bounded 150). vm_compute. discriminate.
Qed.

End PollingBounds.

(** ** The WebSocket scripts *)

Section WebSocketScripts.
Import Js Script.
Local Open Scope list_scope.




(** The same world with other messages delivered before the order is
    submitted. *)
Definition deliverEarly (w : Evm.World) (evs : list Tracker.Evm.Event) : Evm.World :=
  Evm.mkWorld (Evm.env w) (Evm.derive w) (Evm.tokenBalance w) (Evm.nativeBalance w)
              (Evm.tokenAllowance w) (Evm.approval w) (Evm.approvalReceipt w)
              (Evm.quote w) (Evm.preparedOrder w) (Evm.orderInfo w) (Evm.escrowCall w)
              (Evm.escrowTx w) (Evm.escrowReceipt w) (Evm.statusAt w) (Evm.latency w)
              evs (Evm.wsAfterSubmit w).

Definition solDeliverEarly (w : Sol.World) (evs : list Tracker.Sol.Event) : Sol.World :=
  Sol.mkWorld (Sol.env w) (Sol.codecs w) (Sol.formatSol w) (Sol.balance w) (Sol.order w)
              (Sol.blockhash w) (Sol.signature w) (Sol.confirmation w) (Sol.statusAt w)
              (Sol.latency w) (Sol.signatureStatusAt w) evs (Sol.wsAfterSubmit w).

(** Messages that reach a tracker before [orderHash] is assigned are
    lost: whatever they are, also a fill that carries the hash the order
    is about to get, the run is the same as without them. *)
Theorem early_websocket_messages_are_ignored :
  (forall w evs, EvmWebSocket.main (deliverEarly w evs) = EvmWebSocket.main (deliverEarly w []))
  /\ (forall w evs,
         Sol.WebSocket.main (solDeliverEarly w evs) = Sol.WebSocket.main (solDeliverEarly w [])).
Proof.
  split; intros w evs.
  - unfold EvmWebSocket.main, EvmWebSocket.submit, deliverEarly.
    cbn [Evm.env Evm.derive Evm.tokenBalance Evm.tokenAllowance Evm.approval
         Evm.approvalReceipt Evm.quote Evm.preparedOrder Evm.orderInfo
         Evm.wsBeforeSubmit Evm.wsAfterSubmit].
    rewrite (run_before_hash _ _ _ _ (tracker_spec _ _ _ _ evm_onEvent_kind) evs).
    reflexivity.
  - unfold Sol.WebSocket.main, Sol.WebSocket.submit, solDeliverEarly.
    cbn [Sol.env Sol.codecs Sol.formatSol Sol.balance Sol.order Sol.blockhash
         Sol.signature Sol.confirmation Sol.wsBeforeSubmit Sol.wsAfterSubmit].
    rewrite (run_before_hash _ _ _ _ (tracker_spec _ _ _ _ sol_onEvent_kind) evs).
    reflexivity.
Qed.

End WebSocketScripts.

(** ** Invariants of the trackers *)

Section TrackerInvariant.
Import Js Tracker.

(** What can happen to a tracker: a message or the timer, or [main]
    assigning the order hash. *)
Inductive Input (Event : Type) :=
| Deliver (x : Tick Event)
| AssignHash (h : string).
Arguments Deliver {Event} x.
Arguments AssignHash {Event} h.

Definition react {Event} (onEvent : State -> Event -> State)
           (s : State) (i : Input Event) : State :=
  match i with
  | Deliver x => step onEvent s x
  | AssignHash h => assign h s
  end.

Definition reach {Event} (onEvent : State -> Event -> State)
           (inputs : list (Input Event)) : State :=
  fold_left (react onEvent) inputs init.

(** The timer runs exactly as long as the promise is pending, and
    [orderCompleted] is only ever set on a settled promise. *)
Definition timerMatchesPromise (s : State) : Prop :=
  (timerArmed s = true <-> promise s = Pending)
  /\ (orderCompleted s = true -> promise s <> Pending).

Variable Event : Type.
Variable onEvent : State -> Event -> State.
Variable kind : Event -> Kind.
Variable cancelError : Thrown.
Hypothesis onEvent_kind : forall s ev,
    onEvent s ev =
      match kind ev with
      | Fill h => if sameHash h s then resolve (complete (clearTimeout s)) else s
      | Cancel h => if sameHash h s then reject cancelError (complete (clearTimeout s)) else s
      | Other => s
      end.

Lemma invariant_react (s : State) (i : Input Event) :
  timerMatchesPromise s -> timerMatchesPromise (react onEvent s i).
Proof.
  unfold timerMatchesPromise. intros [[H1 H2] H3].
  destruct i as [[ev|]|h]; simpl.
  - rewrite onEvent_kind.
    destruct (kind ev) as [h|h|]; [| |tauto];
      (destruct (sameHash h s); [|tauto]);
      unfold resolve, reject; simpl;
      destruct (promise s) eqn:E; simpl; rewrite ?E;
      (split; [split|]; intros; congruence).
  - unfold onTimeout. destruct (timerArmed s) eqn:Ht.
    + unfold reject; simpl. rewrite (H1 eq_refl). simpl.
      split; [split|]; intros; congruence.
    + rewrite Ht. tauto.
  - tauto.
Qed.

Lemma invariant_reach (inputs : list (Input Event)) :
  timerMatchesPromise (reach onEvent inputs).
Proof.
  unfold reach.
  assert (Hinit : timerMatchesPromise init).
  { unfold timerMatchesPromise, init; simpl.
    split; [split; reflexivity | discriminate]. }
  revert Hinit. generalize init.
  induction inputs as [|i inputs IH]; intros s Hs; simpl; [assumption|].
  apply IH, invariant_react, Hs.
Qed.

End TrackerInvariant.

(** In every state a tracker can reach - any interleaving of
    messages, timer expiry and the assignment of the order hash - the
    timeout timer is running exactly while the completion promise is
    pending (a terminal event cancels it, and once it has fired it is
    gone), and [orderCompleted] is set only on a settled promise. *)
Theorem timer_runs_exactly_while_pending :
  (forall inputs, timerMatchesPromise (reach Tracker.Evm.onEvent inputs))
  /\ (forall inputs, timerMatchesPromise (reach Tracker.Sol.onEvent inputs)).
Proof.
  split; intros inputs.
  - exact (invariant_reach _ _ _ _ evm_onEvent_kind inputs).
  - exact (invariant_reach _ _ _ _ sol_onEvent_kind inputs).
Qed.

(* ===================================================================== *)
(** * Confirmation polling *)
(* ===================================================================== *)

Section ConfirmationPolling.
Import Js Script SolConfirm.
Local Open Scope list_scope.

(** What the [k]-th reply does to the loop: it ends it, or the loop
    sleeps and asks again. *)
Definition decides (node : Node) (k : nat) : option (Result Confirmation) :=
  match statusAt node k with
  | Throw e => Some (Throw e)
  | Ok status => check status
  end.

Lemma confirmLoop_unfold node signature timeoutMs pollIntervalMs k elapsed :
  confirmLoop node signature timeoutMs pollIntervalMs k elapsed =
  if (elapsed <? timeoutMs)%N then
    match decides node k with
    | Some r => ([Solana (GetSignatureStatuses signature)], r)
    | None =>
        after [Solana (GetSignatureStatuses signature); Sleep (Npos pollIntervalMs)]
              (confirmLoop node signature timeoutMs pollIntervalMs (S k)
                           (elapsed + latency node k + Npos pollIntervalMs))
    end
  else throw (timeoutError timeoutMs).
Proof.
  unfold decides.
  funelim (confirmLoop node signature timeoutMs pollIntervalMs k elapsed);
    match goal with E : (_ <? _)%N = _ |- _ => rewrite E end; try reflexivity.
  destruct (statusAt node k) as [status|e]; [|reflexivity].
  destruct (check status); reflexivity.
Qed.

Definition isSignatureQuery (a : Action) : bool :=
  match a with
  | Solana (GetSignatureStatuses _) => true
  | _ => false
  end.

Definition signatureQueries (t : list Action) : nat :=
  List.length (filter isSignatureQuery t).

(** A status that lets the caller go on: present, without error, and
    confirmed or finalized. *)
Definition confirms (st : SignatureStatus) : Prop :=
  err st = None
  /\ (confirmationStatus st = Some "confirmed"%string
      \/ confirmationStatus st = Some "finalized"%string).

Lemma isConfirmed_spec (s : option string) :
  isConfirmed s = true <-> s = Some "confirmed"%string \/ s = Some "finalized"%string.
Proof.
  unfold isConfirmed. split.
  - destruct s as [s|]; [|discriminate].
    destruct (string_dec s "confirmed") as [->|H1]; [now left|].
    destruct (string_dec s "finalized") as [->|H2]; [now right|].
    intros H. exfalso.
    repeat (destruct s as [|[[] [] [] [] [] [] [] []] s]; try discriminate H;
            try (now apply H1); try (now apply H2)).
  - intros [->| ->]; reflexivity.
Qed.

Lemma check_ok (status : option SignatureStatus) (c : Confirmation) :
  check status = Some (Ok c) <->
  exists st, status = Some st /\ confirms st /\ c = mkConfirmation true (slot st).
Proof.
  unfold check, confirms. split.
  - destruct status as [st|]; [|discriminate].
    destruct (err st) eqn:E; [discriminate|].
    destruct (isConfirmed (confirmationStatus st)) eqn:Hc; [|discriminate].
    intros H. injection H as <-. exists st. rewrite E.
    apply isConfirmed_spec in Hc. auto.
  - intros (st & -> & [E Hc] & ->). rewrite E.
    apply isConfirmed_spec in Hc. now rewrite Hc.
Qed.

(** The first [n] replies from [k] on leave the loop waiting. *)
Definition waitsFrom (node : Node) (k n : nat) : Prop :=
  forall j, (j < n)%nat -> decides node (k + j) = None.

Lemma confirmLoop_ok node signature timeoutMs pollIntervalMs c :
  forall k elapsed,
    snd (confirmLoop node signature timeoutMs pollIntervalMs k elapsed) = Ok c ->
    exists n st,
      waitsFrom node k n
      /\ statusAt node (k + n) = Ok (Some st)
      /\ confirms st
      /\ c = mkConfirmation true (slot st)
      /\ signatureQueries (fst (confirmLoop node signature timeoutMs pollIntervalMs k elapsed))
         = S n.
Proof.
  intros k elapsed.
  remember (remaining timeoutMs elapsed) as m eqn:Hm.
  assert (remaining timeoutMs elapsed <= m)%nat as Hle by lia. clear Hm.
  revert k elapsed Hle.
  induction m as [|m IH]; intros k elapsed Hle; rewrite confirmLoop_unfold;
    destruct (elapsed <? timeoutMs)%N eqn:Et; try (cbn [snd]; discriminate).
  - apply N.ltb_lt in Et. unfold remaining in Hle. lia.
  - unfold decides. destruct (statusAt node k) as [status|e] eqn:Es;
      [|cbn [snd]; discriminate].
    destruct (check status) as [r|] eqn:Ec.
    + cbn [snd fst]. intros ->. apply check_ok in Ec.
      destruct Ec as (st & -> & Hc & ->).
      exists 0%nat, st. rewrite Nat.add_0_r.
      split; [intros j Hj; lia|]. auto.
    + unfold after. cbn [snd fst]. intros Hok.
      pose proof (remaining_decreases_confirm timeoutMs elapsed (latency node k)
                                              pollIntervalMs Et) as Hd.
      destruct (IH (S k) (elapsed + latency node k + N.pos pollIntervalMs)%N ltac:(lia) Hok) as (n & st & Hw & Hs & Hc & Hcc & Hq).
      exists (S n), st. replace (k + S n)%nat with (S k + n)%nat by lia.
      split; [|split; [exact Hs|split; [exact Hc|split; [exact Hcc|]]]].
      * intros [|j] Hj.
        -- rewrite Nat.add_0_r. unfold decides. now rewrite Es.
        -- replace (k + S j)%nat with (S k + j)%nat by lia. apply Hw. lia.
      * unfold signatureQueries in *. simpl. now rewrite Hq.
Qed.


Lemma confirmLoop_throw node signature timeoutMs pollIntervalMs e :
  forall k elapsed,
    snd (confirmLoop node signature timeoutMs pollIntervalMs k elapsed) = Throw e ->
    e = timeoutError timeoutMs
    \/ exists n,
        waitsFrom node k n
        /\ (statusAt node (k + n) = Throw e
            \/ exists st text,
                statusAt node (k + n) = Ok (Some st)
                /\ err st = Some text
                /\ e = Error ("Transaction failed: " ++ text)).
Proof.
  intros k elapsed.
  remember (remaining timeoutMs elapsed) as m eqn:Hm.
  assert (remaining timeoutMs elapsed <= m)%nat as Hle by lia. clear Hm.
  revert k elapsed Hle.
  induction m as [|m IH]; intros k elapsed Hle; rewrite confirmLoop_unfold;
    destruct (elapsed <? timeoutMs)%N eqn:Et;
    try (cbn [snd throw]; intros H; injection H as <-; now left).
  - apply N.ltb_lt in Et. unfold remaining in Hle. lia.
  - unfold decides. destruct (statusAt node k) as [status|e'] eqn:Es.
    + destruct (check status) as [r|] eqn:Ec.
      * cbn [snd]. intros ->. right. exists 0%nat. rewrite Nat.add_0_r.
        split; [intros j Hj; lia|]. right.
        unfold check in Ec. destruct status as [st|]; [|discriminate].
        destruct (err st) as [text|] eqn:Ee.
        -- injection Ec as <-. exists st, text. auto.
        -- destruct (isConfirmed (confirmationStatus st)); discriminate.
      * unfold after. cbn [snd]. intros Hthrow.
        pose proof (remaining_decreases_confirm timeoutMs elapsed (latency node k)
                                                pollIntervalMs Et) as Hd.
        destruct (IH (S k) (elapsed + latency node k + N.pos pollIntervalMs)%N
                     ltac:(lia) Hthrow) as [->|(n & Hw & Hn)]; [now left|].
        right. exists (S n). replace (k + S n)%nat with (S k + n)%nat by lia.
        split; [|exact Hn].
        intros [|j] Hj.
        -- rewrite Nat.add_0_r. unfold decides. now rewrite Es.
        -- replace (k + S j)%nat with (S k + j)%nat by lia. apply Hw. lia.
    + cbn [snd]. intros H. injection H as <-. right. exists 0%nat.
      rewrite Nat.add_0_r. split; [intros j Hj; lia|]. now left.
Qed.

Lemma confirmLoop_never node signature timeoutMs pollIntervalMs :
  (forall k, decides node k = None) ->
  forall k elapsed,
    snd (confirmLoop node signature timeoutMs pollIntervalMs k elapsed)
    = Throw (timeoutError timeoutMs).
Proof.
  intros Hnever k elapsed.
  remember (remaining timeoutMs elapsed) as m eqn:Hm.
  assert (remaining timeoutMs elapsed <= m)%nat as Hle by lia. clear Hm.
  revert k elapsed Hle.
  induction m as [|m IH]; intros k elapsed Hle; rewrite confirmLoop_unfold;
    destruct (elapsed <? timeoutMs)%N eqn:Et; try reflexivity.
  - apply N.ltb_lt in Et. unfold remaining in Hle. lia.
  - rewrite Hnever. unfold after. cbn [snd].
    pose proof (remaining_decreases_confirm timeoutMs elapsed (latency node k)
                                            pollIntervalMs Et) as Hd.
    apply IH. lia.
Qed.

Lemma confirmLoop_bounded node signature timeoutMs pollIntervalMs :
  forall k elapsed,
    let t := fst (confirmLoop node signature timeoutMs pollIntervalMs k elapsed) in
    (signatureQueries t = 0%nat
     \/ (N.of_nat (signatureQueries t) * Npos pollIntervalMs + elapsed
         < timeoutMs + Npos pollIntervalMs)%N)
    /\ onlyPolls (Solana (GetSignatureStatuses signature)) (Npos pollIntervalMs) t.
Proof.
  intros k elapsed.
  remember (remaining timeoutMs elapsed) as m eqn:Hm.
  assert (remaining timeoutMs elapsed <= m)%nat as Hle by lia. clear Hm.
  revert k elapsed Hle.
  induction m as [|m IH]; intros k elapsed Hle; cbv zeta; rewrite confirmLoop_unfold;
    destruct (elapsed <? timeoutMs)%N eqn:Et;
    try (split; [left; reflexivity | constructor]).
  - apply N.ltb_lt in Et. unfold remaining in Hle. lia.
  - pose proof (proj1 (N.ltb_lt _ _) Et) as Hlt.
    destruct (decides node k) as [r|].
    + cbn [fst]. split; [right; unfold signatureQueries; cbn [filter isSignatureQuery List.length]; lia|].
      repeat constructor.
    + pose proof (remaining_decreases_confirm timeoutMs elapsed (latency node k)
                                              pollIntervalMs Et) as Hd.
      destruct (IH (S k) (elapsed + latency node k + N.pos pollIntervalMs)%N ltac:(lia))
        as [Hq Hp].
      unfold after. cbn [fst]. split.
      * right. unfold signatureQueries in *.
        cbn [app filter isSignatureQuery List.length].
        destruct Hq as [->|Hq]; lia.
      * constructor; [now left|]. constructor; [now right|]. exact Hp.
Qed.

End ConfirmationPolling.

Section ConfirmationExamples.
Import Js Script SolConfirm.

(** A node that sees the transaction processed, then finalized. *)
Definition finalizedOnThird (k : nat) : Result (option SignatureStatus) :=
  match k with
  | O => Ok None
  | 1%nat => Ok (Some (mkStatus None (Some "processed"%string) 41))
  | _ => Ok (Some (mkStatus None (Some "finalized"%string) 42))
  end.

(** A node that reports the transaction finalized with an error. *)
Definition failedOnSecond (k : nat) : Result (option SignatureStatus) :=
  match k with
  | O => Ok None
  | _ => Ok (Some (mkStatus (Some "{InstructionError:[0,Custom]}"%string)
                            (Some "finalized"%string) 42))
  end.

Definition neverSeen (k : nat) : Result (option SignatureStatus) := Ok None.

Definition sampleNode (statusAt : nat -> Result (option SignatureStatus)) : Node :=
  mkNode statusAt (fun _ => 150%N).

End ConfirmationExamples.

Section ConfirmationTheorems.
Import Js Script SolConfirm.
Local Open Scope list_scope.

(** [confirmTransactionPolling] returns only for a transaction the
    node reported, without error, as confirmed or finalized: the
    result carries [confirmed: true] and that status's slot, every
    earlier reply was an absent or error-free unconfirmed status, and
    the status was asked for exactly once per reply. *)
Theorem confirmation_returned_only_for_confirmed_status
        (node : Node) (signature : string) (timeoutMs : N) (pollIntervalMs : positive)
        (c : Confirmation) :
  snd (confirmTransactionPolling node signature timeoutMs pollIntervalMs) = Ok c ->
  exists n st,
    waitsFrom node 0 n
    /\ statusAt node n = Ok (Some st)
    /\ confirms st
    /\ c = mkConfirmation true (slot st)
    /\ signatureQueries (fst (confirmTransactionPolling node signature timeoutMs pollIntervalMs))
       = S n.
Proof.
  intros H. exact (confirmLoop_ok node signature timeoutMs pollIntervalMs c 0 0%N H).
Qed.

Lemma confirmation_returned_only_for_confirmed_status_witness :
  exists n st,
    waitsFrom (sampleNode finalizedOnThird) 0 n
    /\ statusAt (sampleNode finalizedOnThird) n = Ok (Some st)
    /\ confirms st
    /\ mkConfirmation true 42 = mkConfirmation true (slot st)
    /\ signatureQueries
         (fst (confirmTransactionPolling (sampleNode finalizedOnThird) "5sig" 60000 2000))
       = S n.
Proof.
  apply (confirmation_returned_only_for_confirmed_status
           (sampleNode finalizedOnThird) "5sig" 60000 2000 (mkConfirmation true 42)).
  reflexivity.
Defined.

(** [confirmTransactionPolling] throws for one of three reasons only:
    the timeout elapsed at the head of a pass; a status query itself
    failed, which is passed on unchanged and not retried; or a status
    carried an error, reported as "Transaction failed: ..." whatever
    its confirmation status says. *)
Theorem confirmation_fails_for_three_reasons
        (node : Node) (signature : string) (timeoutMs : N) (pollIntervalMs : positive)
        (e : Thrown) :
  snd (confirmTransactionPolling node signature timeoutMs pollIntervalMs) = Throw e ->
  e = timeoutError timeoutMs
  \/ exists n,
      waitsFrom node 0 n
      /\ (statusAt node n = Throw e
          \/ exists st text,
              statusAt node n = Ok (Some st)
              /\ err st = Some text
              /\ e = Error ("Transaction failed: " ++ text)).
Proof.
  intros H. exact (confirmLoop_throw node signature timeoutMs pollIntervalMs e 0 0%N H).
Qed.

Lemma confirmation_fails_for_three_reasons_witness :
  let e := Error "Transaction failed: {InstructionError:[0,Custom]}" in
  e = timeoutError 60000
  \/ exists n,
      waitsFrom (sampleNode failedOnSecond) 0 n
      /\ (statusAt (sampleNode failedOnSecond) n = Throw e
          \/ exists st text,
              statusAt (sampleNode failedOnSecond) n = Ok (Some st)
              /\ err st = Some text
              /\ e = Error ("Transaction failed: " ++ text)).
Proof.
  apply (confirmation_fails_for_three_reasons (sampleNode failedOnSecond) "5sig" 60000 2000).
  reflexivity.
Defined.

(** A transaction whose status never becomes decisive (absent, or
    error-free and neither confirmed nor finalized) makes
    [confirmTransactionPolling] throw the timeout error: it never
    returns normally for it. *)
Theorem unconfirmed_transaction_times_out
        (node : Node) (signature : string) (timeoutMs : N) (pollIntervalMs : positive) :
  (forall k, decides node k = None) ->
  snd (confirmTransactionPolling node signature timeoutMs pollIntervalMs)
  = Throw (Error ("Transaction confirmation timeout after "
                  ++ toString (Z.of_N timeoutMs) ++ "ms")).
Proof.
  intros H. exact (confirmLoop_never node signature timeoutMs pollIntervalMs H 0 0%N).
Qed.

Lemma unconfirmed_transaction_times_out_witness :
  snd (confirmTransactionPolling (sampleNode neverSeen) "5sig" 60000 2000)
  = Throw (Error "Transaction confirmation timeout after 60000ms").
Proof.
  apply (unconfirmed_transaction_times_out (sampleNode neverSeen) "5sig" 60000 2000).
  intros k. reflexivity.
Defined.

(** [confirmTransactionPolling] asks for the status fewer than
    timeout / interval + 1 times whatever the node answers, and
    between two queries it only sleeps the poll interval; with the
    default 60 s and 2 s that is at most 30 queries. *)
Theorem confirmation_polling_is_bounded :
  (forall node signature timeoutMs pollIntervalMs,
      let t := fst (confirmTransactionPolling node signature timeoutMs pollIntervalMs) in
      (N.of_nat (signatureQueries t) * Npos pollIntervalMs < timeoutMs + Npos pollIntervalMs)%N
      /\ onlyPolls (Solana (GetSignatureStatuses signature)) (Npos pollIntervalMs) t)
  /\ (forall node signature,
         (signatureQueries
            (fst (confirmTransactionPolling node signature defaultTimeoutMs
                                            defaultPollIntervalMs)) <= 30)%nat).
Proof.
  assert (forall node signature timeoutMs pollIntervalMs,
      let t := fst (confirmTransactionPolling node signature timeoutMs pollIntervalMs) in
      (N.of_nat (signatureQueries t) * Npos pollIntervalMs < timeoutMs + Npos pollIntervalMs)%N
      /\ onlyPolls (Solana (GetSignatureStatuses signature)) (Npos pollIntervalMs) t) as Hb.
  { intros node signature timeoutMs pollIntervalMs.
    destruct (confirmLoop_bounded node signature timeoutMs pollIntervalMs 0 0%N) as [Hq Hp].
    cbv zeta. split; [|exact Hp].
    unfold confirmTransactionPolling. destruct Hq as [->|Hq]; lia. }
  split; [exact Hb|].
  intros node signature.
  destruct (Hb node signature defaultTimeoutMs defaultPollIntervalMs) as [Hq _].
  cbv zeta in Hq. unfold defaultTimeoutMs, defaultPollIntervalMs in *. lia.
Qed.

End ConfirmationTheorems.

(* ===================================================================== *)
(** * The demo order of the cancellation example *)
(* ===================================================================== *)

Section DemoOrder.
Import Js Script SolConnection CreateOrderForDemo.
Local Open Scope list_scope.
Local Open Scope Z_scope.

(** The replies that let [createOrderForDemo] reach
    [sendRawTransaction]: at least 0.12 SOL, an order, a blockhash. *)
Definition funded (w : Sol.World) (o : string) : Prop :=
  exists b h, Sol.balance w = Ok b /\ 120000000 <= b
              /\ Sol.order w = Ok o /\ Sol.blockhash w = Ok h.

(** [createOrderForDemo] sends the escrow transaction exactly when the
    wallet holds at least 0.12 SOL (the 0.1 SOL order plus a 0.02 SOL
    fee buffer) and the order and the blockhash could be obtained; it
    returns the order and its hash exactly when, in addition, the
    transaction was accepted and confirmed without error. *)
Theorem demo_order_is_sent_iff_funded (w : Sol.World) (wallet maker : string) :
  (existsb movesFunds (fst (createOrderForDemo w wallet maker)) = true
   <-> exists o, funded w o)
  /\ (forall r, snd (createOrderForDemo w wallet maker) = Ok r
                <-> funded w (order r) /\ orderHash r = order r
                    /\ (exists s, Sol.signature w = Ok s)
                    /\ Sol.confirmation w = Ok None).
Proof.
  unfold createOrderForDemo, funded, call, bind, throw, ret.
  destruct (Sol.balance w) as [b|e]; cbn [fst snd existsb movesFunds app].
  2:{ split; [|intros r]; split; try discriminate.
      - intros (o & b & h & H & _). discriminate.
      - intros ((b & h & H & _) & _). discriminate. }
  destruct (Z.ltb_spec b (amount + estimatedFees)) as [Hlt|Hge];
    unfold amount, estimatedFees in *; cbn [fst snd existsb movesFunds app].
  { split; [|intros r]; split; try discriminate.
    - intros (o & b' & h & H & Hb & _). injection H as <-. lia.
    - intros ((b' & h & H & Hb & _) & _). injection H as <-. lia. }
  destruct (Sol.order w) as [o|e]; cbn [fst snd existsb movesFunds app].
  2:{ split; [|intros r]; split; try discriminate.
      - intros (o & b' & h & _ & _ & H & _). discriminate.
      - intros ((b' & h & _ & _ & H & _) & _). discriminate. }
  destruct (Sol.blockhash w) as [h|e]; cbn [fst snd existsb movesFunds app].
  2:{ split; [|intros r]; split; try discriminate.
      - intros (o' & b' & h & _ & _ & _ & H). discriminate.
      - intros ((b' & h & _ & _ & _ & H) & _). discriminate. }
  destruct (Sol.signature w) as [s|e]; cbn [fst snd existsb movesFunds app orb].
  2:{ split; [|intros r]; split; try discriminate.
      - intros _. exists o, b, h. auto.
      - reflexivity.
      - intros (_ & _ & (s & H) & _). discriminate. }
  destruct (Sol.confirmation w) as [[err|]|e]; cbn [fst snd existsb movesFunds app orb].
  all: split; [split; [intros _; exists o, b, h; auto | reflexivity]|].
  all: intros r; split; try discriminate.
  - intros (_ & _ & _ & H). discriminate.
  - intros H. injection H as <-. cbn [order orderHash].
    split; [exists b, h; auto|]. split; [reflexivity|]. split; [eauto|reflexivity].
  - intros ((b' & h' & _ & _ & Ho & _) & Hh & _ & _).
    destruct r as [ro rh]. cbn [order orderHash] in *. injection Ho as <-. now subst.
  - intros (_ & _ & _ & H). discriminate.
Qed.

Lemma demo_order_is_sent_iff_funded_witness :
  snd (createOrderForDemo
         (Sol.mkWorld (mkEnv (Some "key") (Some "secret") None) sampleCodecs (fun _ => "?")
                      (Ok 119999999) (Ok "order-hash") (Ok "blockhash") (Ok "5sig")
                      (Ok None) (fun _ => Ok false) (fun _ => 0%N) (fun _ => Ok None) [] [])
         "wallet" "wallet")
  <> Ok (mkResult "order-hash" "order-hash").
Proof.
  intros H.
  apply (proj1 (proj2 (demo_order_is_sent_iff_funded _ "wallet" "wallet") _)) in H.
  destruct H as ((b & h & Hb & Hle & _) & _).
  cbn [Sol.balance] in Hb. injection Hb as <-. lia.
Defined.

End DemoOrder.

(* ===================================================================== *)
(** * The confirmation wait of the Solana quick start *)
(* ===================================================================== *)

Section QuickStartWait.
Import Js Script SolConnection.
Local Open Scope list_scope.

(** [n] passes of the wait that end in a sleep. *)
Fixpoint waitTrace (signature : string) (n : nat) : list Action :=
  match n with
  | O => []
  | S n' => Solana (GetSignatureStatuses signature) :: Sleep 2000 :: waitTrace signature n'
  end.

Definition isConfirmedStatus (s : option string) : bool :=
  match s with
  | Some "confirmed" => true
  | _ => false
  end.

Lemma waitConfirmed_pass (w : Sol.World) (signature : string) (left i : nat) :
  Sol.QuickStart.waitConfirmed w signature (S left) i =
  match Sol.signatureStatusAt w i with
  | Throw e => ([Solana (GetSignatureStatuses signature)], Throw e)
  | Ok s =>
      if isConfirmedStatus s then ([Solana (GetSignatureStatuses signature)], Ok tt)
      else after [Solana (GetSignatureStatuses signature); Sleep 2000]
                 (Sol.QuickStart.waitConfirmed w signature left (S i))
  end.
Proof.
  cbn [Sol.QuickStart.waitConfirmed]. unfold call, bind at 1.
  destruct (Sol.signatureStatusAt w i) as [s|e]; [|reflexivity].
  assert (Hgo : (let (t', r) :=
                   bind ([Sleep 2000], Ok tt)
                        (fun _ => Sol.QuickStart.waitConfirmed w signature left (S i)) in
                 ([Solana (GetSignatureStatuses signature)] ++ t', r))
                = after [Solana (GetSignatureStatuses signature); Sleep 2000]
                        (Sol.QuickStart.waitConfirmed w signature left (S i))).
  { unfold bind, after.
    destruct (Sol.QuickStart.waitConfirmed w signature left (S i)) as [t r]. reflexivity. }
  destruct s as [s|]; [|exact Hgo].
  unfold isConfirmedStatus.
  repeat (destruct s as [|[[] [] [] [] [] [] [] []] s]; try exact Hgo).
  reflexivity.
Qed.

Lemma waitConfirmed_bounded (w : Sol.World) (signature : string) :
  forall left i,
    (signatureQueries (fst (Sol.QuickStart.waitConfirmed w signature left i)) <= left)%nat.
Proof.
  induction left as [|left IH]; intros i.
  - cbn. lia.
  - rewrite waitConfirmed_pass.
    destruct (Sol.signatureStatusAt w i) as [s|e]; [|cbn; lia].
    destruct (isConfirmedStatus s); [cbn; lia|].
    unfold after. cbn [fst]. specialize (IH (S i)).
    unfold signatureQueries in *. cbn [app filter isSignatureQuery List.length]. lia.
Qed.

Lemma waitConfirmed_gives_up (w : Sol.World) (signature : string) :
  forall left i,
    (forall j, (j < left)%nat ->
               exists s, Sol.signatureStatusAt w (i + j) = Ok s /\ isConfirmedStatus s = false) ->
    Sol.QuickStart.waitConfirmed w signature left i = (waitTrace signature left, Ok tt).
Proof.
  induction left as [|left IH]; intros i H.
  - reflexivity.
  - rewrite waitConfirmed_pass.
    destruct (H 0%nat ltac:(lia)) as (s & Hs & Hc). rewrite Nat.add_0_r in Hs.
    rewrite Hs, Hc, (IH (S i)); [reflexivity|].
    intros j Hj. replace (S i + j)%nat with (i + S j)%nat by lia. apply H. lia.
Qed.

Lemma waitConfirmed_returns (w : Sol.World) (signature : string) :
  forall left i,
    (forall j, (j < left)%nat -> exists s, Sol.signatureStatusAt w (i + j) = Ok s) ->
    snd (Sol.QuickStart.waitConfirmed w signature left i) = Ok tt.
Proof.
  induction left as [|left IH]; intros i H.
  - reflexivity.
  - rewrite waitConfirmed_pass.
    destruct (H 0%nat ltac:(lia)) as (s & Hs). rewrite Nat.add_0_r in Hs. rewrite Hs.
    destruct (isConfirmedStatus s); [reflexivity|].
    unfold after. cbn [snd]. apply IH.
    intros j Hj. replace (S i + j)%nat with (i + S j)%nat by lia. apply H. lia.
Qed.

(** The quick start asks for the signature status at most 30 times.
    As long as the queries themselves succeed its wait returns
    normally, confirmed or not; and when none of the 30 replies says
    exactly "confirmed" - a transaction not yet seen, still processed,
    or already reported as "finalized" - it has asked 30 times, slept
    2 s after each reply, and returns without any error. *)
Theorem quick_start_wait_ends_quietly (w : Sol.World) (signature : string) :
  (signatureQueries (fst (Sol.QuickStart.waitConfirmed w signature 30 0)) <= 30)%nat
  /\ ((forall j, (j < 30)%nat -> exists s, Sol.signatureStatusAt w j = Ok s) ->
      snd (Sol.QuickStart.waitConfirmed w signature 30 0) = Ok tt)
  /\ ((forall j, (j < 30)%nat ->
                 exists s, Sol.signatureStatusAt w j = Ok s /\ s <> Some "confirmed"%string) ->
      Sol.QuickStart.waitConfirmed w signature 30 0 = (waitTrace signature 30, Ok tt)).
Proof.
  split; [apply waitConfirmed_bounded|]. split.
  - intros H. apply waitConfirmed_returns. exact H.
  - intros H. apply waitConfirmed_gives_up. intros j Hj.
    destruct (H j Hj) as (s & Hs & Hn). exists s. split; [exact Hs|].
    destruct (isConfirmedStatus s) eqn:E; [|reflexivity].
    exfalso. apply Hn. unfold isConfirmedStatus in E.
    destruct s as [s|]; [|discriminate].
    destruct (string_dec s "confirmed") as [->|Hne]; [reflexivity|].
    exfalso.
    repeat (destruct s as [|[[] [] [] [] [] [] [] []] s]; try discriminate E;
            try (now apply Hne)).
Qed.

Lemma quick_start_wait_ends_quietly_witness :
  Sol.QuickStart.waitConfirmed
    (Sol.mkWorld (mkEnv (Some "key") (Some "secret") None) sampleCodecs (fun _ => "?")
                 (Ok 1000000000%Z) (Ok "order-hash") (Ok "blockhash") (Ok "5sig")
                 (Ok None) (fun _ => Ok false) (fun _ => 0%N)
                 (fun _ => Ok (Some "finalized"%string)) [] [])
    "5sig" 30 0
  = (waitTrace "5sig" 30, Ok tt).
Proof.
  apply (proj2 (proj2 (quick_start_wait_ends_quietly _ "5sig"))).
  intros j _. exists (Some "finalized"%string). split; [reflexivity | discriminate].
Defined.

End QuickStartWait.

(* ===================================================================== *)
(** * The two key decoders agree on well-formed keys *)
(* ===================================================================== *)

Section WalletAgreement.
Import Js SolConnection.

(** Whenever [createWallet] accepts a key whose base58 reading, if it
    has one, is 64 bytes long, the quick start builds the same wallet
    from it. *)
Theorem quick_start_wallet_agrees_with_createWallet
        (c : Codecs) (config : Config) (connection : Connection) (wallet : string) :
  createWallet c config = Ok (connection, wallet) ->
  (forall sk, bs58_decode c (privateKey config) = Ok sk -> List.length sk = 64%nat) ->
  Sol.QuickStart.wallet c (privateKey config) = Ok wallet.
Proof.
  unfold createWallet. rewrite decodeSecretKey_cases.
  unfold Sol.QuickStart.wallet, Sol.QuickStart.secretKey.
  intros H H58.
  destruct (bs58_decode c (privateKey config)) as [sk|e] eqn:E.
  - rewrite (H58 sk eq_refl) in *. cbn [Nat.eqb] in *.
    change (64 =? 64)%nat with true in H. cbv iota in H.
    change (64 =? 32)%nat with false. change (64 =? 64)%nat with true. cbv iota.
    destruct (fromSecretKey c sk) as [k|e']; [|discriminate]. congruence.
  - destruct (Nat.eqb_spec (List.length (base64_decode c (privateKey config))) 64)
      as [Hl|Hl]; [|discriminate].
    rewrite Hl. change (64 =? 32)%nat with false. change (64 =? 64)%nat with true. cbv iota.
    destruct (fromSecretKey c (base64_decode c (privateKey config))) as [k|e'];
      [|discriminate]. congruence.
Qed.

Lemma quick_start_wallet_agrees_with_createWallet_witness :
  Sol.QuickStart.wallet sampleCodecs (privateKey solanaGatewayConfig) = Ok "wallet".
Proof.
  apply (quick_start_wallet_agrees_with_createWallet
           sampleCodecs solanaGatewayConfig
           (mkConnection "https://api.1inch.com/web3/501" "confirmed"
                         [("Authorization", "Bearer key")]
                         (Some "wss://api.1inch.com/web3/501?apiKey=key"))
           "wallet").
  - reflexivity.
  - intros sk H. discriminate H.
Defined.

End WalletAgreement.

(* ===================================================================== *)
(** * What a run sends, and how often *)
(* ===================================================================== *)

Section RunShape.
Import Js Types Interface Script.
Local Open Scope list_scope.
Local Open Scope Z_scope.

Definition isApproval (a : Action) : bool :=
  match a with
  | Rpc (WriteContract _ _ _ _ _) => true
  | _ => false
  end.

Definition isSubmission (a : Action) : bool :=
  match a with
  | Fusion (SubmitOrder _ _) => true
  | Fusion (SubmitNativeOrder _ _ _) => true
  | Solana (SendRawTransaction _ _) => true
  | _ => false
  end.

Definition isOrderCreation (a : Action) : bool :=
  match a with
  | Fusion (CreateOrder _) => true
  | Solana (SolCreateOrder _ _ _ _) => true
  | _ => false
  end.

Definition count (p : Action -> bool) (t : list Action) : nat :=
  List.length (filter p t).

Lemma count_app (p : Action -> bool) (t u : list Action) :
  count p (t ++ u) = (count p t + count p u)%nat.
Proof. unfold count. now rewrite filter_app, length_app. Qed.

Lemma count_cons (p : Action -> bool) (a : Action) (t : list Action) :
  count p (a :: t) = ((if p a then 1 else 0) + count p t)%nat.
Proof. unfold count. cbn [filter]. now destruct (p a). Qed.

Lemma fst_bind {A B} (m : M A) (k : A -> M B) :
  fst (bind m k)
  = fst m ++ match snd m with Ok a => fst (k a) | Throw _ => [] end.
Proof.
  destruct m as [t [a|e]]; simpl.
  - now destruct (k a).
  - now rewrite app_nil_r.
Qed.

Lemma snd_bind {A B} (m : M A) (k : A -> M B) :
  snd (bind m k) = match snd m with Ok a => snd (k a) | Throw e => Throw e end.
Proof.
  destruct m as [t [a|e]]; simpl; [now destruct (k a) | reflexivity].
Qed.

Lemma count_bind (p : Action -> bool) {A B} (m : M A) (k : A -> M B) (c : nat) :
  (forall a, count p (fst (k a)) <= c)%nat ->
  (count p (fst (bind m k)) <= count p (fst m) + c)%nat.
Proof.
  intros H. rewrite fst_bind, count_app.
  destruct (snd m) as [a|e]; [specialize (H a); lia | cbn; lia].
Qed.

Lemma count_onlyPolls (p : Action -> bool) (query : Action) (interval : N)
      (t : list Action) :
  p query = false -> p (Sleep interval) = false ->
  onlyPolls query interval t -> count p t = 0%nat.
Proof.
  intros Hq Hs H. unfold count.
  induction H as [|a t [->| ->] _ IH]; cbn [filter]; [reflexivity| |].
  - now rewrite Hq.
  - now rewrite Hs.
Qed.

(** Taking a script's [submit] apart, reply by reply. *)
Ltac open_script :=
  repeat (rewrite ?fst_bind, ?snd_bind, ?count_app;
          cbn [fst snd call lift ret throw finally app];
          try match goal with
              | |- context [match ?x with _ => _ end] =>
                  lazymatch x with
                  | context [match _ with _ => _ end] => fail
                  | _ => destruct x eqn:?
                  end
              | |- context [if ?x then _ else _] =>
                  lazymatch x with
                  | context [match _ with _ => _ end] => fail
                  | _ => destruct x eqn:?
                  end
              end).


Lemma count_waitConfirmed (p : Action -> bool) (w : Sol.World) (signature : string) :
  p (Solana (GetSignatureStatuses signature)) = false ->
  p (Sleep 2000) = false ->
  forall left i, count p (fst (Sol.QuickStart.waitConfirmed w signature left i)) = 0%nat.
Proof.
  intros Hq Hs. induction left as [|left IH]; intros i; [reflexivity|].
  rewrite waitConfirmed_pass.
  destruct (Sol.signatureStatusAt w i) as [s|e].
  - destruct (isConfirmedStatus s).
    + unfold count. cbn [fst filter]. now rewrite Hq.
    + unfold after. cbn [fst app]. unfold count in *. cbn [filter].
      rewrite Hq, Hs. apply IH.
  - unfold count. cbn [fst filter]. now rewrite Hq.
Qed.

Lemma count_evm_pollLoop (p : Action -> bool) (w : Evm.World) (hash : string) :
  p (Fusion (GetOrderStatus hash)) = false ->
  (forall ms, p (Sleep ms) = false) ->
  count p (fst (Evm.pollLoop w hash 0 0)) = 0%nat.
Proof.
  intros Hq Hs.
  apply (count_onlyPolls p (Fusion (GetOrderStatus hash)) Evm.pollInterval); auto.
  apply (evm_pollLoop_bounded 100). vm_compute. discriminate.
Qed.

Lemma count_sol_pollLoop (p : Action -> bool) (w : Sol.World) (hash : string) :
  p (Solana (SolGetOrderStatus hash)) = false ->
  (forall ms, p (Sleep ms) = false) ->
  count p (fst (Sol.SwapSolToJup.pollLoop w hash 0 0)) = 0%nat.
Proof.
  intros Hq Hs.
  apply (count_onlyPolls p (Solana (SolGetOrderStatus hash)) Sol.SwapSolToJup.pollInterval);
    auto.
  apply (sol_pollLoop_bounded 150). vm_compute. discriminate.
Qed.

(** Approvals and submissions on the way to the submitted order. *)
Definition atMostOnce (t : list Action) : Prop :=
  (count isApproval t <= 1)%nat /\ (count isSubmission t <= 1)%nat.

Lemma atMostOnce_bind {A B} (m : M A) (k : A -> M B) :
  atMostOnce (fst m) ->
  (forall a, count isApproval (fst (k a)) = 0%nat
             /\ count isSubmission (fst (k a)) = 0%nat) ->
  atMostOnce (fst (bind m k)).
Proof.
  intros [Ha Hs] Hk. unfold atMostOnce. rewrite fst_bind, !count_app.
  destruct (snd m) as [a|e].
  - destruct (Hk a) as [-> ->]. lia.
  - cbn. lia.
Qed.

Ltac count_submit := split; open_script; cbn; lia.

(** In every run of every script there is at most one token approval
    and at most one order submission (one signed transaction in the
    Solana scripts): nothing is retried or repeated on the way, and
    the wait for the fill sends nothing. *)
Theorem each_run_approves_and_submits_at_most_once :
  (forall w, atMostOnce (fst (Evm.SwapErc20.main w)))
  /\ (forall w, atMostOnce (fst (Evm.SwapPermit2.main w)))
  /\ (forall w, atMostOnce (fst (Evm.SwapNative.main w)))
  /\ (forall w, atMostOnce (fst (EvmWebSocket.main w)))
  /\ (forall w wallet, atMostOnce (fst (EvmQuickStart.main w wallet)))
  /\ (forall w, atMostOnce (fst (Sol.SwapSolToJup.main w)))
  /\ (forall w, atMostOnce (fst (Sol.WebSocket.main w)))
  /\ (forall w wallet, atMostOnce (fst (Sol.QuickStart.main w wallet)))
  /\ (forall w wallet maker,
         atMostOnce (fst (CreateOrderForDemo.createOrderForDemo w wallet maker))).
Proof.
  repeat apply conj.
  - intros w. apply atMostOnce_bind.
    + unfold Evm.SwapErc20.submit, EthersProvider.createProvider. count_submit.
    + intros info. split; apply count_evm_pollLoop; reflexivity.
  - intros w. apply atMostOnce_bind.
    + unfold Evm.SwapPermit2.submit, EthersProvider.createProvider. count_submit.
    + intros info. split; apply count_evm_pollLoop; reflexivity.
  - intros w. apply atMostOnce_bind.
    + unfold Evm.SwapNative.submit, EthersProvider.createProvider. count_submit.
    + intros info. split; apply count_evm_pollLoop; reflexivity.
  - intros w. apply atMostOnce_bind.
    + unfold EvmWebSocket.submit, EthersProvider.createProvider. count_submit.
    + intros s. split; reflexivity.
  - intros w wallet. unfold EvmQuickStart.main. count_submit.
  - intros w. apply atMostOnce_bind.
    + unfold Sol.SwapSolToJup.submit. count_submit.
    + intros h. split; apply count_sol_pollLoop; reflexivity.
  - intros w. apply atMostOnce_bind.
    + unfold Sol.WebSocket.submit. count_submit.
    + intros s. split; reflexivity.
  - intros w wallet. unfold Sol.QuickStart.main.
    split; open_script; rewrite ?count_cons, ?count_waitConfirmed by reflexivity;
      cbn [count filter isApproval isSubmission List.length]; lia.
  - intros w wallet maker. unfold CreateOrderForDemo.createOrderForDemo. count_submit.
Qed.


Lemma count_bind_eq (p : Action -> bool) {A B} (m : M A) (k : A -> M B) :
  (forall a, count p (fst (k a)) = 0%nat) ->
  count p (fst (bind m k)) = count p (fst m).
Proof.
  intros H. rewrite fst_bind, count_app.
  destruct (snd m) as [a|e]; [rewrite H | cbn]; lia.
Qed.

(** The replies under which a token script sends its approval: the
    set-up succeeds, the balance covers [amount], the allowance is
    below it. *)
Definition needsApproval (w : Evm.World) (amount : Z) : Prop :=
  exists wallet b a,
    setupOk w wallet
    /\ Evm.tokenBalance w = Ok b /\ amount <= b
    /\ Evm.tokenAllowance w = Ok a /\ a < amount.

Ltac order_facts :=
  repeat match goal with
         | H : (_ <? _) = true |- _ => apply Z.ltb_lt in H
         | H : (_ <? _) = false |- _ => apply Z.ltb_ge in H
         end.

Ltac approval_cases amount :=
  split;
  [ open_script; cbn [count filter isApproval List.length Nat.add];
    intros H; try discriminate H; clear H; order_facts;
    unfold needsApproval, setupOk;
    do 3 eexists;
    (split; [do 2 eexists; repeat split; eassumption|]);
    repeat split; try eassumption; unfold amount in *; lia
  | intros (wallet & b & a & (config & sdk & Hc & Hd & Hs) & Hb & Hge & Ha & Hlt);
    apply Z.ltb_ge in Hge; apply Z.ltb_lt in Hlt;
    open_script; cbn [count filter isApproval List.length Nat.add];
    try reflexivity; exfalso; unfold amount in *; congruence ].

(** A token script sends an approval exactly when its set-up
    succeeded, the balance covers the swap amount and the allowance
    read is below it; with a sufficient allowance no approval is ever
    sent.  The native-token script and the Solana scripts never send
    one. *)
Theorem approval_is_sent_exactly_for_a_low_allowance :
  (forall w, count isApproval (fst (Evm.SwapErc20.main w)) = 1%nat
             <-> needsApproval w 1000000)
  /\ (forall w, count isApproval (fst (Evm.SwapPermit2.main w)) = 1%nat
                <-> needsApproval w 10000000)
  /\ (forall w, count isApproval (fst (EvmWebSocket.main w)) = 1%nat
                <-> needsApproval w 1000000)
  /\ (forall w, count isApproval (fst (Evm.SwapNative.main w)) = 0%nat)
  /\ (forall w, count isApproval (fst (Sol.SwapSolToJup.main w)) = 0%nat)
  /\ (forall w, count isApproval (fst (Sol.WebSocket.main w)) = 0%nat).
Proof.
  repeat apply conj; intros w.
  - unfold Evm.SwapErc20.main.
    rewrite count_bind_eq by (intros; apply count_evm_pollLoop; reflexivity).
    unfold Evm.SwapErc20.submit, EthersProvider.createProvider.
    approval_cases Evm.SwapErc20.amountBigInt.
  - unfold Evm.SwapPermit2.main.
    rewrite count_bind_eq by (intros; apply count_evm_pollLoop; reflexivity).
    unfold Evm.SwapPermit2.submit, EthersProvider.createProvider.
    approval_cases Evm.SwapPermit2.amountBigInt.
  - unfold EvmWebSocket.main.
    rewrite count_bind_eq by (intros; reflexivity).
    unfold EvmWebSocket.submit, EthersProvider.createProvider.
    approval_cases EvmWebSocket.amountBigInt.
  - unfold Evm.SwapNative.main.
    rewrite count_bind_eq by (intros; apply count_evm_pollLoop; reflexivity).
    unfold Evm.SwapNative.submit, EthersProvider.createProvider.
    open_script; reflexivity.
  - unfold Sol.SwapSolToJup.main.
    rewrite count_bind_eq by (intros; apply count_sol_pollLoop; reflexivity).
    unfold Sol.SwapSolToJup.submit. open_script; reflexivity.
  - unfold Sol.WebSocket.main.
    rewrite count_bind_eq by (intros; reflexivity).
    unfold Sol.WebSocket.submit. open_script; reflexivity.
Qed.

Lemma approval_is_sent_exactly_for_a_low_allowance_witness :
  count isApproval (fst (Evm.SwapPermit2.main (sampleWorld 20000000 5 (fun _ => Ok Evm.Filled))))
  = 1%nat.
Proof.
  apply (proj1 (proj2 approval_is_sent_exactly_for_a_low_allowance)).
  exists "0xWallet", 20000000, 5.
  split; [do 2 eexists; repeat split; reflexivity|].
  repeat split; try reflexivity; lia.
Defined.

End RunShape.
